(** * Particle system: shape templates, palette cycling and the per-tick integrator

    A shallow embedding of the class [ParticleSystem] (constructor,
    [setTemplate], [update], [cycleColors]) and of the shape generators and
    palettes of [utils.js] that it uses.

    Numbers.  JavaScript numbers are modelled as ideal real numbers
    extended with [NaN]: rounding (to binary64, and to binary32 when a value
    is stored in a [Float32Array]), overflow and the infinities are outside
    the model.  [NaN] is kept because the integrator tests for it and because
    reading a typed array out of range yields [undefined], which every use in
    this program turns into [NaN].  What the caller passes ([dt], the hand
    spread, the pointer) and what [Math.random()] returns are real numbers.

    Randomness.  [Math.random()] is a stream [rand : nat -> R]; the state
    counts the calls made so far, and each call takes the next element.

    Exceptions.  An operation returns the state it leaves together with a
    completion, normal or thrown: a throw keeps the writes made before it.

    Not modelled: the scene graph, the shader programs (kept as strings by
    the class) and the shape indicator of the page. *)

From Stdlib Require Import Reals Lra Lia ZArith String List.
From stdpp Require Import base list strings.

Open Scope R_scope.
Open Scope string_scope.

(** ** Numbers *)

Inductive num : Type :=
| NaN
| Fin (r : R).

Definition lift2 (f : R -> R -> R) (a b : num) : num :=
  match a, b with
  | Fin x, Fin y => Fin (f x y)
  | _, _ => NaN
  end.

Definition nadd : num -> num -> num := lift2 Rplus.
Definition nsub : num -> num -> num := lift2 Rminus.
Definition nmul : num -> num -> num := lift2 Rmult.

(** [a / b].  A zero divisor gives an infinity (or [NaN]) in JavaScript;
    infinities are not represented, and the only division of the program
    sits on a branch where the divisor exceeds [0.1]. *)
Definition ndiv (a b : num) : num :=
  match a, b with
  | Fin x, Fin y => if Req_dec_T y 0 then NaN else Fin (x / y)
  | _, _ => NaN
  end.

(** [Math.sqrt] *)
Definition nsqrt (a : num) : num :=
  match a with
  | Fin x => if Rlt_dec x 0 then NaN else Fin (sqrt x)
  | NaN => NaN
  end.

(** [Math.min] of two arguments *)
Definition nmin : num -> num -> num := lift2 Rmin.

(** [a < b]; every comparison with [NaN] is false. *)
Definition nlt (a b : num) : bool :=
  match a, b with
  | Fin x, Fin y => if Rlt_dec x y then true else false
  | _, _ => false
  end.

Definition isNaN (a : num) : bool :=
  match a with
  | NaN => true
  | Fin _ => false
  end.

Declare Scope num_scope.
Delimit Scope num_scope with num.
Bind Scope num_scope with num.
Infix "+" := nadd : num_scope.
Infix "-" := nsub : num_scope.
Infix "*" := nmul : num_scope.
Infix "/" := ndiv : num_scope.

(** ** Typed arrays

    A [Float32Array] has a fixed length: a write out of range is ignored and
    a read out of range yields [undefined], which is [NaN] as soon as it
    enters arithmetic or [isNaN]. *)

Definition read (a : list num) (i : nat) : num := default NaN (a !! i).
Definition write (a : list num) (i : nat) (v : num) : list num := <[i:=v]> a.

(** ** Property lookup on an object literal

    [obj[name]] looks at the object's own properties first and then at
    [Object.prototype].  The members of [Object.prototype] are functions,
    except for the accessor [__proto__], which yields the prototype object
    itself. *)

Inductive protoMember : Type :=
| ProtoFun (arity : nat) (rejectsNumbers : bool)
| ProtoObj.

(** [rejectsNumbers] records that a call [f(u, v, target)] with numbers [u]
    and [v] throws: [__defineGetter__] and [__defineSetter__] require a
    callable second argument. *)
Definition objectPrototype (name : string) : option protoMember :=
  if String.eqb name "constructor" then Some (ProtoFun 1 false)
  else if String.eqb name "toString" then Some (ProtoFun 0 false)
  else if String.eqb name "toLocaleString" then Some (ProtoFun 0 false)
  else if String.eqb name "valueOf" then Some (ProtoFun 0 false)
  else if String.eqb name "hasOwnProperty" then Some (ProtoFun 1 false)
  else if String.eqb name "isPrototypeOf" then Some (ProtoFun 1 false)
  else if String.eqb name "propertyIsEnumerable" then Some (ProtoFun 1 false)
  else if String.eqb name "__lookupGetter__" then Some (ProtoFun 1 false)
  else if String.eqb name "__lookupSetter__" then Some (ProtoFun 1 false)
  else if String.eqb name "__defineGetter__" then Some (ProtoFun 2 true)
  else if String.eqb name "__defineSetter__" then Some (ProtoFun 2 true)
  else if String.eqb name "__proto__" then Some ProtoObj
  else None.

Inductive member (A : Type) : Type :=
| Undefined
| Own (a : A)
| Inherited (p : protoMember).

Arguments Undefined {A}.
Arguments Own {A} a.
Arguments Inherited {A} p.

Definition getMember {A : Type} (own : string -> option A) (name : string) : member A :=
  match own name with
  | Some a => Own a
  | None =>
      match objectPrototype name with
      | Some p => Inherited p
      | None => Undefined
      end
  end.

(** Functions and objects are truthy, [undefined] is falsy. *)
Definition truthy {A : Type} (m : member A) : bool :=
  match m with
  | Undefined => false
  | _ => true
  end.

(** What a statement leaves behind: it completes, or it throws.  A throw
    does not undo the writes made before it. *)
Inductive completion : Type :=
| Normal
| Throw (e : string).

Definition TypeError : string := "TypeError".

(** ** utils.js: the random source *)

Definition vec3 : Type := R * R * R.

Definition Rand (A : Type) : Type := nat -> A * nat.

Definition retR {A : Type} (a : A) : Rand A := fun k => (a, k).

Definition bindR {A B : Type} (m : Rand A) (f : A -> Rand B) : Rand B :=
  fun k => let (a, k') := m k in f a k'.

Notation "x <- m ;; f" := (bindR m (fun x => f))
  (at level 100, m at next level, right associativity).

(** [Math.cbrt] *)
Definition cbrt (x : R) : R :=
  if Rlt_dec 0 x then Rpower x (/ 3)
  else if Rlt_dec x 0 then - Rpower (- x) (/ 3)
  else 0.

(** [Math.floor], as a number *)
Definition floor (x : R) : Z := Zfloor x.

(** ** utils.js: parametric shape generators

    Each generator takes [u] and [v] in [[0,1)] and sets the target vector;
    here it returns the vector.  The generators are real-valued: for [u] and
    [v] in range no operation leaves the domain of its [Math] function.
    Arguments are evaluated left to right, which fixes the order of the
    calls to [Math.random()]. *)

Module parametric.
Section generators.

Variable rand : nat -> R.

(** [Math.random()] *)
Definition random : Rand R := fun k => (rand k, S k).

Definition heart (u v : R) : Rand vec3 :=
  let phi := u * PI * 2 in
  let scale := cbrt v in
  let x := 16 * sin phi ^ 3 * scale in
  let y := (13 * cos phi - 5 * cos (2 * phi) - 2 * cos (3 * phi) - cos (4 * phi)) * scale in
  r0 <- random ;;
  let z := (r0 - 0.5) * 4 * scale in
  retR (x * 0.45, y * 0.45 + 2, z).

Definition flower (u v : R) : Rand vec3 :=
  let phi := u * PI * 2 in
  let theta := v * PI in
  let petals := 5 in
  let r := 10 * (1 + 0.6 * sin (petals * phi) * sin theta) in
  retR (r * sin theta * cos phi, r * sin theta * sin phi, r * cos theta).

Definition saturn (u v : R) : Rand vec3 :=
  if Rlt_dec v 0.35 then
    let phi := u * PI * 2 in
    let theta := (v / 0.35) * PI in
    r0 <- random ;;
    let r := 8 * cbrt r0 in
    retR (r * sin theta * cos phi, r * sin theta * sin phi * 0.85, r * cos phi * 0.4)
  else
    let angle := u * PI * 2 in
    let ringR := 13 + (v - 0.35) * 28 in
    r0 <- random ;;
    let y := (r0 - 0.5) * 0.4 in
    let x := cos angle * ringR in
    let z := sin angle * ringR in
    let tiltAngle := 0.44 in
    retR (x, y + z * sin tiltAngle, z * cos tiltAngle).

Definition fireworks (u v : R) : Rand vec3 :=
  let burst := IZR (floor (u * 5)) in
  let cx := (burst - 2) * 10 + sin (burst * 7.3) * 4 in
  let cy := cos (burst * 3.1) * 6 + 4 in
  let cz := sin (burst * 5.7) * 3 in
  let phi := acos (2 * v - 1) in
  let theta := u * PI * 2 * 12.5 in
  r0 <- random ;;
  let r := r0 * 6 in
  retR (cx + r * sin phi * cos theta, cy + r * sin phi * sin theta, cz + r * cos phi).

Definition galaxy (u v : R) : Rand vec3 :=
  let arms := 3%Z in
  let arm := Z.rem (floor (u * IZR arms * 100)) arms in
  let armAngle := (IZR arm / IZR arms) * PI * 2 in
  let t := v * 30 in
  let angle := armAngle + t * 0.4 in
  let spread := 0.5 + t * 0.12 in
  r0 <- random ;;
  r1 <- random ;;
  r2 <- random ;;
  retR (t * cos angle + (r0 - 0.5) * spread * 3,
        (r1 - 0.5) * (1.5 + t * 0.05),
        t * sin angle + (r2 - 0.5) * spread * 3).

Definition dna (u v : R) : Rand vec3 :=
  let h := v * 50 - 25 in
  let angle := h * 0.5 in
  if Rlt_dec u 0.4 then
    retR (cos angle * 6, h, sin angle * 6)
  else if Rlt_dec u 0.8 then
    retR (cos (angle + PI) * 6, h, sin (angle + PI) * 6)
  else
    lerp <- random ;;
    r1 <- random ;;
    retR (cos angle * 6 * (1 - lerp) + cos (angle + PI) * 6 * lerp,
          h + (r1 - 0.5) * 0.3,
          sin angle * 6 * (1 - lerp) + sin (angle + PI) * 6 * lerp).

Definition star (u v : R) : Rand vec3 :=
  let points := 5 in
  let angle := u * PI * 2 in
  let segment := angle / (PI / points) in
  let segFloor := floor segment in
  let segFrac := segment - IZR segFloor in
  let outerR := 15 in
  let innerR := 6 in
  let r1 := if Z.eqb (Z.rem segFloor 2) 0 then outerR else innerR in
  let r2 := if Z.eqb (Z.rem segFloor 2) 0 then innerR else outerR in
  let maxR := r1 + (r2 - r1) * segFrac in
  let r := sqrt v * maxR in
  r0 <- random ;;
  retR (r * cos angle, r * sin angle, (r0 - 0.5) * 2).

Definition tornado (u v : R) : Rand vec3 :=
  let angle := u * PI * 2 * 10 in
  let h := v * 40 - 20 in
  let r := 2 + (v * v) * 18 in
  retR (cos (angle + h * 0.2) * r, h, sin (angle + h * 0.2) * r).

Definition sphere (u v : R) : Rand vec3 :=
  let phi := u * PI * 2 in
  let theta := v * PI in
  r0 <- random ;;
  let r := 15 * cbrt r0 in
  retR (r * sin theta * cos phi, r * sin theta * sin phi, r * cos theta).

(** The own properties of the object literal [parametric]. *)
Definition own (name : string) : option (R -> R -> Rand vec3) :=
  if String.eqb name "heart" then Some heart
  else if String.eqb name "flower" then Some flower
  else if String.eqb name "saturn" then Some saturn
  else if String.eqb name "fireworks" then Some fireworks
  else if String.eqb name "galaxy" then Some galaxy
  else if String.eqb name "dna" then Some dna
  else if String.eqb name "star" then Some star
  else if String.eqb name "tornado" then Some tornado
  else if String.eqb name "sphere" then Some sphere
  else None.

End generators.
End parametric.

(** ** utils.js: color palettes per shape, each an array of [[r, g, b]] *)

Definition color : Type := R * R * R.

Module SHAPE_COLORS.

Definition heart : list color :=
  [(1.0, 0.15, 0.35); (1.0, 0.35, 0.55); (0.85, 0.05, 0.25); (1.0, 0.55, 0.65)].
Definition flower : list color :=
  [(1.0, 0.75, 0.15); (0.2, 0.85, 0.35); (1.0, 0.45, 0.65); (0.95, 0.55, 0.1)].
Definition saturn : list color :=
  [(0.55, 0.25, 0.9); (0.9, 0.7, 0.2); (0.75, 0.45, 1.0); (0.3, 0.15, 0.7)].
Definition fireworks : list color :=
  [(1.0, 0.85, 0.1); (1.0, 0.25, 0.1); (0.15, 1.0, 0.35); (0.25, 0.6, 1.0)].
Definition galaxy : list color :=
  [(0.1, 0.7, 1.0); (0.85, 0.3, 1.0); (0.2, 0.4, 1.0); (0.95, 0.9, 0.75)].
Definition dna : list color :=
  [(0.0, 0.9, 0.8); (0.0, 0.6, 1.0); (0.3, 1.0, 0.5); (0.1, 0.8, 0.9)].
Definition star : list color :=
  [(1.0, 0.95, 0.5); (1.0, 0.8, 0.2); (1.0, 0.65, 0.0); (1.0, 1.0, 0.85)].
Definition tornado : list color :=
  [(0.6, 0.6, 0.7); (0.4, 0.45, 0.55); (0.8, 0.85, 0.9); (0.35, 0.4, 0.5)].
Definition sphere : list color :=
  [(0.3, 0.5, 1.0); (0.4, 0.65, 1.0); (0.5, 0.75, 1.0); (0.2, 0.4, 0.9)].

Definition own (name : string) : option (list color) :=
  if String.eqb name "heart" then Some heart
  else if String.eqb name "flower" then Some flower
  else if String.eqb name "saturn" then Some saturn
  else if String.eqb name "fireworks" then Some fireworks
  else if String.eqb name "galaxy" then Some galaxy
  else if String.eqb name "dna" then Some dna
  else if String.eqb name "star" then Some star
  else if String.eqb name "tornado" then Some tornado
  else if String.eqb name "sphere" then Some sphere
  else None.

End SHAPE_COLORS.

(** ** ParticleSystem.js: the state

    The fields of the class that the simulation reads or writes.  The three
    geometry attributes [position], [color] and [size] are the arrays
    [positions], [colors] and [sizes]; [uTime] and [uExpansion] are the
    shader uniforms.  [randomCalls] is the number of calls made to
    [Math.random()] so far.  The scene, the shader sources, the attribute
    [aRandom] and the shape indicator of the page are not part of the
    simulation. *)

Record ParticleSystem : Type := mkParticleSystem {
  count : nat;
  currentTemplate : string;
  time : R;
  colorPaletteIndex : nat;
  positions : list num;
  colors : list num;
  sizes : list num;
  velocities : list num;
  targetPositions : list num;
  targetColors : list num;
  uTime : R;
  uExpansion : R;
  randomCalls : nat
}.

Definition set_currentTemplate (x : string) (s : ParticleSystem) : ParticleSystem :=
  {| count := count s; currentTemplate := x; time := time s;
     colorPaletteIndex := colorPaletteIndex s;
     positions := positions s; colors := colors s; sizes := sizes s;
     velocities := velocities s; targetPositions := targetPositions s;
     targetColors := targetColors s; uTime := uTime s;
     uExpansion := uExpansion s; randomCalls := randomCalls s |}.

Definition set_time (x : R) (s : ParticleSystem) : ParticleSystem :=
  {| count := count s; currentTemplate := currentTemplate s; time := x;
     colorPaletteIndex := colorPaletteIndex s;
     positions := positions s; colors := colors s; sizes := sizes s;
     velocities := velocities s; targetPositions := targetPositions s;
     targetColors := targetColors s; uTime := uTime s;
     uExpansion := uExpansion s; randomCalls := randomCalls s |}.

Definition set_colorPaletteIndex (x : nat) (s : ParticleSystem) : ParticleSystem :=
  {| count := count s; currentTemplate := currentTemplate s; time := time s;
     colorPaletteIndex := x; positions := positions s;
     colors := colors s; sizes := sizes s; velocities := velocities s;
     targetPositions := targetPositions s;
     targetColors := targetColors s; uTime := uTime s;
     uExpansion := uExpansion s; randomCalls := randomCalls s |}.

Definition set_positions (x : list num) (s : ParticleSystem) : ParticleSystem :=
  {| count := count s; currentTemplate := currentTemplate s; time := time s;
     colorPaletteIndex := colorPaletteIndex s; positions := x;
     colors := colors s; sizes := sizes s; velocities := velocities s;
     targetPositions := targetPositions s;
     targetColors := targetColors s; uTime := uTime s;
     uExpansion := uExpansion s; randomCalls := randomCalls s |}.

Definition set_colors (x : list num) (s : ParticleSystem) : ParticleSystem :=
  {| count := count s; currentTemplate := currentTemplate s; time := time s;
     colorPaletteIndex := colorPaletteIndex s;
     positions := positions s; colors := x; sizes := sizes s;
     velocities := velocities s; targetPositions := targetPositions s;
     targetColors := targetColors s; uTime := uTime s;
     uExpansion := uExpansion s; randomCalls := randomCalls s |}.

Definition set_sizes (x : list num) (s : ParticleSystem) : ParticleSystem :=
  {| count := count s; currentTemplate := currentTemplate s; time := time s;
     colorPaletteIndex := colorPaletteIndex s;
     positions := positions s; colors := colors s; sizes := x;
     velocities := velocities s; targetPositions := targetPositions s;
     targetColors := targetColors s; uTime := uTime s;
     uExpansion := uExpansion s; randomCalls := randomCalls s |}.

Definition set_velocities (x : list num) (s : ParticleSystem) : ParticleSystem :=
  {| count := count s; currentTemplate := currentTemplate s; time := time s;
     colorPaletteIndex := colorPaletteIndex s;
     positions := positions s; colors := colors s; sizes := sizes s;
     velocities := x; targetPositions := targetPositions s;
     targetColors := targetColors s; uTime := uTime s;
     uExpansion := uExpansion s; randomCalls := randomCalls s |}.

Definition set_targetPositions (x : list num) (s : ParticleSystem) : ParticleSystem :=
  {| count := count s; currentTemplate := currentTemplate s; time := time s;
     colorPaletteIndex := colorPaletteIndex s;
     positions := positions s; colors := colors s; sizes := sizes s;
     velocities := velocities s; targetPositions := x;
     targetColors := targetColors s; uTime := uTime s;
     uExpansion := uExpansion s; randomCalls := randomCalls s |}.

Definition set_targetColors (x : list num) (s : ParticleSystem) : ParticleSystem :=
  {| count := count s; currentTemplate := currentTemplate s; time := time s;
     colorPaletteIndex := colorPaletteIndex s;
     positions := positions s; colors := colors s; sizes := sizes s;
     velocities := velocities s; targetPositions := targetPositions s;
     targetColors := x; uTime := uTime s; uExpansion := uExpansion s;
     randomCalls := randomCalls s |}.

Definition set_uTime (x : R) (s : ParticleSystem) : ParticleSystem :=
  {| count := count s; currentTemplate := currentTemplate s; time := time s;
     colorPaletteIndex := colorPaletteIndex s;
     positions := positions s; colors := colors s; sizes := sizes s;
     velocities := velocities s; targetPositions := targetPositions s;
     targetColors := targetColors s; uTime := x;
     uExpansion := uExpansion s; randomCalls := randomCalls s |}.

Definition set_uExpansion (x : R) (s : ParticleSystem) : ParticleSystem :=
  {| count := count s; currentTemplate := currentTemplate s; time := time s;
     colorPaletteIndex := colorPaletteIndex s;
     positions := positions s; colors := colors s; sizes := sizes s;
     velocities := velocities s; targetPositions := targetPositions s;
     targetColors := targetColors s; uTime := uTime s; uExpansion := x;
     randomCalls := randomCalls s |}.

Definition set_randomCalls (x : nat) (s : ParticleSystem) : ParticleSystem :=
  {| count := count s; currentTemplate := currentTemplate s; time := time s;
     colorPaletteIndex := colorPaletteIndex s;
     positions := positions s; colors := colors s; sizes := sizes s;
     velocities := velocities s; targetPositions := targetPositions s;
     targetColors := targetColors s; uTime := uTime s;
     uExpansion := uExpansion s; randomCalls := x |}.

(** The gesture record of [HandInput]: six flags, the hand-detected flag,
    the hand spread and the pointer.  An absent field of the object passed
    to [update] is [undefined]: falsy as a flag, no pointer. *)
Record Gestures : Type := mkGestures {
  isFist : bool;
  isOpen : bool;
  isPinching : bool;
  isPointing : bool;
  isRock : bool;
  isPeace : bool;
  pointer : option (R * R);
  handSpread : R;
  handDetected : bool
}.

(** The empty object [{}]; [handSpread] is never read when [handDetected]
    is falsy. *)
Definition noGestures : Gestures :=
  {| isFist := false; isOpen := false; isPinching := false; isPointing := false;
     isRock := false; isPeace := false; pointer := None; handSpread := 0;
     handDetected := false |}.

(** [for (let i = start; i < start + n; i++) body], stopped by a throw. *)
Fixpoint forLoop {S : Type} (body : nat -> S -> S * completion)
    (i n : nat) (s : S) : S * completion :=
  match n with
  | O => (s, Normal)
  | Datatypes.S n' =>
      match body i s with
      | (s', Normal) => forLoop body (Datatypes.S i) n' s'
      | (s', Throw e) => (s', Throw e)
      end
  end.

Definition nvec : Type := num * num * num.

Definition read3 (a : list num) (i3 : nat) : nvec :=
  (read a i3, read a (i3 + 1), read a (i3 + 2)).

Definition write3 (a : list num) (i3 : nat) (v : nvec) : list num :=
  let '(x, y, z) := v in
  write (write (write a i3 x) (i3 + 1) y) (i3 + 2) z.

(** ** ParticleSystem.js: the constants of [update] *)

Definition seekStrength : R := 2.5.
Definition damping : R := 0.88.
Definition colorLerp : R := 0.025.

(** ** ParticleSystem.js: the blocks of the per-particle update *)

(** Target seeking *)
Definition seek (dt : R) (p v t : nvec) : nvec :=
  let '(px, py, pz) := p in
  let '(vx, vy, vz) := v in
  let '(tx, ty, tz) := t in
  if negb (isNaN tx) then
    (vx + (tx - px) * Fin seekStrength * Fin dt,
     vy + (ty - py) * Fin seekStrength * Fin dt,
     vz + (tz - pz) * Fin seekStrength * Fin dt)%num
  else v.

(** Hand repulsion: the offset from the particle to the pointer *)
Definition offset (bx by_ : R) (p : nvec) : nvec :=
  let '(px, py, pz) := p in
  (Fin bx - px, Fin by_ - py, Fin 0 - pz)%num.

Definition distSqOf (d : nvec) : num :=
  let '(dx, dy, dz) := d in
  (dx * dx + dy * dy + dz * dz)%num.

(** [distSq < 50 && distSq > 0.01] *)
Definition nearHand (distSq : num) : bool :=
  nlt distSq (Fin 50) && nlt (Fin 0.01) distSq.

Definition repel (dt : R) (d : nvec) (distSq : num) (v : nvec) : nvec :=
  let '(dx, dy, dz) := d in
  let '(vx, vy, vz) := v in
  let dist := nsqrt distSq in
  let force := ((Fin 7 - dist) * Fin 3.0)%num in
  let nx := (dx / dist)%num in
  let ny := (dy / dist)%num in
  let nz := (dz / dist)%num in
  (vx - nx * force * Fin dt * Fin 6,
   vy - ny * force * Fin dt * Fin 6,
   vz - nz * force * Fin dt * Fin 6)%num.

(** Highlight particles near hand *)
Definition highlight (c : num) : num := nmin (Fin 1) (c + Fin 0.15).

(** Lerp to target color *)
Definition lerpColor (c t : num) : num := (c + (t - c) * Fin colorLerp)%num.

(** Damping *)
Definition damp (v : nvec) : nvec :=
  let '(vx, vy, vz) := v in
  (vx * Fin damping, vy * Fin damping, vz * Fin damping)%num.

(** Integrate *)
Definition integrate (dt : R) (p v : nvec) : nvec :=
  let '(px, py, pz) := p in
  let '(vx, vy, vz) := v in
  (px + vx * Fin dt, py + vy * Fin dt, pz + vz * Fin dt)%num.

(** Pulsing particle sizes *)
Definition pulse (time : R) (i : nat) : num :=
  Fin (0.3 + 0.4 * sin (time * 1.5 + INR i * 0.01)).

(** The body of the per-particle loop of [update]. *)
Definition updateParticle (dt bx by_ : R) (i : nat) (s : ParticleSystem) : ParticleSystem :=
  let i3 := (i * 3)%nat in
  let p := read3 (positions s) i3 in
  let v := read3 (velocities s) i3 in
  let t := read3 (targetPositions s) i3 in
  let v := seek dt p v t in
  let d := offset bx by_ p in
  let distSq := distSqOf d in
  let '(v, cs) :=
    if nearHand distSq then
      let v := repel dt d distSq v in
      let cs := colors s in
      let cs := write cs i3 (highlight (read cs i3)) in
      let cs := write cs (i3 + 1) (highlight (read cs (i3 + 1))) in
      let cs := write cs (i3 + 2) (highlight (read cs (i3 + 2))) in
      (v, cs)
    else
      let cs := colors s in
      let cs := write cs i3 (lerpColor (read cs i3) (read (targetColors s) i3)) in
      let cs := write cs (i3 + 1)
                  (lerpColor (read cs (i3 + 1)) (read (targetColors s) (i3 + 1))) in
      let cs := write cs (i3 + 2)
                  (lerpColor (read cs (i3 + 2)) (read (targetColors s) (i3 + 2))) in
      (v, cs) in
  let v := damp v in
  let p := integrate dt p v in
  let s := set_colors cs s in
  let s := set_positions (write3 (positions s) i3 p) s in
  let s := set_velocities (write3 (velocities s) i3 v) s in
  set_sizes (write (sizes s) i (pulse (time s) i)) s.

(** ** ParticleSystem.js: the three operations *)

Section operations.

Variable rand : nat -> R.

(** [Math.random()] on the counter of the state *)
Definition nextRandom (s : ParticleSystem) : R * ParticleSystem :=
  (rand (randomCalls s), set_randomCalls (S (randomCalls s)) s).

(** [SHAPE_COLORS[name] || SHAPE_COLORS.sphere] *)
Definition paletteOf (name : string) : member (list color) :=
  match getMember SHAPE_COLORS.own name with
  | Undefined => Own SHAPE_COLORS.sphere
  | m => m
  end.

(** [palette[k % palette.length]].  A function or the prototype object has
    no indexed element, whatever its [length] is: the result is
    [undefined]. *)
Definition paletteAt (palette : member (list color)) (k : nat) : option color :=
  match palette with
  | Own cs => cs !! (k mod length cs)%nat
  | _ => None
  end.

(** [parametric[templateName](u, v, dummy)]: a generator sets [dummy]; an
    inherited function returns without touching it, or throws on its
    arguments; anything else is not callable. *)
Definition callGenerator (gen : member (R -> R -> Rand vec3)) (u v : R)
    (dummy : vec3) (s : ParticleSystem) : option (vec3 * ParticleSystem) :=
  match gen with
  | Own f => let (d, k) := f u v (randomCalls s) in Some (d, set_randomCalls k s)
  | Inherited (ProtoFun _ false) => Some (dummy, s)
  | _ => None
  end.

(** The body of the loop of [setTemplate]; the vector [dummy] lives across
    the iterations. *)
Definition seedParticle (gen : member (R -> R -> Rand vec3))
    (palette : member (list color)) (i : nat) (st : vec3 * ParticleSystem)
    : (vec3 * ParticleSystem) * completion :=
  let (dummy, s) := st in
  let (u, s) := nextRandom s in
  let (v, s) := nextRandom s in
  match callGenerator gen u v dummy s with
  | None => ((dummy, s), Throw TypeError)
  | Some (dummy, s) =>
      let '(x, y, z) := dummy in
      let (r0, s) := nextRandom s in
      let x := x + (r0 - 0.5) * 0.3 in
      let (r1, s) := nextRandom s in
      let y := y + (r1 - 0.5) * 0.3 in
      let (r2, s) := nextRandom s in
      let z := z + (r2 - 0.5) * 0.3 in
      let dummy := (x, y, z) in
      let s := set_targetPositions (write (targetPositions s) (i * 3) (Fin x)) s in
      let s := set_targetPositions (write (targetPositions s) (i * 3 + 1) (Fin y)) s in
      let s := set_targetPositions (write (targetPositions s) (i * 3 + 2) (Fin z)) s in
      match paletteAt palette i with
      | None => ((dummy, s), Throw TypeError)
      | Some (c0, c1, c2) =>
          let variation := 0.1 in
          let (r3, s) := nextRandom s in
          let s := set_targetColors
                     (write (targetColors s) (i * 3)
                        (Fin (Rmin 1 (c0 + (r3 - 0.5) * variation)))) s in
          let (r4, s) := nextRandom s in
          let s := set_targetColors
                     (write (targetColors s) (i * 3 + 1)
                        (Fin (Rmin 1 (c1 + (r4 - 0.5) * variation)))) s in
          let (r5, s) := nextRandom s in
          let s := set_targetColors
                     (write (targetColors s) (i * 3 + 2)
                        (Fin (Rmin 1 (c2 + (r5 - 0.5) * variation)))) s in
          ((dummy, s), Normal)
      end
  end.

Definition setTemplate (templateName : string) (s : ParticleSystem)
    : ParticleSystem * completion :=
  let gen := getMember (parametric.own rand) templateName in
  if negb (truthy gen) then (s, Normal)
  else
    let s := set_currentTemplate templateName s in
    let dummy : vec3 := (0, 0, 0) in
    let palette := paletteOf templateName in
    let '((_, s), c) := forLoop (seedParticle gen palette) 0 (count s) (dummy, s) in
    (s, c).

(** The body of the loop of the constructor: a random position in the cube
    of side [80], the initial color, a random size ([randomRange(0.2, 1.0)])
    and one more random number for the attribute [aRandom]. *)
Definition initParticle (i : nat) (s : ParticleSystem) : ParticleSystem * completion :=
  let (r0, s) := nextRandom s in
  let s := set_positions (write (positions s) (i * 3) (Fin ((r0 - 0.5) * 80))) s in
  let (r1, s) := nextRandom s in
  let s := set_positions (write (positions s) (i * 3 + 1) (Fin ((r1 - 0.5) * 80))) s in
  let (r2, s) := nextRandom s in
  let s := set_positions (write (positions s) (i * 3 + 2) (Fin ((r2 - 0.5) * 80))) s in
  let s := set_colors (write (colors s) (i * 3) (Fin 0.2)) s in
  let s := set_colors (write (colors s) (i * 3 + 1) (Fin 0.5)) s in
  let s := set_colors (write (colors s) (i * 3 + 2) (Fin 1.0)) s in
  let (r3, s) := nextRandom s in
  let s := set_sizes (write (sizes s) i (Fin (r3 * (1.0 - 0.2) + 0.2))) s in
  let (_, s) := nextRandom s in
  (s, Normal).

(** [new Float32Array(n)] *)
Definition zeros (n : nat) : list num := replicate n (Fin 0).

(** The constructor, for [n] particles and [calls] earlier calls of
    [Math.random()]; the source fixes [this.count = 20000]. *)
Definition construct (n calls : nat) : ParticleSystem * completion :=
  let s :=
    {| count := n; currentTemplate := "galaxy"; time := 0; colorPaletteIndex := 0;
       positions := zeros (n * 3); colors := zeros (n * 3); sizes := zeros n;
       velocities := zeros (n * 3); targetPositions := zeros (n * 3);
       targetColors := zeros (n * 3); uTime := 0; uExpansion := 1.0;
       randomCalls := calls |} in
  let (s, _) := forLoop initParticle 0 n s in
  setTemplate "galaxy" s.

(** [if (this.currentTemplate !== name) this.setTemplate(name)] *)
Definition switchTo (name : string) (s : ParticleSystem) : ParticleSystem * completion :=
  if negb (String.eqb (currentTemplate s) name) then setTemplate name s
  else (s, Normal).

(** Gesture -> Template mapping *)
Definition mapGesture (gestures : Gestures) (s : ParticleSystem)
    : ParticleSystem * completion :=
  if isFist gestures then switchTo "heart" s
  else if isPinching gestures then switchTo "dna" s
  else if isOpen gestures then switchTo "galaxy" s
  else if isRock gestures then switchTo "saturn" s
  else if isPeace gestures then switchTo "flower" s
  else if isPointing gestures then switchTo "fireworks" s
  else (s, Normal).

(** Hand-based expansion: the target of the smoothing *)
Definition targetExpansionOf (gestures : Gestures) : R :=
  if handDetected gestures then 0.7 + handSpread gestures * 0.8 else 1.0.

(** Pointer interaction position, [(bx, by)] *)
Definition pointerPosition (gestures : Gestures) : R * R :=
  let hasPointer := if handDetected gestures then pointer gestures else None in
  let bx := match hasPointer with Some (x, _) => x * 40 | None => 9999 end in
  let by_ := match hasPointer with Some (_, y) => y * 20 | None => 9999 end in
  (bx, by_).

Definition update (dt : R) (gestures : option Gestures) (s : ParticleSystem)
    : ParticleSystem * completion :=
  let gestures := default noGestures gestures in
  let s := set_time (time s + dt) s in
  let s := set_uTime (time s) s in
  match mapGesture gestures s with
  | (s, Throw e) => (s, Throw e)
  | (s, Normal) =>
      let targetExpansion := targetExpansionOf gestures in
      let currentExp := uExpansion s in
      let s := set_uExpansion (uExpansion s + (targetExpansion - currentExp) * 0.03) s in
      let (bx, by_) := pointerPosition gestures in
      forLoop (fun i s => (updateParticle dt bx by_ i s, Normal)) 0 (count s) s
  end.

Definition cycleParticle (palette : member (list color)) (i : nat) (s : ParticleSystem)
    : ParticleSystem * completion :=
  match paletteAt palette (i + colorPaletteIndex s) with
  | None => (s, Throw TypeError)
  | Some (c0, c1, c2) =>
      let hueShift := INR (colorPaletteIndex s) * 0.25 in
      let s := set_targetColors
                 (write (targetColors s) (i * 3)
                    (Fin (Rmin 1 (c0 * cos hueShift + c2 * sin hueShift)))) s in
      let s := set_targetColors (write (targetColors s) (i * 3 + 1) (Fin c1)) s in
      let s := set_targetColors
                 (write (targetColors s) (i * 3 + 2)
                    (Fin (Rmin 1 (c2 * cos hueShift - c0 * sin hueShift)))) s in
      (s, Normal)
  end.

Definition cycleColors (s : ParticleSystem) : ParticleSystem * completion :=
  let palette := paletteOf (currentTemplate s) in
  match forLoop (cycleParticle palette) 0 (count s) s with
  | (s, Throw e) => (s, Throw e)
  | (s, Normal) => (set_colorPaletteIndex (S (colorPaletteIndex s)) s, Normal)
  end.

End operations.

(** ** utils.js: randomRange *)

(** [randomRange(min, max)] *)
Definition randomRange (rand : nat -> R) (min max : R) : Rand R :=
  r <- parametric.random rand ;; retR (r * (max - min) + min).

(** ** HandInput.js: the gesture state and [processResults]

    A landmark is a point [{x, y, z}] in normalized image coordinates; a
    hand is the array of its landmarks, and [results.landmarks] is the array
    of the detected hands, or is absent.  The object [this.gestures] is
    kept as the record [Gestures] of the fields that [update] reads (the
    pointer with its [x] and [y]), together with its other fields:
    [fingerCount], [palmCenter] and the [z] of the pointer.  The status dot
    and the label of the page are not modelled. *)

Record Landmark : Type := mkLandmark { lmX : R; lmY : R; lmZ : R }.

Record HandInput : Type := mkHandInput {
  gestures : Gestures;
  fingerCount : Z;
  pointerZ : R;
  palmCenter : R * R;
  hands : list (list Landmark);
  isReady : bool
}.

(** The state that the constructor of [HandInput] leaves. *)
Definition newHandInput : HandInput :=
  {| gestures :=
       {| isFist := false; isOpen := false; isPinching := false; isPointing := false;
          isRock := false; isPeace := false; pointer := Some (0, 0); handSpread := 0;
          handDetected := false |};
     fingerCount := -1; pointerZ := 0; palmCenter := (0.5, 0.5);
     hands := []; isReady := false |}.

(** [dist(p1, p2)] *)
Definition dist (p1 p2 : Landmark) : R :=
  sqrt ((lmX p1 - lmX p2) ^ 2 + (lmY p1 - lmY p2) ^ 2 + (lmZ p1 - lmZ p2) ^ 2).

(** [a < b] on numbers *)
Definition ltb (a b : R) : bool := if Rlt_dec a b then true else false.

(** The reset at the head of [processResults]: the pointer and the palm
    center keep their last values. *)
Definition resetGestures (h : HandInput) : HandInput :=
  {| gestures :=
       {| isFist := false; isOpen := false; isPinching := false; isPointing := false;
          isRock := false; isPeace := false; pointer := pointer (gestures h);
          handSpread := 0; handDetected := false |};
     fingerCount := -1; pointerZ := pointerZ h; palmCenter := palmCenter h;
     hands := []; isReady := isReady h |}.

(** The record with its gesture fields replaced *)
Definition setGestures (g : Gestures) (h : HandInput) : HandInput :=
  {| gestures := g; fingerCount := fingerCount h; pointerZ := pointerZ h;
     palmCenter := palmCenter h; hands := hands h; isReady := isReady h |}.

(** One flag of the gesture record set to [true] *)
Definition withFist (g : Gestures) : Gestures :=
  {| isFist := true; isOpen := isOpen g; isPinching := isPinching g;
     isPointing := isPointing g; isRock := isRock g; isPeace := isPeace g;
     pointer := pointer g; handSpread := handSpread g; handDetected := handDetected g |}.
Definition withOpen (g : Gestures) : Gestures :=
  {| isFist := isFist g; isOpen := true; isPinching := isPinching g;
     isPointing := isPointing g; isRock := isRock g; isPeace := isPeace g;
     pointer := pointer g; handSpread := handSpread g; handDetected := handDetected g |}.
Definition withPointing (g : Gestures) : Gestures :=
  {| isFist := isFist g; isOpen := isOpen g; isPinching := isPinching g;
     isPointing := true; isRock := isRock g; isPeace := isPeace g;
     pointer := pointer g; handSpread := handSpread g; handDetected := handDetected g |}.
Definition withPeace (g : Gestures) : Gestures :=
  {| isFist := isFist g; isOpen := isOpen g; isPinching := isPinching g;
     isPointing := isPointing g; isRock := isRock g; isPeace := true;
     pointer := pointer g; handSpread := handSpread g; handDetected := handDetected g |}.
Definition withRock (g : Gestures) : Gestures :=
  {| isFist := isFist g; isOpen := isOpen g; isPinching := isPinching g;
     isPointing := isPointing g; isRock := true; isPeace := isPeace g;
     pointer := pointer g; handSpread := handSpread g; handDetected := handDetected g |}.

(** Gesture classification, on the finger count, the four finger tests and
    the pinch flag already stored. *)
Definition classify (fingers : Z) (isIndexUp isMiddleUp isRingUp isPinkyUp : bool)
    (g : Gestures) : Gestures :=
  if Z.eqb fingers 0 then withFist g
  else if Z.leb 4 fingers && negb (isPinching g) then withOpen g
  else if isIndexUp && negb isMiddleUp && negb isRingUp && negb isPinkyUp then
    withPointing g
  else if isIndexUp && isMiddleUp && negb isRingUp && negb isPinkyUp then withPeace g
  else if isIndexUp && negb isMiddleUp && negb isRingUp && isPinkyUp then withRock g
  else g.

(** [processResults(results)]: reading a coordinate of a landmark that the
    hand does not have throws a [TypeError], after the writes made so
    far. *)
Definition processResults (results : option (list (list Landmark))) (h : HandInput)
    : HandInput * completion :=
  let h := resetGestures h in
  match results with
  | None | Some [] => (h, Normal)
  | Some (lm :: others) =>
      let g := gestures h in
      let g := {| isFist := isFist g; isOpen := isOpen g; isPinching := isPinching g;
                  isPointing := isPointing g; isRock := isRock g; isPeace := isPeace g;
                  pointer := pointer g; handSpread := handSpread g;
                  handDetected := true |} in
      let h := {| gestures := g; fingerCount := fingerCount h; pointerZ := pointerZ h;
                  palmCenter := palmCenter h; hands := lm :: others;
                  isReady := isReady h |} in
      (* Palm center *)
      match lm !! 0%nat, lm !! 5%nat, lm !! 17%nat with
      | Some l0, Some l5, Some l17 =>
          let palmX := (lmX l0 + lmX l5 + lmX l17) / 3 in
          let palmY := (lmY l0 + lmY l5 + lmY l17) / 3 in
          let h := {| gestures := gestures h; fingerCount := fingerCount h;
                      pointerZ := pointerZ h; palmCenter := (palmX, palmY);
                      hands := hands h; isReady := isReady h |} in
          (* Pointer (index fingertip) *)
          match lm !! 8%nat with
          | Some l8 =>
              let g := gestures h in
              let g := {| isFist := isFist g; isOpen := isOpen g;
                          isPinching := isPinching g; isPointing := isPointing g;
                          isRock := isRock g; isPeace := isPeace g;
                          pointer := Some ((lmX l8 - 0.5) * 2, - (lmY l8 - 0.5) * 2);
                          handSpread := handSpread g;
                          handDetected := handDetected g |} in
              let h := {| gestures := g; fingerCount := fingerCount h;
                          pointerZ := lmZ l8; palmCenter := palmCenter h;
                          hands := hands h; isReady := isReady h |} in
              (* Finger extension detection *)
              match lm !! 4%nat, lm !! 2%nat, lm !! 6%nat, lm !! 12%nat, lm !! 10%nat,
                    lm !! 16%nat, lm !! 14%nat, lm !! 20%nat, lm !! 18%nat with
              | Some l4, Some l2, Some l6, Some l12, Some l10,
                Some l16, Some l14, Some l20, Some l18 =>
                  let isThumbOut := ltb 0.06 (Rabs (lmX l4 - lmX l2)) in
                  let isIndexUp := ltb (lmY l8) (lmY l6) in
                  let isMiddleUp := ltb (lmY l12) (lmY l10) in
                  let isRingUp := ltb (lmY l16) (lmY l14) in
                  let isPinkyUp := ltb (lmY l20) (lmY l18) in
                  let fingers :=
                    Z.of_nat (length (filter (fun b : bool => b = true)
                      [isThumbOut; isIndexUp; isMiddleUp; isRingUp; isPinkyUp])) in
                  let h := {| gestures := gestures h; fingerCount := fingers;
                              pointerZ := pointerZ h; palmCenter := palmCenter h;
                              hands := hands h; isReady := isReady h |} in
                  (* Pinch: thumb tip to index tip distance *)
                  let pinchDist := dist l4 l8 in
                  let g := gestures h in
                  let g := {| isFist := isFist g; isOpen := isOpen g;
                              isPinching := ltb pinchDist 0.05;
                              isPointing := isPointing g; isRock := isRock g;
                              isPeace := isPeace g; pointer := pointer g;
                              handSpread := handSpread g;
                              handDetected := handDetected g |} in
                  let h := setGestures g h in
                  (* Hand spread *)
                  let palm := {| lmX := palmX; lmY := palmY;
                                 lmZ := (lmZ l0 + lmZ l5 + lmZ l17) / 3 |} in
                  let tips := [l4; l8; l12; l16; l20] in
                  let avgDist := fold_left (fun s t => s + dist t palm) tips 0 / 5 in
                  let g := gestures h in
                  let g := {| isFist := isFist g; isOpen := isOpen g;
                              isPinching := isPinching g; isPointing := isPointing g;
                              isRock := isRock g; isPeace := isPeace g;
                              pointer := pointer g;
                              handSpread := Rmin (avgDist / 0.25) 1.0;
                              handDetected := handDetected g |} in
                  (* Gesture classification *)
                  let g := classify fingers isIndexUp isMiddleUp isRingUp isPinkyUp g in
                  (setGestures g h, Normal)
              | _, _, _, _, _, _, _, _, _ => (h, Throw TypeError)
              end
          | None => (h, Throw TypeError)
          end
      | _, _, _ => (h, Throw TypeError)
      end
  end.


(** ** main.js: the keyboard handler and the animation frame

    Of the page, only the particle system is kept: the handler of [keydown]
    as the function of the key and of the particle system that it calls,
    the frame of [animate] as the call of [update] that it makes.  The
    panel toggled by the key [h], the orbit controls, the camera sway, the
    renderer and the FPS counter are not modelled. *)

Module KEY_MAP.

(** The own properties of the object literal [KEY_MAP]. *)
Definition own (key : string) : option string :=
  if String.eqb key "1" then Some "heart"
  else if String.eqb key "2" then Some "flower"
  else if String.eqb key "3" then Some "saturn"
  else if String.eqb key "4" then Some "fireworks"
  else if String.eqb key "5" then Some "galaxy"
  else if String.eqb key "6" then Some "dna"
  else if String.eqb key "7" then Some "star"
  else if String.eqb key "8" then Some "tornado"
  else if String.eqb key "0" then Some "sphere"
  else None.

End KEY_MAP.

(** [key.toLowerCase()], for key names written in ASCII: the letters [A] to
    [Z] are mapped to [a] to [z]. *)
Definition lowerLetter (c : Ascii.ascii) : Ascii.ascii :=
  let n := Ascii.nat_of_ascii c in
  if (65 <=? n)%nat && (n <=? 90)%nat then Ascii.ascii_of_nat (n + 32) else c.

Fixpoint toLowerCase (s : string) : string :=
  match s with
  | EmptyString => EmptyString
  | String c rest => String (lowerLetter c) (toLowerCase rest)
  end.

(** The property key that a member of [Object.prototype] becomes when it is
    used as one, in [parametric[templateName]] and
    [SHAPE_COLORS[templateName]]: its string conversion.  The text of a
    native function depends on the engine, but has this form and starts
    with [function]. *)
Definition propertyKey (p : protoMember) : string :=
  match p with
  | ProtoFun _ _ => "function () { [native code] }"
  | ProtoObj => "[object Object]"
  end.

(** The handler of [keydown].  An entry of [KEY_MAP] is a nonempty string,
    hence truthy. *)
Definition keydown (rand : nat -> R) (key : string) (s : ParticleSystem)
    : ParticleSystem * completion :=
  let key := toLowerCase key in
  if truthy (getMember KEY_MAP.own key) then
    match getMember KEY_MAP.own key with
    | Own name => setTemplate rand name s
    | Inherited p => setTemplate rand (propertyKey p) s
    | Undefined => (s, Normal)
    end
  else if String.eqb key "c" then cycleColors s
  else (s, Normal).

(** One frame of [animate], for the time [delta] that the clock reports:
    [dt] is capped, and the gestures are read only from a tracker that is
    ready. *)
Definition animate (rand : nat -> R) (delta : R) (handInput : HandInput)
    (s : ParticleSystem) : ParticleSystem * completion :=
  let dt := Rmin delta 0.05 in
  update rand dt (if isReady handInput then Some (gestures handInput) else None) s.
(** * Specification vocabulary *)

(** The constructor allocates every vector buffer with [3 * count] entries
    and [sizes] with [count] entries; no operation changes a length. *)
Definition wellFormed (s : ParticleSystem) : Prop :=
  length (positions s) = (count s * 3)%nat /\
  length (velocities s) = (count s * 3)%nat /\
  length (colors s) = (count s * 3)%nat /\
  length (targetPositions s) = (count s * 3)%nat /\
  length (targetColors s) = (count s * 3)%nat /\
  length (sizes s) = count s.

(** The velocity [v1] of a particle at [p] after the repulsion block. *)
Definition repulsed (dt bx by_ : R) (p v1 : nvec) : nvec :=
  let d := offset bx by_ p in
  if nearHand (distSqOf d) then repel dt d (distSqOf d) v1 else v1.

(** The velocity of a particle after seeking and repulsion, before damping. *)
Definition forced (dt bx by_ : R) (p v t : nvec) : nvec :=
  repulsed dt bx by_ p (seek dt p v t).

(** The color of a particle after the highlight or the blend. *)
Definition recolor (bx by_ : R) (p c tc : nvec) : nvec :=
  let '(c0, c1, c2) := c in
  let '(t0, t1, t2) := tc in
  if nearHand (distSqOf (offset bx by_ p)) then
    (highlight c0, highlight c1, highlight c2)
  else
    (lerpColor c0 t0, lerpColor c1 t1, lerpColor c2 t2).

(** The state on which the per-particle loop of [update] starts. *)
Definition beforeLoop (rand : nat -> R) (dt : R) (gestures : option Gestures)
    (s : ParticleSystem) : ParticleSystem :=
  let g := default noGestures gestures in
  let s := set_uTime (time s + dt) (set_time (time s + dt) s) in
  let s := fst (mapGesture rand g s) in
  set_uExpansion (uExpansion s + (targetExpansionOf g - uExpansion s) * 0.03) s.

(** Euclidean norm *)
Definition norm (x y z : R) : R := sqrt (x * x + y * y + z * z).

(** The entries of particle [i] that [update] writes: position, velocity,
    color and size. *)
Definition particle (s : ParticleSystem) (i : nat) : nvec * nvec * nvec * num :=
  (read3 (positions s) (i * 3), read3 (velocities s) (i * 3),
   read3 (colors s) (i * 3), read (sizes s) i).

(** What one tick makes of particle [i], computed from the state on which
    the loop starts. *)
Definition stepParticle (dt bx by_ : R) (s : ParticleSystem) (i : nat)
    : nvec * nvec * nvec * num :=
  let p := read3 (positions s) (i * 3) in
  let v := read3 (velocities s) (i * 3) in
  let t := read3 (targetPositions s) (i * 3) in
  let v' := damp (forced dt bx by_ p v t) in
  (integrate dt p v', v',
   recolor bx by_ p (read3 (colors s) (i * 3)) (read3 (targetColors s) (i * 3)),
   pulse (time s) i).

(** The fields that neither [setTemplate] nor [cycleColors] writes, and the
    lengths of the two buffers they write. *)
Definition sameParticles (s s' : ParticleSystem) : Prop :=
  count s' = count s /\ time s' = time s /\ uTime s' = uTime s /\
  uExpansion s' = uExpansion s /\
  positions s' = positions s /\ velocities s' = velocities s /\
  colors s' = colors s /\ sizes s' = sizes s /\
  length (targetPositions s') = length (targetPositions s) /\
  length (targetColors s') = length (targetColors s).

(** Some gesture flag is set in the snapshot passed to [update]; an absent
    snapshot has none. *)
Definition flagSet (gestures : option Gestures) : bool :=
  let g := default noGestures gestures in
  isFist g || isPinching g || isOpen g || isRock g || isPeace g || isPointing g.

(** The states of a running visualization: the constructed one, and those
    that the three operations leave, whether they complete or throw. *)
Inductive reachable (rand : nat -> R) : ParticleSystem -> Prop :=
| reach_construct (n calls : nat) :
    reachable rand (fst (construct rand n calls))
| reach_setTemplate (name : string) (s : ParticleSystem) :
    reachable rand s -> reachable rand (fst (setTemplate rand name s))
| reach_update (dt : R) (gestures : option Gestures) (s : ParticleSystem) :
    reachable rand s -> reachable rand (fst (update rand dt gestures s))
| reach_cycleColors (s : ParticleSystem) :
    reachable rand s -> reachable rand (fst (cycleColors s)).

(** ** Sample states: one particle *)

Definition single (template : string) (k : nat) (e : R)
    (p v c t tc : list num) : ParticleSystem :=
  {| count := 1; currentTemplate := template; time := 0; colorPaletteIndex := k;
     positions := p; colors := c; sizes := [Fin 0.5]; velocities := v;
     targetPositions := t; targetColors := tc; uTime := 0; uExpansion := e;
     randomCalls := 0 |}.

Definition origin : list num := [Fin 0; Fin 0; Fin 0].

(** The initial color of every particle *)
Definition blue : list num := [Fin 0.2; Fin 0.5; Fin 1.0].

(** A particle at rest at the origin, which is also its target. *)
Definition atRest : ParticleSystem := single "galaxy" 0 1 origin origin blue origin blue.

(** The same particle when the clock is one capped frame short of [PI]. *)
Definition beforePi : ParticleSystem := set_time (PI - 0.05) atRest.

(** [Math.random()] returning the same number at every call *)
Definition constant (x : R) : nat -> R := fun _ => x.

(** A particle at rest at the origin whose target is one unit away, with the
    expansion uniform at [1.5], the value it tends to under a fully spread
    hand. *)
Definition pulled : ParticleSystem :=
  single "galaxy" 0 1.5 origin origin blue [Fin 1; Fin 0; Fin 0] blue.

(** A detected hand with no gesture flag set, its pointer at [(x, y)]. *)
Definition handAt (x y : R) : Gestures :=
  {| isFist := false; isOpen := false; isPinching := false; isPointing := false;
     isRock := false; isPeace := false; pointer := Some (x, y); handSpread := 0.5;
     handDetected := true |}.

(** A particle at rest one unit from the origin; its target is the origin. *)
Definition nearby : ParticleSystem :=
  single "galaxy" 0 1 [Fin 1; Fin 0; Fin 0] origin blue origin blue.

(** The velocity of particle [i] in the tick [update dt gestures] on [s],
    after seeking and repulsion and before damping. *)
Definition preDamping (rand : nat -> R) (dt : R) (gestures : option Gestures)
    (s : ParticleSystem) (i : nat) : nvec :=
  let s1 := beforeLoop rand dt gestures s in
  let b := pointerPosition (default noGestures gestures) in
  forced dt (fst b) (snd b) (read3 (positions s1) (i * 3))
    (read3 (velocities s1) (i * 3)) (read3 (targetPositions s1) (i * 3)).

(** A run of ticks, one per input [(dt, gestures)]. *)
Fixpoint ticks (rand : nat -> R) (inputs : list (R * option Gestures))
    (s : ParticleSystem) : ParticleSystem :=
  match inputs with
  | [] => s
  | (dt, gestures) :: rest => ticks rand rest (fst (update rand dt gestures s))
  end.

(** In every tick of the run the net force on particle [i] is zero: seeking
    and repulsion together leave its velocity as the tick found it. *)
Fixpoint zeroForce (rand : nat -> R) (inputs : list (R * option Gestures))
    (s : ParticleSystem) (i : nat) : Prop :=
  match inputs with
  | [] => True
  | (dt, gestures) :: rest =>
      preDamping rand dt gestures s i = read3 (velocities s) (i * 3) /\
      zeroForce rand rest (fst (update rand dt gestures s)) i
  end.

(** A particle on its target at the origin, moving along [x] at unit speed. *)
Definition coasting : ParticleSystem :=
  single "galaxy" 0 1 origin [Fin 1; Fin 0; Fin 0] blue origin blue.

(** One particle of the galaxy after one palette cycle. *)
Definition cycledOnce : ParticleSystem :=
  single "galaxy" 1 1 origin origin blue origin blue.

(** A stored channel that is a number and at most [1]. *)
Definition atMost1 (x : num) : Prop :=
  match x with
  | Fin r => r <= 1
  | NaN => False
  end.

(** Every channel of every color and target color is at most [1]. *)
Definition colorsBounded (s : ParticleSystem) : Prop :=
  Forall atMost1 (colors s) /\ Forall atMost1 (targetColors s).

(** ** Vocabulary of the further properties *)

(** The time that a run of ticks adds to the clock. *)
Definition elapsed (inputs : list (R * option Gestures)) : R :=
  foldr (fun input acc => fst input + acc) 0 inputs.

(** The template that the gesture mapping of [update] asks for; the current
    one when no flag is set. *)
Definition requested (gestures : option Gestures) (s : ParticleSystem) : string :=
  let g := default noGestures gestures in
  if isFist g then "heart"
  else if isPinching g then "dna"
  else if isOpen g then "galaxy"
  else if isRock g then "saturn"
  else if isPeace g then "flower"
  else if isPointing g then "fireworks"
  else currentTemplate s.

(** A buffer without [NaN]. *)
Definition isFin (x : num) : Prop :=
  match x with
  | Fin _ => True
  | NaN => False
  end.

Definition finite (s : ParticleSystem) : Prop :=
  Forall isFin (positions s) /\ Forall isFin (velocities s) /\
  Forall isFin (colors s) /\ Forall isFin (sizes s) /\
  Forall isFin (targetPositions s) /\ Forall isFin (targetColors s).

(** The coordinates of a generated point. *)
Definition xOf (p : vec3) : R := fst (fst p).
Definition yOf (p : vec3) : R := snd (fst p).
Definition zOf (p : vec3) : R := snd p.

(** The five gestures that the classification of [processResults] tells
    apart, as a list of flags. *)
Definition classified (g : Gestures) : list bool :=
  [isFist g; isOpen g; isPointing g; isPeace g; isRock g].

(** A hand whose 21 landmarks all sit at one point: no finger counts as
    extended and the thumb and index tips touch. *)
Definition closedHand : list Landmark :=
  replicate 21 {| lmX := 0.5; lmY := 0.5; lmZ := 0 |}.


(** The keys of [parametric]: the names of the nine shapes. *)
Definition shapes : list string :=
  ["heart"; "flower"; "saturn"; "fireworks"; "galaxy"; "dna"; "star"; "tornado";
   "sphere"].

(** The states of the particle system that the page reaches: the
    constructor, then key presses and animation frames in any order, with
    any key, any frame time and any state of the hand tracker. *)
Inductive appReachable (rand : nat -> R) : ParticleSystem -> Prop :=
| app_construct (n calls : nat) :
    appReachable rand (fst (construct rand n calls))
| app_keydown (key : string) (s : ParticleSystem) :
    appReachable rand s -> appReachable rand (fst (keydown rand key s))
| app_animate (delta : R) (handInput : HandInput) (s : ParticleSystem) :
    appReachable rand s -> appReachable rand (fst (animate rand delta handInput s)).
(** * Properties *)

(** ** The model on small inputs *)

Example read_out_of_range : read [Fin 1] 3 = NaN.
Proof. reflexivity. Qed.

Example write_out_of_range : write [Fin 1] 3 (Fin 2) = [Fin 1].
Proof. reflexivity. Qed.

Example NaN_compares_false : nearHand NaN = false /\ nlt NaN (Fin 50) = false.
Proof. split; reflexivity. Qed.

Example lookup_shape (rand : nat -> R) :
  getMember (parametric.own rand) "heart" = Own (parametric.heart rand).
Proof. reflexivity. Qed.

Example lookup_unknown (rand : nat -> R) :
  getMember (parametric.own rand) "cube" = Undefined.
Proof. reflexivity. Qed.

Example lookup_inherited (rand : nat -> R) :
  getMember (parametric.own rand) "toString" = Inherited (ProtoFun 0 false) /\
  getMember (parametric.own rand) "__proto__" = Inherited ProtoObj.
Proof. split; reflexivity. Qed.

Example palette_fallback : paletteOf "cube" = Own SHAPE_COLORS.sphere.
Proof. reflexivity. Qed.

Example tornado_draws_nothing (k : nat) :
  snd (parametric.tornado 0.25 0.5 k) = k.
Proof. reflexivity. Qed.

Example galaxy_draws_three (rand : nat -> R) (k : nat) :
  snd (parametric.galaxy rand 0.25 0.5 k) = (3 + k)%nat.
Proof. reflexivity. Qed.

(** ** Typed arrays *)

Lemma length_write (a : list num) (i : nat) (v : num) :
  length (write a i v) = length a.
Proof. apply length_insert. Qed.

Lemma read_write_eq (a : list num) (i : nat) (v : num) :
  (i < length a)%nat -> read (write a i v) i = v.
Proof.
  intros Hi. unfold read, write.
  now rewrite list_lookup_insert_eq.
Qed.

Lemma read_write_ne (a : list num) (i j : nat) (v : num) :
  i <> j -> read (write a i v) j = read a j.
Proof.
  intros Hij. unfold read, write.
  now rewrite list_lookup_insert_ne.
Qed.

(** Reads of written arrays, innermost index conditions by [lia]. *)
Ltac simpl_reads :=
  repeat first
    [ rewrite read_write_eq by (rewrite ?length_write; lia)
    | rewrite read_write_ne by lia ].

Lemma length_write3 (a : list num) (i3 : nat) (v : nvec) :
  length (write3 a i3 v) = length a.
Proof.
  destruct v as [[x y] z]. unfold write3.
  now rewrite !length_write.
Qed.

Lemma read3_write3_eq (a : list num) (i3 : nat) (v : nvec) :
  (i3 + 2 < length a)%nat -> read3 (write3 a i3 v) i3 = v.
Proof.
  intros Hi. destruct v as [[x y] z]. unfold read3, write3.
  rewrite read_write_eq by (rewrite !length_write; lia).
  rewrite (read_write_ne _ (i3 + 2) (i3 + 1)) by lia.
  rewrite read_write_eq by (rewrite !length_write; lia).
  rewrite (read_write_ne _ (i3 + 2) i3) by lia.
  rewrite (read_write_ne _ (i3 + 1) i3) by lia.
  rewrite read_write_eq by lia.
  reflexivity.
Qed.

Lemma read_write3_other (a : list num) (i3 j : nat) (v : nvec) :
  (j < i3 \/ i3 + 2 < j)%nat -> read (write3 a i3 v) j = read a j.
Proof.
  intros Hj. destruct v as [[x y] z]. unfold write3.
  rewrite !read_write_ne by lia. reflexivity.
Qed.

Lemma read3_write3_other (a : list num) (i j : nat) (v : nvec) :
  i <> j -> read3 (write3 a (i * 3) v) (j * 3) = read3 a (j * 3).
Proof.
  intros Hij. unfold read3.
  rewrite !read_write3_other by lia. reflexivity.
Qed.

(** ** Loops *)

(** The rule of the [for] loop for a body that does not throw. *)
Lemma forLoop_inv {S : Type} (body : nat -> S -> S * completion)
    (Inv : nat -> S -> Prop) (n : nat) :
  forall (i : nat) (s : S),
    (forall j t, (i <= j < i + n)%nat -> Inv j t ->
       snd (body j t) = Normal /\ Inv (Datatypes.S j) (fst (body j t))) ->
    Inv i s ->
    snd (forLoop body i n s) = Normal /\ Inv (i + n)%nat (fst (forLoop body i n s)).
Proof.
  induction n as [| n IH]; intros i s Hbody Hs; simpl.
  - rewrite Nat.add_0_r. auto.
  - destruct (Hbody i s ltac:(lia) Hs) as [Hc Hi].
    destruct (body i s) as [s' c]; simpl in Hc, Hi; subst c.
    replace (i + Datatypes.S n)%nat with (Datatypes.S i + n)%nat by lia.
    apply IH; [| exact Hi].
    intros j t Hj. apply Hbody. lia.
Qed.

(** A map of the state that every iteration commutes with commutes with the
    loop. *)
Lemma forLoop_commute {S : Type} (body : nat -> S -> S * completion)
    (h : S -> S) (n : nat) :
  (forall j t, body j (h t) = (h (fst (body j t)), snd (body j t))) ->
  forall (i : nat) (s : S),
    forLoop body i n (h s) = (h (fst (forLoop body i n s)), snd (forLoop body i n s)).
Proof.
  intros Hbody. induction n as [| n IH]; intros i s; simpl; [reflexivity |].
  rewrite Hbody. destruct (body i s) as [s' [| e]]; simpl; [apply IH | reflexivity].
Qed.

(** A property kept by every iteration, thrown or not, is kept by the loop. *)
Lemma forLoop_preserve {S : Type} (body : nat -> S -> S * completion)
    (P : S -> Prop) (n : nat) :
  forall (i : nat) (s : S),
    (forall j t, P t -> P (fst (body j t))) ->
    P s -> P (fst (forLoop body i n s)).
Proof.
  induction n as [| n IH]; intros i s Hbody Hs; simpl; [exact Hs |].
  specialize (Hbody i s Hs) as Hi.
  destruct (body i s) as [s' [| e]]; simpl in Hi; [| exact Hi].
  apply IH; assumption.
Qed.

(** ** The per-particle update *)

Lemma updateParticle_frame (dt bx by_ : R) (i : nat) (s : ParticleSystem) :
  let s' := updateParticle dt bx by_ i s in
  count s' = count s /\ currentTemplate s' = currentTemplate s /\
  time s' = time s /\ colorPaletteIndex s' = colorPaletteIndex s /\
  targetPositions s' = targetPositions s /\ targetColors s' = targetColors s /\
  uTime s' = uTime s /\ uExpansion s' = uExpansion s /\
  randomCalls s' = randomCalls s.
Proof.
  unfold updateParticle.
  destruct (nearHand _); simpl; repeat split; reflexivity.
Qed.

Lemma updateParticle_wellFormed (dt bx by_ : R) (i : nat) (s : ParticleSystem) :
  wellFormed s -> wellFormed (updateParticle dt bx by_ i s).
Proof.
  unfold wellFormed, updateParticle. intros (Hp & Hv & Hc & Ht & Htc & Hs).
  destruct (nearHand _); simpl;
    rewrite ?length_write3, ?length_write; repeat split; assumption.
Qed.

Lemma updateParticle_self (dt bx by_ : R) (i : nat) (s : ParticleSystem) :
  wellFormed s -> (i < count s)%nat ->
  particle (updateParticle dt bx by_ i s) i = stepParticle dt bx by_ s i.
Proof.
  intros (Hp & Hv & Hc & Ht & Htc & Hs) Hi.
  unfold particle, stepParticle, updateParticle, forced, repulsed, recolor.
  set (p := read3 (positions s) (i * 3)).
  set (v1 := seek dt p _ _).
  set (d := offset bx by_ p).
  destruct (nearHand (distSqOf d)); simpl.
  - rewrite !read3_write3_eq by lia.
    rewrite read_write_eq by lia.
    destruct (read3 (colors s) (i * 3)) as [[c0 c1] c2] eqn:Ec.
    destruct (read3 (targetColors s) (i * 3)) as [[t0 t1] t2] eqn:Et.
    unfold read3 in *. simpl_reads. now inversion Ec; inversion Et.
  - rewrite !read3_write3_eq by lia.
    rewrite read_write_eq by lia.
    destruct (read3 (colors s) (i * 3)) as [[c0 c1] c2] eqn:Ec.
    destruct (read3 (targetColors s) (i * 3)) as [[t0 t1] t2] eqn:Et.
    unfold read3 in *. simpl_reads. now inversion Ec; inversion Et.
Qed.

Lemma updateParticle_other (dt bx by_ : R) (i j : nat) (s : ParticleSystem) :
  i <> j -> particle (updateParticle dt bx by_ i s) j = particle s j.
Proof.
  intros Hij. unfold particle, updateParticle.
  destruct (nearHand _); simpl;
    rewrite !read3_write3_other by assumption;
    unfold read3; simpl_reads; reflexivity.
Qed.

Lemma stepParticle_ext (dt bx by_ : R) (s t : ParticleSystem) (i : nat) :
  particle t i = particle s i ->
  targetPositions t = targetPositions s -> targetColors t = targetColors s ->
  time t = time s ->
  stepParticle dt bx by_ t i = stepParticle dt bx by_ s i.
Proof.
  unfold particle, stepParticle. intros Hp Ht Htc Htime.
  assert (Hpos : read3 (positions t) (i * 3) = read3 (positions s) (i * 3))
    by congruence.
  assert (Hvel : read3 (velocities t) (i * 3) = read3 (velocities s) (i * 3))
    by congruence.
  assert (Hcol : read3 (colors t) (i * 3) = read3 (colors s) (i * 3))
    by congruence.
  now rewrite Hpos, Hvel, Hcol, Ht, Htc, Htime.
Qed.

(** The loop of [update]: it does not throw, every particle is stepped once
    from the state on which the loop starts, and nothing else changes. *)
Lemma updateLoop_spec (dt bx by_ : R) (s : ParticleSystem) :
  wellFormed s ->
  let r := forLoop (fun i t => (updateParticle dt bx by_ i t, Normal)) 0 (count s) s in
  snd r = Normal /\ wellFormed (fst r) /\
  (forall i, (i < count s)%nat -> particle (fst r) i = stepParticle dt bx by_ s i).
Proof.
  intros Hwf r.
  pose (Inv := fun (j : nat) (t : ParticleSystem) =>
    wellFormed t /\ count t = count s /\ time t = time s /\
    targetPositions t = targetPositions s /\ targetColors t = targetColors s /\
    (forall m, (m < j)%nat -> particle t m = stepParticle dt bx by_ s m) /\
    (forall m, (j <= m)%nat -> particle t m = particle s m)).
  destruct (forLoop_inv (fun i t => (updateParticle dt bx by_ i t, Normal)) Inv
              (count s) 0 s) as [Hc HI].
  - intros j t Hj (Hwt & Hcount & Htime & Htp & Htc & Hdone & Htodo).
    split; [reflexivity |]. simpl.
    destruct (updateParticle_frame dt bx by_ j t)
      as (Fc & _ & Ft & _ & Ftp & Ftc & _).
    unfold Inv. rewrite Fc, Ft, Ftp, Ftc.
    split; [now apply updateParticle_wellFormed |].
    repeat (split; [assumption |]).
    split.
    + intros m Hm. destruct (Nat.eq_dec m j) as [-> | Hne].
      * rewrite updateParticle_self by (auto; lia).
        apply stepParticle_ext; auto.
      * rewrite updateParticle_other by auto. apply Hdone. lia.
    + intros m Hm. rewrite updateParticle_other by lia. apply Htodo. lia.
  - unfold Inv. split; [assumption |]. do 4 (split; [reflexivity |]).
    split; [intros m Hm; lia | reflexivity].
  - destruct HI as (Hwt & _ & _ & _ & _ & Hdone & _).
    split; [exact Hc | split; [exact Hwt | exact Hdone]].
Qed.

(** The loop of [update] writes neither the template nor a target buffer. *)
Lemma updateLoop_frame (dt bx by_ : R) (n i : nat) (s : ParticleSystem) :
  let s' := fst (forLoop (fun i t => (updateParticle dt bx by_ i t, Normal)) i n s) in
  count s' = count s /\ currentTemplate s' = currentTemplate s /\
  time s' = time s /\ colorPaletteIndex s' = colorPaletteIndex s /\
  targetPositions s' = targetPositions s /\ targetColors s' = targetColors s /\
  uTime s' = uTime s /\ uExpansion s' = uExpansion s /\
  randomCalls s' = randomCalls s.
Proof.
  apply (forLoop_preserve _ (fun t =>
    count t = count s /\ currentTemplate t = currentTemplate s /\
    time t = time s /\ colorPaletteIndex t = colorPaletteIndex s /\
    targetPositions t = targetPositions s /\ targetColors t = targetColors s /\
    uTime t = uTime s /\ uExpansion t = uExpansion s /\
    randomCalls t = randomCalls s)).
  - intros j t (H1 & H2 & H3 & H4 & H5 & H6 & H7 & H8 & H9). simpl.
    destruct (updateParticle_frame dt bx by_ j t)
      as (F1 & F2 & F3 & F4 & F5 & F6 & F7 & F8 & F9).
    repeat split; congruence.
  - repeat split; reflexivity.
Qed.

(** ** setTemplate *)

Lemma sameParticles_refl (s : ParticleSystem) : sameParticles s s.
Proof. unfold sameParticles. repeat split; reflexivity. Qed.

Lemma sameParticles_trans (s t u : ParticleSystem) :
  sameParticles s t -> sameParticles t u -> sameParticles s u.
Proof.
  unfold sameParticles.
  intros (A1 & A2 & A3 & A4 & A5 & A6 & A7 & A8 & A9 & A10)
         (B1 & B2 & B3 & B4 & B5 & B6 & B7 & B8 & B9 & B10).
  repeat split; congruence.
Qed.

Lemma sameParticles_wellFormed (s s' : ParticleSystem) :
  sameParticles s s' -> wellFormed s -> wellFormed s'.
Proof.
  unfold sameParticles, wellFormed.
  intros (A1 & A2 & A3 & A4 & A5 & A6 & A7 & A8 & A9 & A10)
         (W1 & W2 & W3 & W4 & W5 & W6).
  rewrite A1, A5, A6, A7, A8, A9, A10. repeat split; assumption.
Qed.

Section setTemplate_facts.

Variable rand : nat -> R.

Lemma seedParticle_sameParticles (gen : member (R -> R -> Rand vec3))
    (palette : member (list color)) (i : nat) (dummy : vec3) (s : ParticleSystem) :
  let st' := fst (seedParticle rand gen palette i (dummy, s)) in
  sameParticles s (snd st') /\ currentTemplate (snd st') = currentTemplate s /\
  colorPaletteIndex (snd st') = colorPaletteIndex s.
Proof.
  unfold seedParticle, callGenerator, nextRandom; simpl.
  destruct dummy as [[x0 y0] z0].
  destruct gen as [| f | [a [|] |]]; simpl;
    try destruct (f _ _ _) as [[[x y] z] k]; simpl;
    try destruct (paletteAt palette i) as [[[c0 c1] c2] |]; simpl;
    unfold sameParticles; simpl; rewrite ?length_write;
    repeat split; reflexivity.
Qed.

Lemma setTemplate_sameParticles (name : string) (s : ParticleSystem) :
  sameParticles s (fst (setTemplate rand name s)) /\
  colorPaletteIndex (fst (setTemplate rand name s)) = colorPaletteIndex s.
Proof.
  unfold setTemplate.
  destruct (truthy _); simpl; [| split; [apply sameParticles_refl | reflexivity]].
  match goal with
  | |- context [forLoop ?b ?i ?n ?st] =>
      pose proof (forLoop_preserve b
        (fun st' => sameParticles s (snd st') /\
                    colorPaletteIndex (snd st') = colorPaletteIndex s) n i st) as H
  end.
  simpl in H.
  match type of H with
  | _ -> _ -> ?C => assert (HC : C); [apply H |]
  end.
  - intros j [d t] [Hs Hk].
    destruct (seedParticle_sameParticles
                (getMember (parametric.own rand) name) (paletteOf name) j d t)
      as (Hs' & _ & Hk').
    simpl in *. split; [eapply sameParticles_trans; eassumption | congruence].
  - split; [| reflexivity]. unfold sameParticles; simpl. repeat split; reflexivity.
  - destruct (forLoop _ _ _ _) as [[d t] c]. exact HC.
Qed.

Lemma setTemplate_wellFormed (name : string) (s : ParticleSystem) :
  wellFormed s -> wellFormed (fst (setTemplate rand name s)).
Proof.
  apply sameParticles_wellFormed, setTemplate_sameParticles.
Qed.

End setTemplate_facts.

Section update_facts.

Variable rand : nat -> R.

Lemma own_palette (name : string) (f : R -> R -> Rand vec3) :
  parametric.own rand name = Some f ->
  exists pal, SHAPE_COLORS.own name = Some pal /\ length pal = 4%nat.
Proof.
  unfold parametric.own, SHAPE_COLORS.own.
  repeat (destruct (String.eqb name _); [intros _; eexists; split; reflexivity |]).
  discriminate.
Qed.

Lemma paletteAt_own (pal : list color) (k : nat) :
  length pal = 4%nat -> exists c, paletteAt (Own pal) k = Some c.
Proof.
  intros Hlen. simpl.
  destruct (pal !! (k mod length pal)%nat) as [c |] eqn:E; [eauto |].
  apply lookup_ge_None in E.
  pose proof (Nat.mod_upper_bound k (length pal)). lia.
Qed.

Lemma seedParticle_own_normal (f : R -> R -> Rand vec3) (pal : list color)
    (i : nat) (st : vec3 * ParticleSystem) :
  length pal = 4%nat -> snd (seedParticle rand (Own f) (Own pal) i st) = Normal.
Proof.
  intros Hlen. destruct st as [[[x0 y0] z0] s].
  destruct (paletteAt_own pal i Hlen) as [[[c0 c1] c2] Hc].
  unfold seedParticle, callGenerator, nextRandom; simpl in *.
  destruct (f _ _ _) as [[[x y] z] k]; simpl.
  now rewrite Hc.
Qed.

(** A recognized shape name: the guard passes, the loop runs to its end and
    the template is the one asked for. *)
Lemma setTemplate_own (name : string) (f : R -> R -> Rand vec3) (s : ParticleSystem) :
  parametric.own rand name = Some f ->
  snd (setTemplate rand name s) = Normal /\
  currentTemplate (fst (setTemplate rand name s)) = name.
Proof.
  intros Hown. destruct (own_palette name f Hown) as (pal & Hpal & Hlen).
  unfold setTemplate, paletteOf, getMember. rewrite Hown, Hpal. simpl.
  match goal with
  | |- context [forLoop ?b ?i ?n ?st] =>
      destruct (forLoop_inv b
        (fun _ st' => currentTemplate (snd st') = name) n i st) as [Hc Hn]
  end.
  - intros j t _ Ht. split; [now apply seedParticle_own_normal |].
    destruct t as [d t].
    destruct (seedParticle_sameParticles rand (Own f) (Own pal) j d t)
      as (_ & Hcur & _).
    simpl in *. congruence.
  - reflexivity.
  - destruct (forLoop _ _ _ _) as [[d t] c]. simpl in *. auto.
Qed.

Lemma switchTo_own (name : string) (f : R -> R -> Rand vec3) (s : ParticleSystem) :
  parametric.own rand name = Some f ->
  snd (switchTo rand name s) = Normal /\
  currentTemplate (fst (switchTo rand name s)) = name.
Proof.
  intros Hown. unfold switchTo.
  destruct (String.eqb (currentTemplate s) name) eqn:E; simpl.
  - apply String.eqb_eq in E. auto.
  - now apply setTemplate_own with f.
Qed.

Lemma switchTo_sameParticles (name : string) (s : ParticleSystem) :
  sameParticles s (fst (switchTo rand name s)) /\
  colorPaletteIndex (fst (switchTo rand name s)) = colorPaletteIndex s.
Proof.
  unfold switchTo. destruct (negb _).
  - apply setTemplate_sameParticles.
  - split; [apply sameParticles_refl | reflexivity].
Qed.

(** The template that the gesture mapping leaves. *)
Lemma mapGesture_spec (g : Gestures) (s : ParticleSystem) :
  snd (mapGesture rand g s) = Normal /\
  currentTemplate (fst (mapGesture rand g s)) =
    (if isFist g then "heart"
     else if isPinching g then "dna"
     else if isOpen g then "galaxy"
     else if isRock g then "saturn"
     else if isPeace g then "flower"
     else if isPointing g then "fireworks"
     else currentTemplate s).
Proof.
  unfold mapGesture.
  destruct (isFist g); [eapply switchTo_own; reflexivity |].
  destruct (isPinching g); [eapply switchTo_own; reflexivity |].
  destruct (isOpen g); [eapply switchTo_own; reflexivity |].
  destruct (isRock g); [eapply switchTo_own; reflexivity |].
  destruct (isPeace g); [eapply switchTo_own; reflexivity |].
  destruct (isPointing g); [eapply switchTo_own; reflexivity |].
  auto.
Qed.

Lemma mapGesture_sameParticles (g : Gestures) (s : ParticleSystem) :
  sameParticles s (fst (mapGesture rand g s)) /\
  colorPaletteIndex (fst (mapGesture rand g s)) = colorPaletteIndex s.
Proof.
  unfold mapGesture.
  repeat (match goal with |- context [if ?b then _ else _] => destruct b end;
          [apply switchTo_sameParticles |]).
  split; [apply sameParticles_refl | reflexivity].
Qed.

(** [update] is the loop run on [beforeLoop]; it does not throw. *)
Lemma update_loop (dt : R) (gestures : option Gestures) (s : ParticleSystem) :
  update rand dt gestures s =
    forLoop (fun i t =>
               (updateParticle dt (fst (pointerPosition (default noGestures gestures)))
                  (snd (pointerPosition (default noGestures gestures))) i t, Normal))
      0 (count (beforeLoop rand dt gestures s)) (beforeLoop rand dt gestures s).
Proof.
  unfold update, beforeLoop. cbv zeta.
  change (set_uTime (time (set_time (time s + dt) s)) (set_time (time s + dt) s))
    with (set_uTime (time s + dt) (set_time (time s + dt) s)).
  set (g := default noGestures gestures).
  set (s1 := set_uTime _ _).
  destruct (mapGesture_spec g s1) as [Hn _].
  destruct (mapGesture rand g s1) as [s2 c]. simpl in Hn. subst c. simpl.
  destruct (pointerPosition g) as [bx by_]. reflexivity.
Qed.

Lemma beforeLoop_sameParticles (dt : R) (gestures : option Gestures) (s : ParticleSystem) :
  let s1 := beforeLoop rand dt gestures s in
  count s1 = count s /\ time s1 = time s + dt /\
  positions s1 = positions s /\ velocities s1 = velocities s /\
  colors s1 = colors s /\ sizes s1 = sizes s /\
  (wellFormed s -> wellFormed s1).
Proof.
  unfold beforeLoop.
  set (g := default noGestures gestures).
  set (s1 := set_uTime _ _).
  destruct (mapGesture_sameParticles g s1)
    as ((A1 & A2 & A3 & A4 & A5 & A6 & A7 & A8 & A9 & A10) & _).
  simpl. do 6 (split; [etransitivity; [eassumption | reflexivity] |]).
  intros Hwf.
  assert (Hwf1 : wellFormed s1) by exact Hwf.
  assert (Hwf2 : wellFormed (fst (mapGesture rand g s1)))
    by (eapply sameParticles_wellFormed; [apply mapGesture_sameParticles | exact Hwf1]).
  exact Hwf2.
Qed.

End update_facts.

(** One tick, particle by particle. *)
Lemma update_particle (rand : nat -> R) (dt : R) (gestures : option Gestures)
    (s : ParticleSystem) :
  wellFormed s ->
  let s' := fst (update rand dt gestures s) in
  let s1 := beforeLoop rand dt gestures s in
  let b := pointerPosition (default noGestures gestures) in
  snd (update rand dt gestures s) = Normal /\ wellFormed s' /\
  (forall i, (i < count s)%nat -> particle s' i = stepParticle dt (fst b) (snd b) s1 i).
Proof.
  intros Hwf. cbv zeta. rewrite update_loop.
  destruct (beforeLoop_sameParticles rand dt gestures s) as (Hc & _ & _ & _ & _ & _ & Hwf1).
  rewrite <- Hc. apply updateLoop_spec. auto.
Qed.

(** One tick leaves the template and the targets as the gesture mapping
    left them. *)
Lemma update_frame (rand : nat -> R) (dt : R) (gestures : option Gestures)
    (s : ParticleSystem) :
  let s' := fst (update rand dt gestures s) in
  let s1 := beforeLoop rand dt gestures s in
  count s' = count s /\ currentTemplate s' = currentTemplate s1 /\
  time s' = time s + dt /\
  targetPositions s' = targetPositions s1 /\ targetColors s' = targetColors s1.
Proof.
  cbv zeta. rewrite update_loop.
  destruct (updateLoop_frame dt
              (fst (pointerPosition (default noGestures gestures)))
              (snd (pointerPosition (default noGestures gestures)))
              (count (beforeLoop rand dt gestures s)) 0
              (beforeLoop rand dt gestures s))
    as (F1 & F2 & F3 & _ & F5 & F6 & _).
  destruct (beforeLoop_sameParticles rand dt gestures s) as (Hc & Ht & _).
  repeat split; congruence.
Qed.

(** The size that a tick gives to particle [i]. *)
Lemma update_size (rand : nat -> R) (dt : R) (gestures : option Gestures)
    (s : ParticleSystem) (i : nat) :
  wellFormed s -> (i < count s)%nat ->
  read (sizes (fst (update rand dt gestures s))) i = pulse (time s + dt) i.
Proof.
  intros Hwf Hi.
  destruct (update_particle rand dt gestures s Hwf) as (_ & _ & Hp).
  specialize (Hp i Hi). unfold particle, stepParticle in Hp.
  destruct (beforeLoop_sameParticles rand dt gestures s) as (_ & Ht & _).
  rewrite Ht in Hp. congruence.
Qed.

(** ** The expansion uniform *)

Section expansion.

Variable rand : nat -> R.
Variable e : R.

Lemma seedParticle_expansion (gen : member (R -> R -> Rand vec3))
    (palette : member (list color)) (i : nat) (st : vec3 * ParticleSystem) :
  seedParticle rand gen palette i (fst st, set_uExpansion e (snd st)) =
    ((fst (fst (seedParticle rand gen palette i st)),
      set_uExpansion e (snd (fst (seedParticle rand gen palette i st)))),
     snd (seedParticle rand gen palette i st)).
Proof.
  destruct st as [[[x0 y0] z0] s].
  unfold seedParticle, callGenerator, nextRandom; simpl.
  destruct gen as [| f | [a [|] |]]; simpl;
    try destruct (f _ _ _) as [[[x y] z] k]; simpl;
    try destruct (paletteAt palette i) as [[[c0 c1] c2] |]; reflexivity.
Qed.

Lemma setTemplate_expansion (name : string) (s : ParticleSystem) :
  setTemplate rand name (set_uExpansion e s) =
    (set_uExpansion e (fst (setTemplate rand name s)), snd (setTemplate rand name s)).
Proof.
  unfold setTemplate. destruct (negb _); [reflexivity |].
  change (count (set_currentTemplate name (set_uExpansion e s)))
    with (count (set_currentTemplate name s)).
  change (0, 0, 0, set_currentTemplate name (set_uExpansion e s))
    with ((fun st : vec3 * ParticleSystem => (fst st, set_uExpansion e (snd st)))
            (0, 0, 0, set_currentTemplate name s)).
  rewrite forLoop_commute by (intros j t; apply seedParticle_expansion).
  destruct (forLoop _ _ _ _) as [[d t] c]. reflexivity.
Qed.

Lemma mapGesture_expansion (g : Gestures) (s : ParticleSystem) :
  mapGesture rand g (set_uExpansion e s) =
    (set_uExpansion e (fst (mapGesture rand g s)), snd (mapGesture rand g s)).
Proof.
  unfold mapGesture, switchTo.
  change (currentTemplate (set_uExpansion e s)) with (currentTemplate s).
  repeat (match goal with |- context [if ?b then _ else _] => destruct b end;
          try apply setTemplate_expansion; try reflexivity).
Qed.

(** The expansion factor is smoothed and stored; nothing else of the state
    after a tick depends on it. *)
Lemma update_expansion (dt : R) (gestures : option Gestures) (s : ParticleSystem) :
  fst (update rand dt gestures (set_uExpansion e s)) =
    set_uExpansion (e + (targetExpansionOf (default noGestures gestures) - e) * 0.03)
      (fst (update rand dt gestures s)).
Proof.
  rewrite !update_loop. unfold beforeLoop.
  set (g := default noGestures gestures).
  change (set_uTime (time (set_uExpansion e s) + dt)
            (set_time (time (set_uExpansion e s) + dt) (set_uExpansion e s)))
    with (set_uExpansion e (set_uTime (time s + dt) (set_time (time s + dt) s))).
  rewrite mapGesture_expansion. cbn [fst].
  set (s2 := fst (mapGesture rand g _)).
  set (e' := e + (targetExpansionOf g - e) * 0.03).
  change (set_uExpansion (uExpansion (set_uExpansion e s2) +
            (targetExpansionOf g - uExpansion (set_uExpansion e s2)) * 0.03)
            (set_uExpansion e s2))
    with (set_uExpansion e'
            (set_uExpansion (uExpansion s2 + (targetExpansionOf g - uExpansion s2) * 0.03) s2)).
  set (s3 := set_uExpansion (uExpansion s2 + _) s2).
  change (count (set_uExpansion e' s3)) with (count s3).
  rewrite forLoop_commute; [reflexivity |].
  intros j t. simpl. f_equal.
  unfold updateParticle. destruct (nearHand _); reflexivity.
Qed.

End expansion.

(** ** One tick, read at a particle *)

Lemma update_step (rand : nat -> R) (dt : R) (gestures : option Gestures)
    (s : ParticleSystem) (i : nat) :
  wellFormed s -> (i < count s)%nat ->
  let s' := fst (update rand dt gestures s) in
  let b := pointerPosition (default noGestures gestures) in
  let p := read3 (positions s) (i * 3) in
  let v := read3 (velocities s) (i * 3) in
  let t := read3 (targetPositions s') (i * 3) in
  read3 (velocities s') (i * 3) = damp (forced dt (fst b) (snd b) p v t) /\
  read3 (positions s') (i * 3) = integrate dt p (damp (forced dt (fst b) (snd b) p v t)) /\
  read3 (colors s') (i * 3) =
    recolor (fst b) (snd b) p (read3 (colors s) (i * 3))
      (read3 (targetColors s') (i * 3)).
Proof.
  intros Hwf Hi. cbv zeta.
  destruct (update_particle rand dt gestures s Hwf) as (_ & _ & Hp).
  specialize (Hp i Hi). unfold particle, stepParticle in Hp.
  destruct (update_frame rand dt gestures s) as (_ & _ & _ & Htp & Htc).
  destruct (beforeLoop_sameParticles rand dt gestures s)
    as (_ & _ & Hpos & Hvel & Hcol & _).
  rewrite Htp, Htc. rewrite Hpos, Hvel, Hcol in Hp.
  repeat split; congruence.
Qed.

Lemma seek_valid (dt : R) (px py pz vx vy vz tx ty tz : num) :
  isNaN tx = false ->
  seek dt (px, py, pz) (vx, vy, vz) (tx, ty, tz) =
    (vx + (tx - px) * Fin 2.5 * Fin dt,
     vy + (ty - py) * Fin 2.5 * Fin dt,
     vz + (tz - pz) * Fin 2.5 * Fin dt)%num.
Proof. intros H. unfold seek. now rewrite H. Qed.

Lemma nlt_Fin (x y : R) : nlt (Fin x) (Fin y) = true <-> x < y.
Proof.
  unfold nlt. destruct (Rlt_dec x y); split; intros H; auto; discriminate.
Qed.

Lemma nearHand_Fin (x : R) : nearHand (Fin x) = true <-> 0.01 < x < 50.
Proof.
  unfold nearHand. rewrite andb_true_iff, !nlt_Fin. tauto.
Qed.

Lemma nearHand_Fin_false (x : R) : ~ (0.01 < x < 50) -> nearHand (Fin x) = false.
Proof.
  intros H. destruct (nearHand (Fin x)) eqn:E; [| reflexivity].
  apply nearHand_Fin in E. contradiction.
Qed.

Lemma distSqOf_Fin (bx by_ px py pz : R) :
  distSqOf (offset bx by_ (Fin px, Fin py, Fin pz)) =
    Fin ((bx - px) * (bx - px) + (by_ - py) * (by_ - py) + (0 - pz) * (0 - pz)).
Proof. reflexivity. Qed.

Lemma wellFormed_single (template : string) (k : nat) (e : R) (p v c t tc : list num) :
  length p = 3%nat -> length v = 3%nat -> length c = 3%nat ->
  length t = 3%nat -> length tc = 3%nat ->
  wellFormed (single template k e p v c t tc).
Proof.
  intros. unfold wellFormed. simpl. repeat split; try assumption; reflexivity.
Qed.

(** Without a gesture flag the tick keeps the template and the targets. *)
Lemma update_no_flag (rand : nat -> R) (dt : R) (gestures : option Gestures)
    (s : ParticleSystem) :
  flagSet gestures = false ->
  currentTemplate (fst (update rand dt gestures s)) = currentTemplate s /\
  targetPositions (fst (update rand dt gestures s)) = targetPositions s /\
  targetColors (fst (update rand dt gestures s)) = targetColors s.
Proof.
  intros Hflags.
  destruct (update_frame rand dt gestures s) as (_ & Hcur & _ & Htp & Htc).
  rewrite Hcur, Htp, Htc. unfold beforeLoop, mapGesture.
  unfold flagSet in Hflags.
  destruct (isFist _); [discriminate |].
  destruct (isPinching _); [discriminate |].
  destruct (isOpen _); [discriminate |].
  destruct (isRock _); [discriminate |].
  destruct (isPeace _); [discriminate |].
  destruct (isPointing _); [discriminate |].
  repeat split; reflexivity.
Qed.

(** ** Repulsion on a finite position *)

Lemma repel_Fin (dt dx dy dz q : R) (ux uy uz : num) :
  0 < q ->
  repel dt (Fin dx, Fin dy, Fin dz) (Fin q) (ux, uy, uz) =
    (ux + Fin (- dx / sqrt q * ((7 - sqrt q) * 3.0) * (dt * 6)),
     uy + Fin (- dy / sqrt q * ((7 - sqrt q) * 3.0) * (dt * 6)),
     uz + Fin (- dz / sqrt q * ((7 - sqrt q) * 3.0) * (dt * 6)))%num.
Proof.
  intros Hq. pose proof (sqrt_lt_R0 q Hq) as Hs.
  unfold repel, nsqrt.
  destruct (Rlt_dec q 0) as [Hneg | _]; [lra |].
  unfold ndiv. destruct (Req_dec_T (sqrt q) 0) as [Hz | Hnz]; [lra |].
  destruct ux as [| ux], uy as [| uy], uz as [| uz]; simpl;
    repeat f_equal; field; assumption.
Qed.

(** ** Damping *)

Lemma update_velocity (rand : nat -> R) (dt : R) (gestures : option Gestures)
    (s : ParticleSystem) (i : nat) :
  wellFormed s -> (i < count s)%nat ->
  read3 (velocities (fst (update rand dt gestures s))) (i * 3) =
    damp (preDamping rand dt gestures s i).
Proof.
  intros Hwf Hi.
  destruct (update_particle rand dt gestures s Hwf) as (_ & _ & Hp).
  specialize (Hp i Hi). unfold particle, stepParticle in Hp.
  unfold preDamping. congruence.
Qed.

Lemma norm_scale (x y z k : R) :
  0 <= k -> norm (x * k) (y * k) (z * k) = norm x y z * k.
Proof.
  intros Hk. unfold norm.
  replace (x * k * (x * k) + y * k * (y * k) + z * k * (z * k))
    with ((x * x + y * y + z * z) * (k * k)) by ring.
  rewrite sqrt_mult by nra.
  now rewrite sqrt_square.
Qed.

Lemma zeroForce_decay (rand : nat -> R) (inputs : list (R * option Gestures)) :
  forall (s : ParticleSystem) (i : nat) (vx vy vz : R),
    wellFormed s -> (i < count s)%nat ->
    read3 (velocities s) (i * 3) = (Fin vx, Fin vy, Fin vz) ->
    zeroForce rand inputs s i ->
    read3 (velocities (ticks rand inputs s)) (i * 3) =
      (Fin (vx * 0.88 ^ length inputs), Fin (vy * 0.88 ^ length inputs),
       Fin (vz * 0.88 ^ length inputs)).
Proof.
  induction inputs as [| [dt g] rest IH]; intros s i vx vy vz Hwf Hi Hv Hz.
  - simpl. rewrite Hv. now rewrite !Rmult_1_r.
  - destruct Hz as [Hnow Hrest]. simpl ticks.
    destruct (update_particle rand dt g s Hwf) as (_ & Hwf' & _).
    destruct (update_frame rand dt g s) as (Hcount & _).
    rewrite (IH _ i (vx * 0.88) (vy * 0.88) (vz * 0.88)); auto.
    + simpl length. simpl pow.
      now replace (vx * 0.88 * 0.88 ^ length rest)
        with (vx * (0.88 * 0.88 ^ length rest)) by ring;
      replace (vy * 0.88 * 0.88 ^ length rest)
        with (vy * (0.88 * 0.88 ^ length rest)) by ring;
      replace (vz * 0.88 * 0.88 ^ length rest)
        with (vz * (0.88 * 0.88 ^ length rest)) by ring.
    + rewrite Hcount. exact Hi.
    + rewrite update_velocity by assumption.
      rewrite Hnow, Hv. reflexivity.
Qed.

Lemma preDamping_no_flag (rand : nat -> R) (dt : R) (gestures : option Gestures)
    (s : ParticleSystem) (i : nat) :
  flagSet gestures = false ->
  preDamping rand dt gestures s i =
    forced dt (fst (pointerPosition (default noGestures gestures)))
      (snd (pointerPosition (default noGestures gestures)))
      (read3 (positions s) (i * 3)) (read3 (velocities s) (i * 3))
      (read3 (targetPositions s) (i * 3)).
Proof.
  intros Hflags. unfold preDamping.
  destruct (beforeLoop_sameParticles rand dt gestures s)
    as (_ & _ & Hpos & Hvel & _).
  destruct (update_no_flag rand dt gestures s Hflags) as (_ & Htp & _).
  destruct (update_frame rand dt gestures s) as (_ & _ & _ & Htp1 & _).
  rewrite Hpos, Hvel. congruence.
Qed.

(** No seek displacement and no repulsion: the velocity is left alone. *)
Lemma forced_zero (dt bx by_ px py pz vx vy vz tx ty tz : R) :
  (tx - px) * dt = 0 -> (ty - py) * dt = 0 -> (tz - pz) * dt = 0 ->
  ~ 0.01 < (bx - px) * (bx - px) + (by_ - py) * (by_ - py) + (0 - pz) * (0 - pz) < 50 ->
  forced dt bx by_ (Fin px, Fin py, Fin pz) (Fin vx, Fin vy, Fin vz)
    (Fin tx, Fin ty, Fin tz) = (Fin vx, Fin vy, Fin vz).
Proof.
  intros Hx Hy Hz Hfar. unfold forced, repulsed.
  rewrite distSqOf_Fin, nearHand_Fin_false by exact Hfar.
  rewrite seek_valid by reflexivity. simpl.
  replace (vx + (tx - px) * 2.5 * dt) with vx by nra.
  replace (vy + (ty - py) * 2.5 * dt) with vy by nra.
  replace (vz + (tz - pz) * 2.5 * dt) with vz by nra.
  reflexivity.
Qed.

(** ** cycleColors *)

Lemma own_palette_length (name : string) (pal : list color) :
  SHAPE_COLORS.own name = Some pal -> length pal = 4%nat.
Proof.
  unfold SHAPE_COLORS.own.
  repeat (destruct (String.eqb name _); [intros [= <-]; reflexivity |]).
  discriminate.
Qed.

Lemma cycleParticle_sameParticles (palette : member (list color)) (i : nat)
    (s : ParticleSystem) :
  let s' := fst (cycleParticle palette i s) in
  sameParticles s s' /\ currentTemplate s' = currentTemplate s /\
  colorPaletteIndex s' = colorPaletteIndex s /\
  targetPositions s' = targetPositions s.
Proof.
  unfold cycleParticle.
  destruct (paletteAt palette _) as [[[c0 c1] c2] |]; simpl;
    unfold sameParticles; simpl; rewrite ?length_write; repeat split; reflexivity.
Qed.

(** The color that [cycleColors] writes from the base color [(r, g, b)] at
    cycle index [k]. *)
Lemma cycleParticle_own (pal : list color) (i : nat) (s : ParticleSystem) (r g b : R) :
  pal !! ((i + colorPaletteIndex s) mod length pal)%nat = Some (r, g, b) ->
  let hueShift := INR (colorPaletteIndex s) * 0.25 in
  snd (cycleParticle (Own pal) i s) = Normal /\
  targetColors (fst (cycleParticle (Own pal) i s)) =
    write3 (targetColors s) (i * 3)
      (Fin (Rmin 1 (r * cos hueShift + b * sin hueShift)), Fin g,
       Fin (Rmin 1 (b * cos hueShift - r * sin hueShift))).
Proof.
  intros Hc. unfold cycleParticle, paletteAt. unfold color in *. rewrite Hc.
  split; reflexivity.
Qed.

Lemma cycleColors_spec (s : ParticleSystem) (pal : list color) :
  wellFormed s ->
  SHAPE_COLORS.own (currentTemplate s) = Some pal ->
  let k := colorPaletteIndex s in
  let hueShift := INR k * 0.25 in
  snd (cycleColors s) = Normal /\
  colorPaletteIndex (fst (cycleColors s)) = Datatypes.S k /\
  forall (i : nat) (r g b : R),
    (i < count s)%nat ->
    pal !! ((i + k) mod length pal)%nat = Some (r, g, b) ->
    read3 (targetColors (fst (cycleColors s))) (i * 3) =
      (Fin (Rmin 1 (r * cos hueShift + b * sin hueShift)), Fin g,
       Fin (Rmin 1 (b * cos hueShift - r * sin hueShift))).
Proof.
  intros Hwf Hpal k hueShift.
  pose proof (own_palette_length _ _ Hpal) as Hlen.
  unfold cycleColors, paletteOf, getMember. rewrite Hpal.
  pose (Inv := fun (j : nat) (t : ParticleSystem) =>
    colorPaletteIndex t = k /\ length (targetColors t) = (count s * 3)%nat /\
    forall (m : nat) (r g b : R),
      (m < j)%nat -> pal !! ((m + k) mod length pal)%nat = Some (r, g, b) ->
      read3 (targetColors t) (m * 3) =
        (Fin (Rmin 1 (r * cos hueShift + b * sin hueShift)), Fin g,
         Fin (Rmin 1 (b * cos hueShift - r * sin hueShift)))).
  destruct (forLoop_inv (cycleParticle (Own pal)) Inv (count s) 0 s) as [Hc HI].
  - intros j t Hj (Hk & Hl & Hdone).
    destruct (paletteAt_own pal (j + colorPaletteIndex t) Hlen) as [[[r g] b] Hc].
    simpl in Hc.
    destruct (cycleParticle_own pal j t r g b Hc) as [Hn Htc].
    destruct (cycleParticle_sameParticles (Own pal) j t) as (_ & _ & Hk' & _).
    split; [exact Hn |]. unfold Inv. rewrite Htc, length_write3.
    split; [congruence |]. split; [assumption |].
    intros m r' g' b' Hm Hm'.
    destruct (Nat.eq_dec m j) as [-> | Hne].
    + rewrite read3_write3_eq by lia.
      rewrite Hk in Hc. unfold color in *. rewrite Hc in Hm'.
      injection Hm' as <- <- <-.
      rewrite Hk. reflexivity.
    + rewrite read3_write3_other by auto. apply Hdone; [lia | assumption].
  - unfold Inv. destruct Hwf as (_ & _ & _ & _ & Htc & _).
    split; [reflexivity |]. split; [assumption |]. intros m r g b Hm. lia.
  - destruct (forLoop _ _ _ _) as [t c]. simpl in Hc, HI. subst c.
    destruct HI as (Hk & _ & Hdone). simpl.
    split; [reflexivity |]. split; [congruence |].
    intros i r g b Hi. apply Hdone. exact Hi.
Qed.

(** ** setTemplate on a recognized shape *)

Section seeding.

Variable rand : nat -> R.

(** One iteration of the loop of [setTemplate] for a generator [f] and a
    palette entry [(c0, c1, c2)]: the generator is given the next two
    random numbers and draws its own, the next three jitter the point and
    the three after vary the color. *)
Lemma seedParticle_own_spec (f : R -> R -> Rand vec3) (pal : list color) (i : nat)
    (d : vec3) (s : ParticleSystem) (c0 c1 c2 x y z : R) (k : nat) :
  pal !! (i mod length pal)%nat = Some (c0, c1, c2) ->
  f (rand (randomCalls s)) (rand (S (randomCalls s))) (S (S (randomCalls s)))
    = (x, y, z, k) ->
  let r := seedParticle rand (Own f) (Own pal) i (d, s) in
  snd r = Normal /\
  targetPositions (snd (fst r)) =
    write3 (targetPositions s) (i * 3)
      (Fin (x + (rand k - 0.5) * 0.3), Fin (y + (rand (S k) - 0.5) * 0.3),
       Fin (z + (rand (S (S k)) - 0.5) * 0.3)) /\
  targetColors (snd (fst r)) =
    write3 (targetColors s) (i * 3)
      (Fin (Rmin 1 (c0 + (rand (S (S (S k))) - 0.5) * 0.1)),
       Fin (Rmin 1 (c1 + (rand (S (S (S (S k)))) - 0.5) * 0.1)),
       Fin (Rmin 1 (c2 + (rand (S (S (S (S (S k))))) - 0.5) * 0.1))).
Proof.
  intros Hc Hf. destruct d as [[x0 y0] z0].
  unfold seedParticle, callGenerator, nextRandom, paletteAt; simpl.
  rewrite Hf. unfold color in *. rewrite Hc. simpl.
  repeat split; reflexivity.
Qed.

(** [setTemplate] on a recognized shape, read at particle [i]: the target
    position is a jittered point of the generator, the target color a
    varied and clamped entry of the palette. *)
Lemma setTemplate_own_particle (name : string) (f : R -> R -> Rand vec3)
    (pal : list color) (s : ParticleSystem) :
  parametric.own rand name = Some f ->
  SHAPE_COLORS.own name = Some pal ->
  wellFormed s ->
  let s' := fst (setTemplate rand name s) in
  forall i, (i < count s)%nat ->
    exists (n k : nat) (x y z c0 c1 c2 : R),
      f (rand n) (rand (S n)) (S (S n)) = (x, y, z, k) /\
      pal !! (i mod length pal)%nat = Some (c0, c1, c2) /\
      read3 (targetPositions s') (i * 3) =
        (Fin (x + (rand k - 0.5) * 0.3), Fin (y + (rand (S k) - 0.5) * 0.3),
         Fin (z + (rand (S (S k)) - 0.5) * 0.3)) /\
      read3 (targetColors s') (i * 3) =
        (Fin (Rmin 1 (c0 + (rand (S (S (S k))) - 0.5) * 0.1)),
         Fin (Rmin 1 (c1 + (rand (S (S (S (S k)))) - 0.5) * 0.1)),
         Fin (Rmin 1 (c2 + (rand (S (S (S (S (S k))))) - 0.5) * 0.1))).
Proof.
  intros Hown Hpal Hwf s'.
  pose proof (own_palette_length _ _ Hpal) as Hlen.
  pose (Q := fun (t : ParticleSystem) (i : nat) =>
    exists (n k : nat) (x y z c0 c1 c2 : R),
      f (rand n) (rand (S n)) (S (S n)) = (x, y, z, k) /\
      pal !! (i mod length pal)%nat = Some (c0, c1, c2) /\
      read3 (targetPositions t) (i * 3) =
        (Fin (x + (rand k - 0.5) * 0.3), Fin (y + (rand (S k) - 0.5) * 0.3),
         Fin (z + (rand (S (S k)) - 0.5) * 0.3)) /\
      read3 (targetColors t) (i * 3) =
        (Fin (Rmin 1 (c0 + (rand (S (S (S k))) - 0.5) * 0.1)),
         Fin (Rmin 1 (c1 + (rand (S (S (S (S k)))) - 0.5) * 0.1)),
         Fin (Rmin 1 (c2 + (rand (S (S (S (S (S k))))) - 0.5) * 0.1)))).
  pose (Inv := fun (j : nat) (st : vec3 * ParticleSystem) =>
    length (targetPositions (snd st)) = (count s * 3)%nat /\
    length (targetColors (snd st)) = (count s * 3)%nat /\
    forall m, (m < j)%nat -> Q (snd st) m).
  assert (HI : Inv (count s) (fst (forLoop (seedParticle rand (Own f) (Own pal)) 0
                 (count s) ((0, 0, 0), set_currentTemplate name s)))).
  { apply (forLoop_inv (seedParticle rand (Own f) (Own pal)) Inv (count s) 0).
    - intros j [d t] Hj (Hltp & Hltc & Hdone). simpl in Hltp, Hltc, Hdone.
      destruct (paletteAt_own pal j Hlen) as [[[c0 c1] c2] Hc]. simpl in Hc.
      destruct (f (rand (randomCalls t)) (rand (S (randomCalls t)))
                  (S (S (randomCalls t)))) as [[[x y] z] k] eqn:Hf.
      destruct (seedParticle_own_spec f pal j d t c0 c1 c2 x y z k Hc Hf)
        as (Hn & Htp & Htc).
      split; [exact Hn |]. unfold Inv. rewrite Htp, Htc, !length_write3.
      split; [assumption |]. split; [assumption |].
      intros m Hm. destruct (Nat.eq_dec m j) as [-> | Hne].
      + exists (randomCalls t), k, x, y, z, c0, c1, c2.
        rewrite Htp, Htc, !read3_write3_eq by lia. auto.
      + destruct (Hdone m ltac:(lia)) as (n & k' & x' & y' & z' & a0 & a1 & a2 & H).
        exists n, k', x', y', z', a0, a1, a2.
        rewrite Htp, Htc, !read3_write3_other by auto. exact H.
    - unfold Inv. destruct Hwf as (_ & _ & _ & Htp & Htc & _). simpl.
      split; [assumption |]. split; [assumption |]. intros m Hm. lia. }
  intros i Hi. destruct HI as (_ & _ & Hdone).
  specialize (Hdone i Hi). unfold Q in Hdone.
  replace s' with (snd (fst (forLoop (seedParticle rand (Own f) (Own pal)) 0
                     (count s) ((0, 0, 0), set_currentTemplate name s)))).
  - exact Hdone.
  - unfold s', setTemplate, paletteOf, getMember. rewrite Hown, Hpal. simpl.
    destruct (forLoop _ _ _ _) as [[d t] c]. reflexivity.
Qed.

End seeding.

(** ** Geometry of the sphere template *)

Lemma cbrt_unit (x : R) : 0 <= x < 1 -> 0 <= cbrt x < 1.
Proof.
  intros [H0 H1]. unfold cbrt.
  destruct (Rlt_dec 0 x) as [Hpos | Hnpos].
  - split; [left; unfold Rpower; apply exp_pos |].
    assert (H1p : Rpower 1 (/ 3) = 1)
      by (unfold Rpower; rewrite ln_1, Rmult_0_r; apply exp_0).
    pose proof (Rlt_Rpower_l x 1 (/ 3) ltac:(lra) ltac:(lra)). lra.
  - destruct (Rlt_dec x 0); lra.
Qed.

Lemma norm_nonneg (x y z : R) : 0 <= norm x y z.
Proof. apply sqrt_pos. Qed.

Lemma norm_sqr (x y z : R) : norm x y z * norm x y z = x * x + y * y + z * z.
Proof. unfold norm. apply sqrt_sqrt. nra. Qed.

Lemma dot_le_norms (a b c d e f : R) :
  a * d + b * e + c * f <= norm a b c * norm d e f.
Proof.
  pose proof (norm_nonneg a b c) as Hn1. pose proof (norm_nonneg d e f) as Hn2.
  pose proof (norm_sqr a b c) as Hs1. pose proof (norm_sqr d e f) as Hs2.
  set (n1 := norm a b c) in *. set (n2 := norm d e f) in *.
  destruct (Rle_dec (a * d + b * e + c * f) 0) as [Hneg | Hpos]; [nra |].
  apply Rsqr_incr_0_var; [| nra].
  unfold Rsqr.
  replace (n1 * n2 * (n1 * n2)) with ((n1 * n1) * (n2 * n2)) by ring.
  rewrite Hs1, Hs2.
  pose proof (Rle_0_sqr (a * e - b * d)). pose proof (Rle_0_sqr (a * f - c * d)).
  pose proof (Rle_0_sqr (b * f - c * e)). unfold Rsqr in *. nra.
Qed.

Lemma norm_triangle (a b c d e f : R) :
  norm (a + d) (b + e) (c + f) <= norm a b c + norm d e f.
Proof.
  pose proof (norm_nonneg a b c) as Hn1. pose proof (norm_nonneg d e f) as Hn2.
  pose proof (norm_sqr a b c) as Hs1. pose proof (norm_sqr d e f) as Hs2.
  pose proof (norm_sqr (a + d) (b + e) (c + f)) as Hs.
  pose proof (dot_le_norms a b c d e f) as Hdot.
  apply Rsqr_incr_0_var; [| lra].
  unfold Rsqr. rewrite Hs. nra.
Qed.

(** A point of the sphere generator lies at distance [r] from the origin. *)
Lemma norm_spherical (r theta phi : R) :
  0 <= r ->
  norm (r * sin theta * cos phi) (r * sin theta * sin phi) (r * cos theta) = r.
Proof.
  intros Hr. unfold norm.
  replace (r * sin theta * cos phi * (r * sin theta * cos phi) +
           r * sin theta * sin phi * (r * sin theta * sin phi) +
           r * cos theta * (r * cos theta))
    with (r * r * ((sin theta)² * ((sin phi)² + (cos phi)²) + (cos theta)²))
    by (unfold Rsqr; ring).
  rewrite sin2_cos2, Rmult_1_r, sin2_cos2, Rmult_1_r.
  now apply sqrt_square.
Qed.

(** Three jitters of at most [0.15] each move a point by at most [0.3]. *)
Lemma norm_jitter (jx jy jz : R) :
  -0.15 <= jx <= 0.15 -> -0.15 <= jy <= 0.15 -> -0.15 <= jz <= 0.15 ->
  norm jx jy jz <= 0.3.
Proof.
  intros Hx Hy Hz.
  apply Rsqr_incr_0_var; [| lra].
  unfold Rsqr. rewrite norm_sqr. nra.
Qed.

(** A palette channel [c <= 1], varied by less than [0.05] and clamped at
    [1], stays within [0.1] of [c]. *)
Lemma varied_channel (c r : R) :
  c <= 1 -> 0 <= r < 1 ->
  Rabs (Rmin 1 (c + (r - 0.5) * 0.1) - c) <= 0.1 /\ Rmin 1 (c + (r - 0.5) * 0.1) <= 1.
Proof.
  intros Hc Hr. split; [| apply Rmin_l].
  unfold Rmin. destruct (Rle_dec 1 (c + (r - 0.5) * 0.1));
    apply Rabs_le; lra.
Qed.

(** ** The upper clamp of the color channels *)

Lemma Forall_write (P : num -> Prop) (a : list num) (i : nat) (v : num) :
  Forall P a -> ((i < length a)%nat -> P v) -> Forall P (write a i v).
Proof.
  intros Ha Hv. unfold write.
  destruct (lt_dec i (length a)) as [Hi | Hi].
  - apply Forall_insert; auto.
  - rewrite list_insert_ge by lia. exact Ha.
Qed.

Lemma read_atMost1 (a : list num) (i : nat) :
  Forall atMost1 a -> (i < length a)%nat -> exists c, read a i = Fin c /\ c <= 1.
Proof.
  intros Ha Hi. unfold read.
  destruct (lookup_lt_is_Some_2 a i Hi) as [x Hx]. rewrite Hx. simpl.
  pose proof (Forall_lookup_1 _ _ _ _ Ha Hx) as Hb.
  destruct x as [| c]; [contradiction | eauto].
Qed.

Lemma write_highlight_bounded (a : list num) (j : nat) :
  Forall atMost1 a -> Forall atMost1 (write a j (highlight (read a j))).
Proof.
  intros Ha. apply Forall_write; [exact Ha |]. intros Hj.
  destruct (read_atMost1 a j Ha Hj) as (c & -> & Hc).
  simpl. apply Rmin_l.
Qed.

Lemma write_lerp_bounded (a tc : list num) (j : nat) :
  Forall atMost1 a -> Forall atMost1 tc -> length a = length tc ->
  Forall atMost1 (write a j (lerpColor (read a j) (read tc j))).
Proof.
  intros Ha Htc Hlen. apply Forall_write; [exact Ha |]. intros Hj.
  destruct (read_atMost1 a j Ha Hj) as (c & -> & Hc).
  destruct (read_atMost1 tc j Htc ltac:(lia)) as (t & -> & Ht).
  simpl. unfold colorLerp. lra.
Qed.

Lemma updateParticle_colorsBounded (dt bx by_ : R) (i : nat) (s : ParticleSystem) :
  wellFormed s -> colorsBounded s -> colorsBounded (updateParticle dt bx by_ i s).
Proof.
  intros (_ & _ & Hlc & _ & Hltc & _) [Hc Htc].
  assert (Hlen : length (colors s) = length (targetColors s)) by congruence.
  unfold colorsBounded, updateParticle.
  destruct (nearHand _); simpl; (split; [| exact Htc]).
  - repeat apply write_highlight_bounded. exact Hc.
  - repeat (apply write_lerp_bounded; rewrite ?length_write; auto).
Qed.

Lemma seedParticle_colorsBounded (rand : nat -> R)
    (gen : member (R -> R -> Rand vec3)) (palette : member (list color))
    (i : nat) (d : vec3) (s : ParticleSystem) :
  colorsBounded s ->
  colorsBounded (snd (fst (seedParticle rand gen palette i (d, s)))).
Proof.
  intros [Hc Htc]. destruct d as [[x0 y0] z0].
  unfold colorsBounded, seedParticle, callGenerator, nextRandom; simpl.
  destruct gen as [| f | [a [|] |]]; simpl;
    try destruct (f _ _ _) as [[[x y] z] k]; simpl;
    try destruct (paletteAt palette i) as [[[c0 c1] c2] |]; simpl;
    (split; [exact Hc |]); try exact Htc;
    repeat (apply Forall_write; [| intros _; simpl; apply Rmin_l]); exact Htc.
Qed.

Lemma setTemplate_colorsBounded (rand : nat -> R) (name : string) (s : ParticleSystem) :
  colorsBounded s -> colorsBounded (fst (setTemplate rand name s)).
Proof.
  intros Hb. unfold setTemplate. destruct (negb _); [exact Hb |].
  match goal with
  | |- context [forLoop ?b ?i ?n ?st] =>
      pose proof (forLoop_preserve b (fun st' => colorsBounded (snd st')) n i st) as H
  end.
  simpl in H.
  match type of H with
  | _ -> _ -> ?C => assert (HC : C); [apply H |]
  end.
  - intros j [d t] Ht. now apply seedParticle_colorsBounded.
  - exact Hb.
  - destruct (forLoop _ _ _ _) as [[d t] c]. exact HC.
Qed.

Lemma mapGesture_colorsBounded (rand : nat -> R) (g : Gestures) (s : ParticleSystem) :
  colorsBounded s -> colorsBounded (fst (mapGesture rand g s)).
Proof.
  intros Hb. unfold mapGesture, switchTo.
  repeat (match goal with |- context [if ?b then _ else _] => destruct b end;
          try (now apply setTemplate_colorsBounded); try exact Hb).
Qed.

Lemma update_colorsBounded (rand : nat -> R) (dt : R) (gestures : option Gestures)
    (s : ParticleSystem) :
  wellFormed s -> colorsBounded s ->
  colorsBounded (fst (update rand dt gestures s)).
Proof.
  intros Hwf Hb. rewrite update_loop.
  destruct (beforeLoop_sameParticles rand dt gestures s) as (_ & _ & _ & _ & _ & _ & Hwf1).
  specialize (Hwf1 Hwf).
  assert (Hb1 : colorsBounded (beforeLoop rand dt gestures s)).
  { unfold beforeLoop.
    apply (mapGesture_colorsBounded rand (default noGestures gestures)
             (set_uTime (time s + dt) (set_time (time s + dt) s))).
    exact Hb. }
  apply (forLoop_preserve _ (fun t => wellFormed t /\ colorsBounded t)); [| auto].
  intros j t [Hwt Hbt]. simpl.
  split; [now apply updateParticle_wellFormed | now apply updateParticle_colorsBounded].
Qed.

(** Every green channel of every palette is at most [1]. *)
Lemma paletteOf_green (name : string) (pal : list color) (k : nat) (r g b : R) :
  paletteOf name = Own pal -> pal !! k = Some (r, g, b) -> g <= 1.
Proof.
  unfold paletteOf, getMember, SHAPE_COLORS.own.
  repeat (destruct (String.eqb name _);
          [intros [= <-];
           destruct k as [| [| [| [| m]]]]; intros Hk; inversion Hk; subst; lra |]).
  destruct (objectPrototype name); [discriminate |].
  intros [= <-].
  destruct k as [| [| [| [| m]]]]; intros Hk; inversion Hk; subst; lra.
Qed.

Lemma cycleParticle_colorsBounded (name : string) (i : nat) (s : ParticleSystem) :
  colorsBounded s -> colorsBounded (fst (cycleParticle (paletteOf name) i s)).
Proof.
  intros [Hc Htc]. unfold colorsBounded, cycleParticle.
  destruct (paletteAt (paletteOf name) _) as [[[c0 c1] c2] |] eqn:E; simpl;
    (split; [exact Hc |]); [| exact Htc].
  assert (Hg : c1 <= 1).
  { unfold paletteAt in E. destruct (paletteOf name) as [| pal |] eqn:Ep;
      try discriminate.
    eapply paletteOf_green; eassumption. }
  apply Forall_write; [| intros _; simpl; apply Rmin_l].
  apply Forall_write; [| intros _; exact Hg].
  apply Forall_write; [exact Htc | intros _; simpl; apply Rmin_l].
Qed.

Lemma cycleColors_colorsBounded (s : ParticleSystem) :
  colorsBounded s -> colorsBounded (fst (cycleColors s)).
Proof.
  intros Hb. unfold cycleColors.
  pose proof (forLoop_preserve (cycleParticle (paletteOf (currentTemplate s)))
                colorsBounded (count s) 0 s) as H.
  destruct (forLoop _ _ _ _) as [t [| e]]; simpl in *; apply H; auto;
    intros j u Hu; now apply cycleParticle_colorsBounded.
Qed.

(** ** setTemplate on a name that is not a shape *)

(** A name that is neither a shape nor a member of [Object.prototype] is
    stopped by the guard: nothing changes and nothing is thrown. *)
Lemma setTemplate_unknown (rand : nat -> R) (name : string) (s : ParticleSystem) :
  parametric.own rand name = None -> objectPrototype name = None ->
  setTemplate rand name s = (s, Normal).
Proof.
  intros Hown Hproto. unfold setTemplate, getMember.
  now rewrite Hown, Hproto.
Qed.

(** ** The constructed state and the states reached from it *)

Lemma cycleColors_wellFormed (s : ParticleSystem) :
  wellFormed s -> wellFormed (fst (cycleColors s)).
Proof.
  intros Hwf. unfold cycleColors.
  pose proof (forLoop_preserve (cycleParticle (paletteOf (currentTemplate s)))
                (sameParticles s) (count s) 0 s) as H.
  assert (Hs : sameParticles s
                 (fst (forLoop (cycleParticle (paletteOf (currentTemplate s))) 0
                         (count s) s))).
  { apply H; [| apply sameParticles_refl].
    intros j t Ht. eapply sameParticles_trans; [exact Ht |].
    apply cycleParticle_sameParticles. }
  destruct (forLoop _ _ _ _) as [t [| e]]; simpl in *;
    eapply sameParticles_wellFormed; eauto.
Qed.

Lemma initParticle_invariant (rand : nat -> R) (n i : nat) (s : ParticleSystem) :
  let P := fun t : ParticleSystem =>
    (count t = n /\ length (positions t) = (n * 3)%nat /\
     length (colors t) = (n * 3)%nat /\ length (sizes t) = n /\
     velocities t = zeros (n * 3) /\ targetPositions t = zeros (n * 3) /\
     targetColors t = zeros (n * 3)) /\
    Forall atMost1 (colors t) in
  P s -> P (fst (initParticle rand i s)).
Proof.
  intros P ((Hn & Hp & Hc & Hs & Hv & Htp & Htc) & Hb).
  unfold P, initParticle, nextRandom; simpl.
  rewrite !length_write. split; [tauto |].
  repeat (apply Forall_write; [| intros _; simpl; lra]). exact Hb.
Qed.

Lemma Forall_zeros (n : nat) : Forall atMost1 (zeros n).
Proof. apply Forall_replicate. simpl. lra. Qed.

Lemma construct_invariant (rand : nat -> R) (n calls : nat) :
  count (fst (construct rand n calls)) = n /\
  wellFormed (fst (construct rand n calls)) /\
  colorsBounded (fst (construct rand n calls)).
Proof.
  unfold construct.
  match goal with
  | |- context [forLoop ?b ?i ?m ?st] =>
      pose proof (forLoop_preserve b
        (fun t : ParticleSystem =>
           (count t = n /\ length (positions t) = (n * 3)%nat /\
            length (colors t) = (n * 3)%nat /\ length (sizes t) = n /\
            velocities t = zeros (n * 3) /\ targetPositions t = zeros (n * 3) /\
            targetColors t = zeros (n * 3)) /\
           Forall atMost1 (colors t)) m i st
        (fun j t => initParticle_invariant rand n j t)) as H;
      destruct (forLoop b i m st) as [t c]
  end.
  simpl in H.
  assert (H0 : (n = n /\ length (zeros (n * 3)) = (n * 3)%nat /\
                length (zeros (n * 3)) = (n * 3)%nat /\ length (zeros n) = n /\
                zeros (n * 3) = zeros (n * 3) /\ zeros (n * 3) = zeros (n * 3) /\
                zeros (n * 3) = zeros (n * 3)) /\
               Forall atMost1 (zeros (n * 3))).
  { unfold zeros. rewrite !length_replicate.
    split; [tauto | apply Forall_zeros]. }
  destruct (H H0) as ((Hn & Hp & Hc & Hs & Hv & Htp & Htc) & Hb).
  assert (Hwf : wellFormed t).
  { unfold wellFormed. rewrite Hn, Hv, Htp, Htc. unfold zeros.
    rewrite !length_replicate. tauto. }
  split; [| split].
  - destruct (setTemplate_sameParticles rand "galaxy" t) as ((Hcount & _) & _).
    congruence.
  - now apply setTemplate_wellFormed.
  - apply setTemplate_colorsBounded. split; [exact Hb |].
    rewrite Htc. apply Forall_zeros.
Qed.

(** Every reachable state has its buffers at their lengths and its color
    channels at most [1]. *)
Lemma reachable_invariant (rand : nat -> R) (s : ParticleSystem) :
  reachable rand s -> wellFormed s /\ colorsBounded s.
Proof.
  induction 1 as [n calls | name s _ [Hwf Hb] | dt g s _ [Hwf Hb] | s _ [Hwf Hb]].
  - apply (construct_invariant rand n calls).
  - split; [now apply setTemplate_wellFormed | now apply setTemplate_colorsBounded].
  - split; [| now apply update_colorsBounded].
    now destruct (update_particle rand dt g s Hwf) as (_ & Hwf' & _).
  - split; [now apply cycleColors_wellFormed | now apply cycleColors_colorsBounded].
Qed.

(** * The claims *)

(** C1, as the spec states it, fails: with the expansion uniform at [1.5], a
    particle at rest at the origin and a target one unit away, one tick of
    16 ms does not leave the velocity that a seek toward
    [targetPosition * expansionFactor] would, whether the factor is taken
    before or after its smoothing. *)
Lemma seek_scaled_counterexample :
  let s' := fst (update (constant 0.5) 0.016 None pulled) in
  ~ read (velocities s') 0 =
      Fin ((0 + (1 * uExpansion s' - 0) * seekStrength * 0.016) * damping) /\
  ~ read (velocities s') 0 =
      Fin ((0 + (1 * uExpansion pulled - 0) * seekStrength * 0.016) * damping).
Proof.
  cbv zeta.
  assert (Hwf : wellFormed pulled) by (apply wellFormed_single; reflexivity).
  destruct (update_step (constant 0.5) 0.016 None pulled 0 Hwf ltac:(simpl; lia))
    as (Hv & _ & _).
  destruct (update_no_flag (constant 0.5) 0.016 None pulled eq_refl) as (_ & Htp & _).
  rewrite Htp in Hv.
  assert (He : uExpansion (fst (update (constant 0.5) 0.016 None pulled)) = 1.485).
  { change pulled with (set_uExpansion 1.5 pulled) at 1.
    rewrite update_expansion. simpl. unfold targetExpansionOf. simpl. lra. }
  rewrite He.
  remember (fst (update (constant 0.5) 0.016 None pulled)) as s' eqn:Es'.
  unfold forced, repulsed in Hv. simpl pointerPosition in Hv.
  change (read3 (positions pulled) (0 * 3)) with (Fin 0, Fin 0, Fin 0) in Hv.
  change (read3 (velocities pulled) (0 * 3)) with (Fin 0, Fin 0, Fin 0) in Hv.
  change (read3 (targetPositions pulled) (0 * 3)) with (Fin 1, Fin 0, Fin 0) in Hv.
  rewrite distSqOf_Fin, nearHand_Fin_false in Hv by (simpl; lra).
  rewrite seek_valid in Hv by reflexivity.
  unfold read3 in Hv. simpl in Hv.
  assert (Hx : read (velocities s') 0 = Fin ((0 + (1 - 0) * 2.5 * 0.016) * damping))
    by congruence.
  rewrite Hx. unfold damping, seekStrength, pulled, single. simpl uExpansion.
  split; intros H; injection H; lra.
Qed.

(** C1, amended.  For a particle whose target is valid, the seek step of a
    tick adds [(targetPosition - position) * seekGain * dt] to the velocity,
    with [seekGain = 2.5]: the velocity after the tick is the damped,
    repelled sum.  The expansion factor does not enter the integrator: a
    tick smooths it and stores it in the uniform [uExpansion], and the rest
    of the state after the tick is the same whatever its value was. *)
Theorem seek_unscaled (rand : nat -> R) (dt : R) (gestures : option Gestures)
    (s : ParticleSystem) (i : nat) (px py pz vx vy vz tx ty tz : num) :
  wellFormed s -> (i < count s)%nat ->
  let s' := fst (update rand dt gestures s) in
  let b := pointerPosition (default noGestures gestures) in
  read3 (positions s) (i * 3) = (px, py, pz) ->
  read3 (velocities s) (i * 3) = (vx, vy, vz) ->
  read3 (targetPositions s') (i * 3) = (tx, ty, tz) ->
  isNaN tx = false ->
  read3 (velocities s') (i * 3) =
    damp (repulsed dt (fst b) (snd b) (px, py, pz)
            (vx + (tx - px) * Fin 2.5 * Fin dt,
             vy + (ty - py) * Fin 2.5 * Fin dt,
             vz + (tz - pz) * Fin 2.5 * Fin dt)%num) /\
  (forall e : R,
     fst (update rand dt gestures (set_uExpansion e s)) =
       set_uExpansion
         (e + (targetExpansionOf (default noGestures gestures) - e) * 0.03) s').
Proof.
  intros Hwf Hi s' b Hp Hv Ht Hvalid. split.
  - destruct (update_step rand dt gestures s i Hwf Hi) as (Hvel & _ & _).
    fold s' b in Hvel. rewrite Hvel, Hp, Hv, Ht.
    unfold forced. now rewrite seek_valid.
  - intros e. apply update_expansion.
Qed.

Lemma seek_unscaled_witness :
  let s' := fst (update (constant 0.5) 0.016 None pulled) in
  read3 (velocities s') (0 * 3) =
    damp (repulsed 0.016 9999 9999 (Fin 0, Fin 0, Fin 0)
            (Fin 0 + (Fin 1 - Fin 0) * Fin 2.5 * Fin 0.016,
             Fin 0 + (Fin 0 - Fin 0) * Fin 2.5 * Fin 0.016,
             Fin 0 + (Fin 0 - Fin 0) * Fin 2.5 * Fin 0.016)%num) /\
  (forall e : R,
     fst (update (constant 0.5) 0.016 None (set_uExpansion e pulled)) =
       set_uExpansion (e + (targetExpansionOf noGestures - e) * 0.03) s').
Proof.
  apply (seek_unscaled (constant 0.5) 0.016 None pulled 0
           (Fin 0) (Fin 0) (Fin 0) (Fin 0) (Fin 0) (Fin 0) (Fin 1) (Fin 0) (Fin 0)).
  - apply wellFormed_single; reflexivity.
  - simpl. lia.
  - reflexivity.
  - reflexivity.
  - destruct (update_no_flag (constant 0.5) 0.016 None pulled eq_refl) as (_ & Htp & _).
    rewrite Htp. reflexivity.
  - reflexivity.
Defined.

(** C2, as the spec states it, fails: on a freshly constructed system of one
    particle, with [Math.random()] returning [0], [setTemplate('dna')]
    leaves a red target channel below [0]. *)
Lemma color_clamp_counterexample :
  exists x : R,
    read (targetColors
            (fst (setTemplate (constant 0) "dna" (fst (construct (constant 0) 1 0)))))
      (0 * 3) = Fin x /\
    ~ 0 <= x <= 1.
Proof.
  destruct (construct_invariant (constant 0) 1 0) as (Hcount & Hwf & _).
  destruct (setTemplate_own_particle (constant 0) "dna" (parametric.dna (constant 0))
              SHAPE_COLORS.dna _ eq_refl eq_refl Hwf 0 ltac:(lia))
    as (n & k & x & y & z & c0 & c1 & c2 & _ & Hc & _ & Htc).
  inversion Hc; subst. unfold read3 in Htc.
  exists (Rmin 1 (0.0 + (constant 0 (S (S (S k))) - 0.5) * 0.1)).
  split; [congruence |].
  unfold constant, Rmin. destruct (Rle_dec _ _); lra.
Qed.

(** C2, amended.  After the construction and after every public operation
    ([setTemplate], [update], [cycleColors]) every channel of every
    particle's color and target color is at most [1]: the code clamps at the
    upper bound only. *)
Theorem colors_at_most_one (rand : nat -> R) (s : ParticleSystem) :
  reachable rand s ->
  (forall i, (i < length (colors s))%nat ->
     exists c : R, read (colors s) i = Fin c /\ c <= 1) /\
  (forall i, (i < length (targetColors s))%nat ->
     exists c : R, read (targetColors s) i = Fin c /\ c <= 1).
Proof.
  intros Hr. destruct (reachable_invariant rand s Hr) as [_ [Hc Htc]].
  split; intros i Hi; now apply read_atMost1.
Qed.

Lemma colors_at_most_one_witness :
  let s := fst (cycleColors
                  (fst (update (constant 0.5) 0.016 None
                          (fst (setTemplate (constant 0.5) "dna"
                                  (fst (construct (constant 0.5) 2 0))))))) in
  (forall i, (i < length (colors s))%nat ->
     exists c : R, read (colors s) i = Fin c /\ c <= 1) /\
  (forall i, (i < length (targetColors s))%nat ->
     exists c : R, read (targetColors s) i = Fin c /\ c <= 1).
Proof.
  apply (colors_at_most_one (constant 0.5)).
  apply reach_cycleColors, reach_update, reach_setTemplate, reach_construct.
Defined.

(** C3 fails on the code for the names that [parametric] inherits from
    [Object.prototype].  [setTemplate('constructor')] passes the guard
    [!parametric[templateName]], because [parametric.constructor] is the
    function [Object]: the template name is overwritten, and, when there is a
    particle, the target position of particle [0] is overwritten with
    jitter before reading the palette entry throws a [TypeError]. *)
Theorem setTemplate_constructor (rand : nat -> R) (s : ParticleSystem) :
  (0 < count s)%nat ->
  let r := setTemplate rand "constructor" s in
  let n := randomCalls s in
  snd r = Throw TypeError /\
  currentTemplate (fst r) = "constructor" /\
  targetPositions (fst r) =
    write3 (targetPositions s) 0
      (Fin (0 + (rand (2 + n)%nat - 0.5) * 0.3),
       Fin (0 + (rand (3 + n)%nat - 0.5) * 0.3),
       Fin (0 + (rand (4 + n)%nat - 0.5) * 0.3)).
Proof.
  intros Hcount. unfold setTemplate. simpl getMember. simpl negb.
  cbv iota. cbv zeta.
  change (count (set_currentTemplate "constructor" s)) with (count s).
  destruct (count s) as [| m]; [lia |].
  simpl. repeat split; reflexivity.
Qed.

Lemma setTemplate_constructor_witness :
  let r := setTemplate (constant 0.2) "constructor" atRest in
  snd r = Throw TypeError /\
  currentTemplate (fst r) = "constructor" /\
  targetPositions (fst r) =
    write3 origin 0
      (Fin (0 + (0.2 - 0.5) * 0.3), Fin (0 + (0.2 - 0.5) * 0.3),
       Fin (0 + (0.2 - 0.5) * 0.3)).
Proof.
  apply (setTemplate_constructor (constant 0.2) atRest).
  simpl. lia.
Defined.

(** C4.  In a tick, every particle takes exactly one of two branches,
    chosen by its squared distance to the repulsion point (the [z] of the
    point taken as [0]).  If the squared distance lies in [(0.01, 50)], the
    velocity after seeking receives a force along the outward normal of
    magnitude [(7 - distance) * 3.0], scaled by [dt * 6], and each color
    channel is increased by [0.15], clamped at [1].  Otherwise the velocity
    after seeking is kept and each color channel moves toward its target by
    the fraction [0.025]. *)
Theorem repulsion_or_blend (rand : nat -> R) (dt : R) (gestures : option Gestures)
    (s : ParticleSystem) (i : nat) (px py pz : R)
    (ux uy uz c0 c1 c2 t0 t1 t2 : num) :
  wellFormed s -> (i < count s)%nat ->
  let s' := fst (update rand dt gestures s) in
  let bx := fst (pointerPosition (default noGestures gestures)) in
  let by_ := snd (pointerPosition (default noGestures gestures)) in
  let distSq := (px - bx) * (px - bx) + (py - by_) * (py - by_) + (pz - 0) * (pz - 0) in
  let dist := sqrt distSq in
  let magnitude := (7 - dist) * 3.0 in
  read3 (positions s) (i * 3) = (Fin px, Fin py, Fin pz) ->
  seek dt (Fin px, Fin py, Fin pz) (read3 (velocities s) (i * 3))
    (read3 (targetPositions s') (i * 3)) = (ux, uy, uz) ->
  read3 (colors s) (i * 3) = (c0, c1, c2) ->
  read3 (targetColors s') (i * 3) = (t0, t1, t2) ->
  (0.01 < distSq < 50 ->
     read3 (velocities s') (i * 3) =
       damp (ux + Fin ((px - bx) / dist * magnitude * (dt * 6)),
             uy + Fin ((py - by_) / dist * magnitude * (dt * 6)),
             uz + Fin ((pz - 0) / dist * magnitude * (dt * 6)))%num /\
     read3 (colors s') (i * 3) =
       (nmin (Fin 1) (c0 + Fin 0.15), nmin (Fin 1) (c1 + Fin 0.15),
        nmin (Fin 1) (c2 + Fin 0.15))%num) /\
  (~ 0.01 < distSq < 50 ->
     read3 (velocities s') (i * 3) = damp (ux, uy, uz) /\
     read3 (colors s') (i * 3) =
       (c0 + (t0 - c0) * Fin 0.025, c1 + (t1 - c1) * Fin 0.025,
        c2 + (t2 - c2) * Fin 0.025)%num).
Proof.
  intros Hwf Hi s' bx by_ distSq dist magnitude Hp Hseek Hc Ht.
  destruct (update_step rand dt gestures s i Hwf Hi) as (Hvel & _ & Hcol).
  fold s' bx by_ in Hvel, Hcol.
  rewrite Hp in Hvel, Hcol. rewrite Hc, Ht in Hcol.
  unfold forced, repulsed in Hvel. rewrite Hseek in Hvel.
  unfold recolor in Hcol. rewrite distSqOf_Fin in Hvel, Hcol.
  assert (Hd : (bx - px) * (bx - px) + (by_ - py) * (by_ - py) + (0 - pz) * (0 - pz)
               = distSq) by (unfold distSq; ring).
  rewrite Hd in Hvel, Hcol.
  split; intros Hrange.
  - rewrite (proj2 (nearHand_Fin distSq) Hrange) in Hvel, Hcol.
    split; [| exact Hcol].
    rewrite Hvel. unfold offset. simpl nsub.
    rewrite repel_Fin by lra.
    fold dist. fold magnitude.
    destruct ux as [| ux], uy as [| uy], uz as [| uz]; simpl;
      repeat f_equal; lra.
  - rewrite (nearHand_Fin_false distSq Hrange) in Hvel, Hcol.
    split; [exact Hvel | exact Hcol].
Qed.

Lemma repulsion_or_blend_witness :
  let s' := fst (update (constant 0.5) 0.016 (Some (handAt 0 0)) nearby) in
  let t' := fst (update (constant 0.5) 0.016 None nearby) in
  read3 (colors s') (0 * 3) =
    (nmin (Fin 1) (Fin 0.2 + Fin 0.15), nmin (Fin 1) (Fin 0.5 + Fin 0.15),
     nmin (Fin 1) (Fin 1.0 + Fin 0.15))%num /\
  read3 (colors t') (0 * 3) =
    (Fin 0.2 + (Fin 0.2 - Fin 0.2) * Fin 0.025,
     Fin 0.5 + (Fin 0.5 - Fin 0.5) * Fin 0.025,
     Fin 1.0 + (Fin 1.0 - Fin 1.0) * Fin 0.025)%num.
Proof.
  assert (Hwf : wellFormed nearby) by (apply wellFormed_single; reflexivity).
  assert (Hi : (0 < count nearby)%nat) by (simpl; lia).
  split.
  - destruct (update_no_flag (constant 0.5) 0.016 (Some (handAt 0 0)) nearby eq_refl)
      as (_ & Htp & Htc).
    refine (proj2 (proj1 (repulsion_or_blend (constant 0.5) 0.016 (Some (handAt 0 0))
                     nearby 0 1 0 0
                     (Fin 0 + (Fin 0 - Fin 1) * Fin seekStrength * Fin 0.016)%num
                     (Fin 0 + (Fin 0 - Fin 0) * Fin seekStrength * Fin 0.016)%num
                     (Fin 0 + (Fin 0 - Fin 0) * Fin seekStrength * Fin 0.016)%num
                     (Fin 0.2) (Fin 0.5) (Fin 1.0) (Fin 0.2) (Fin 0.5) (Fin 1.0)
                     Hwf Hi _ _ _ _) _)).
    + reflexivity.
    + rewrite Htp. reflexivity.
    + reflexivity.
    + rewrite Htc. reflexivity.
    + simpl. lra.
  - destruct (update_no_flag (constant 0.5) 0.016 None nearby eq_refl)
      as (_ & Htp & Htc).
    refine (proj2 (proj2 (repulsion_or_blend (constant 0.5) 0.016 None
                     nearby 0 1 0 0
                     (Fin 0 + (Fin 0 - Fin 1) * Fin seekStrength * Fin 0.016)%num
                     (Fin 0 + (Fin 0 - Fin 0) * Fin seekStrength * Fin 0.016)%num
                     (Fin 0 + (Fin 0 - Fin 0) * Fin seekStrength * Fin 0.016)%num
                     (Fin 0.2) (Fin 0.5) (Fin 1.0) (Fin 0.2) (Fin 0.5) (Fin 1.0)
                     Hwf Hi _ _ _ _) _)).
    + reflexivity.
    + rewrite Htp. reflexivity.
    + reflexivity.
    + rewrite Htc. reflexivity.
    + simpl. lra.
Defined.

(** C5.  Template selection in [update] follows the priority
    fist > pinching > open > rock > peace > pointing with the mapping
    fist -> heart, pinching -> dna, open -> galaxy, rock -> saturn,
    peace -> flower, pointing -> fireworks: the first flag set decides, the
    flags after it are not looked at, and with no flag set or no snapshot
    the template stays as it is. *)
Theorem gesture_priority (rand : nat -> R) (dt : R) (gestures : option Gestures)
    (s : ParticleSystem) :
  currentTemplate (fst (update rand dt gestures s)) =
    match gestures with
    | None => currentTemplate s
    | Some g =>
        if isFist g then "heart"
        else if isPinching g then "dna"
        else if isOpen g then "galaxy"
        else if isRock g then "saturn"
        else if isPeace g then "flower"
        else if isPointing g then "fireworks"
        else currentTemplate s
    end.
Proof.
  destruct (update_frame rand dt gestures s) as (_ & Hcur & _).
  rewrite Hcur. unfold beforeLoop. simpl.
  match goal with
  | |- context [mapGesture rand ?g ?t] =>
      destruct (mapGesture_spec rand g t) as [_ Hmap]; rewrite Hmap
  end.
  destruct gestures as [g |]; reflexivity.
Qed.

(** C6, as the spec states it, fails: at cycle index [1] the target color of
    particle [0] of the galaxy does not have the green channel of
    [palette[0 mod 4]]. *)
Lemma cycle_base_counterexample :
  exists r g b : R,
    SHAPE_COLORS.galaxy !! (0 mod length SHAPE_COLORS.galaxy)%nat = Some (r, g, b) /\
    read (targetColors (fst (cycleColors cycledOnce))) (0 * 3 + 1) <> Fin g.
Proof.
  exists 0.1, 0.7, 1.0. split; [reflexivity |].
  assert (Hwf : wellFormed cycledOnce) by (apply wellFormed_single; reflexivity).
  destruct (cycleColors_spec cycledOnce SHAPE_COLORS.galaxy Hwf eq_refl)
    as (_ & _ & Hread).
  specialize (Hread 0%nat 0.85 0.3 1.0 ltac:(simpl; lia) eq_refl).
  unfold read3 in Hread.
  assert (Hg : read (targetColors (fst (cycleColors cycledOnce))) (0 * 3 + 1) = Fin 0.3)
    by congruence.
  rewrite Hg. intros H. injection H. lra.
Qed.

(** C6, amended.  At cycle index [k], [cycleColors] derives the target color
    of particle [i] from the base color [palette[(i + k) mod paletteLength]]
    of the active shape's palette: the green channel is that of the base
    color, and the red and blue channels are those of the base color,
    rotated in the (r, b) plane by the angle [0.25 * k] and then clamped
    above at [1]. *)
Theorem cycle_colors_rotation (s : ParticleSystem) (pal : list color) (i : nat)
    (r g b : R) :
  wellFormed s -> (i < count s)%nat ->
  SHAPE_COLORS.own (currentTemplate s) = Some pal ->
  let k := colorPaletteIndex s in
  let angle := INR k * 0.25 in
  pal !! ((i + k) mod length pal)%nat = Some (r, g, b) ->
  read3 (targetColors (fst (cycleColors s))) (i * 3) =
    (Fin (Rmin 1 (r * cos angle + b * sin angle)), Fin g,
     Fin (Rmin 1 (b * cos angle - r * sin angle))).
Proof.
  intros Hwf Hi Hpal k angle Hc.
  destruct (cycleColors_spec s pal Hwf Hpal) as (_ & _ & Hread).
  now apply Hread.
Qed.

Lemma cycle_colors_rotation_witness :
  read3 (targetColors (fst (cycleColors cycledOnce))) (0 * 3) =
    (Fin (Rmin 1 (0.85 * cos (INR 1 * 0.25) + 1.0 * sin (INR 1 * 0.25))), Fin 0.3,
     Fin (Rmin 1 (1.0 * cos (INR 1 * 0.25) - 0.85 * sin (INR 1 * 0.25)))).
Proof.
  apply (cycle_colors_rotation cycledOnce SHAPE_COLORS.galaxy 0 0.85 0.3 1.0).
  - apply wellFormed_single; reflexivity.
  - simpl. lia.
  - reflexivity.
  - reflexivity.
Defined.

(** C7.  A particle whose velocity has magnitude [V], after [k] ticks in
    each of which the net force on it is zero, has a velocity of magnitude
    at most [V * 0.88 ^ k]; the decay is exactly geometric. *)
Theorem damping_decay (rand : nat -> R) (inputs : list (R * option Gestures))
    (s : ParticleSystem) (i : nat) (vx vy vz : R) :
  wellFormed s -> (i < count s)%nat ->
  read3 (velocities s) (i * 3) = (Fin vx, Fin vy, Fin vz) ->
  zeroForce rand inputs s i ->
  exists wx wy wz : R,
    read3 (velocities (ticks rand inputs s)) (i * 3) = (Fin wx, Fin wy, Fin wz) /\
    norm wx wy wz <= norm vx vy vz * 0.88 ^ length inputs /\
    norm wx wy wz = norm vx vy vz * 0.88 ^ length inputs.
Proof.
  intros Hwf Hi Hv Hz.
  exists (vx * 0.88 ^ length inputs), (vy * 0.88 ^ length inputs),
         (vz * 0.88 ^ length inputs).
  split; [now apply zeroForce_decay |].
  assert (Hk : 0 <= 0.88 ^ length inputs) by (apply pow_le; lra).
  rewrite norm_scale by exact Hk. split; [apply Rle_refl | reflexivity].
Qed.

Lemma damping_decay_witness :
  exists wx wy wz : R,
    read3 (velocities (ticks (constant 0.5) [(0.016, None); (0, None)] coasting))
      (0 * 3) = (Fin wx, Fin wy, Fin wz) /\
    norm wx wy wz <= norm 1 0 0 * 0.88 ^ 2 /\
    norm wx wy wz = norm 1 0 0 * 0.88 ^ 2.
Proof.
  assert (Hwf : wellFormed coasting) by (apply wellFormed_single; reflexivity).
  assert (Hi : (0 < count coasting)%nat) by (simpl; lia).
  assert (H1 : preDamping (constant 0.5) 0.016 None coasting 0 =
               (Fin 1, Fin 0, Fin 0)).
  { rewrite preDamping_no_flag by reflexivity.
    apply (forced_zero 0.016 9999 9999 0 0 0 1 0 0 0 0 0); lra. }
  apply (damping_decay (constant 0.5) [(0.016, None); (0, None)] coasting 0 1 0 0
           Hwf Hi eq_refl).
  split; [exact H1 |]. split; [| exact I].
  destruct (update_particle (constant 0.5) 0.016 None coasting Hwf) as (_ & Hwf' & _).
  destruct (update_step (constant 0.5) 0.016 None coasting 0 Hwf Hi)
    as (Hv & Hp & _).
  destruct (update_no_flag (constant 0.5) 0.016 None coasting eq_refl)
    as (_ & Htp & _).
  rewrite Htp in Hv, Hp.
  fold (preDamping (constant 0.5) 0.016 None coasting 0) in H1.
  rewrite preDamping_no_flag in H1 by reflexivity.
  simpl pointerPosition in *. simpl fst in *. simpl snd in *.
  rewrite H1 in Hv, Hp.
  rewrite preDamping_no_flag by reflexivity.
  rewrite Hv, Hp, Htp. simpl pointerPosition. simpl fst. simpl snd.
  apply forced_zero; unfold damping; lra.
Defined.

(** C8.  After [setTemplate('sphere')], with [Math.random()] in [[0, 1)],
    the target position of every particle has Euclidean norm at most
    [15 + 0.3], and every channel of its target color is within [0.1] of the
    same channel of [palette[i mod 4]] of the sphere palette, and at most
    [1]. *)
Theorem sphere_targets (rand : nat -> R) (s : ParticleSystem) (i : nat) :
  (forall n, 0 <= rand n < 1) ->
  wellFormed s -> (i < count s)%nat ->
  let s' := fst (setTemplate rand "sphere" s) in
  exists x y z a b c r g b' : R,
    read3 (targetPositions s') (i * 3) = (Fin x, Fin y, Fin z) /\
    norm x y z <= 15 + 0.3 /\
    SHAPE_COLORS.sphere !! (i mod 4)%nat = Some (r, g, b') /\
    read3 (targetColors s') (i * 3) = (Fin a, Fin b, Fin c) /\
    (Rabs (a - r) <= 0.1 /\ a <= 1) /\
    (Rabs (b - g) <= 0.1 /\ b <= 1) /\
    (Rabs (c - b') <= 0.1 /\ c <= 1).
Proof.
  intros Hrand Hwf Hi s'.
  destruct (setTemplate_own_particle rand "sphere" (parametric.sphere rand)
              SHAPE_COLORS.sphere s eq_refl eq_refl Hwf i Hi)
    as (n & k & x & y & z & c0 & c1 & c2 & Hf & Hc & Htp & Htc).
  fold s' in Htp, Htc.
  unfold parametric.sphere, bindR, parametric.random, retR in Hf.
  cbv beta iota zeta in Hf. inversion Hf as [[Hx Hy Hz Hk]].
  do 9 eexists.
  split; [exact Htp |]. split; [| split; [exact Hc | split; [exact Htc |]]].
  - pose proof (cbrt_unit _ (Hrand (S (S n)))) as Hr.
    eapply Rle_trans; [apply norm_triangle |].
    apply Rplus_le_compat.
    + rewrite <- Hx, <- Hy, <- Hz, norm_spherical; lra.
    + pose proof (Hrand k). pose proof (Hrand (S k)). pose proof (Hrand (S (S k))).
      apply norm_jitter; lra.
  - assert (Hle : c0 <= 1 /\ c1 <= 1 /\ c2 <= 1).
    { change (length SHAPE_COLORS.sphere) with 4%nat in Hc.
      destruct (i mod 4)%nat as [| [| [| [| m]]]];
        inversion Hc; subst; lra. }
    destruct Hle as (H0 & H1 & H2).
    repeat split; apply varied_channel; auto.
Qed.

Lemma sphere_targets_witness :
  exists x y z a b c r g b' : R,
    read3 (targetPositions (fst (setTemplate (constant 0.5) "sphere" atRest))) (0 * 3)
      = (Fin x, Fin y, Fin z) /\
    norm x y z <= 15 + 0.3 /\
    SHAPE_COLORS.sphere !! (0 mod 4)%nat = Some (r, g, b') /\
    read3 (targetColors (fst (setTemplate (constant 0.5) "sphere" atRest))) (0 * 3)
      = (Fin a, Fin b, Fin c) /\
    (Rabs (a - r) <= 0.1 /\ a <= 1) /\
    (Rabs (b - g) <= 0.1 /\ b <= 1) /\
    (Rabs (c - b') <= 0.1 /\ c <= 1).
Proof.
  apply (sphere_targets (constant 0.5) atRest 0).
  - intros n. unfold constant. lra.
  - apply wellFormed_single; reflexivity.
  - simpl. lia.
Defined.

(** C9.  After a tick the size of particle [i] is
    [0.3 + 0.4 * sin (elapsedTime * 1.5 + i * 0.01)], a number of the
    interval [[-0.1, 0.7]]; and there are an elapsed time and an index at
    which the size is negative. *)
Theorem size_pulse :
  (forall (rand : nat -> R) (dt : R) (gestures : option Gestures)
          (s : ParticleSystem) (i : nat),
      wellFormed s -> (i < count s)%nat ->
      let s' := fst (update rand dt gestures s) in
      exists x : R,
        read (sizes s') i = Fin x /\
        x = 0.3 + 0.4 * sin (time s' * 1.5 + INR i * 0.01) /\
        -0.1 <= x <= 0.7) /\
  (exists (rand : nat -> R) (dt : R) (s : ParticleSystem) (i : nat) (x : R),
      wellFormed s /\ (i < count s)%nat /\
      read (sizes (fst (update rand dt None s))) i = Fin x /\ x < 0).
Proof.
  split.
  - intros rand dt gestures s i Hwf Hi s'.
    destruct (update_frame rand dt gestures s) as (_ & _ & Ht & _).
    fold s' in Ht. rewrite Ht.
    exists (0.3 + 0.4 * sin ((time s + dt) * 1.5 + INR i * 0.01)).
    split; [now apply update_size | split; [reflexivity |]].
    pose proof (SIN_bound ((time s + dt) * 1.5 + INR i * 0.01)). lra.
  - exists (constant 0.5), 0.05, beforePi, 0%nat, (-0.1).
    assert (Hwf : wellFormed beforePi) by (repeat split; reflexivity).
    split; [exact Hwf | split; [simpl; lia |]].
    split; [| lra].
    rewrite update_size by (auto; simpl; lia).
    unfold pulse. f_equal. simpl.
    replace ((PI - 0.05 + 0.05) * 1.5 + 0 * 0.01) with (3 * (PI / 2)) by lra.
    rewrite sin_3PI2. lra.
Qed.

Lemma size_pulse_witness :
  exists x : R,
    read (sizes (fst (update (constant 0.5) 0.016 None atRest))) 0 = Fin x /\
    x = 0.3 + 0.4 *
          sin (time (fst (update (constant 0.5) 0.016 None atRest)) * 1.5 + INR 0 * 0.01) /\
    -0.1 <= x <= 0.7.
Proof.
  apply (proj1 size_pulse (constant 0.5) 0.016 None atRest 0%nat).
  - repeat split; reflexivity.
  - simpl. lia.
Defined.

(** C10.  A tick whose snapshot is absent or has no gesture flag set leaves
    [currentTemplate], [targetPositions] and [targetColors] exactly as they
    were. *)
Theorem update_keeps_targets (rand : nat -> R) (dt : R) (gestures : option Gestures)
    (s : ParticleSystem) :
  flagSet gestures = false ->
  let s' := fst (update rand dt gestures s) in
  currentTemplate s' = currentTemplate s /\
  targetPositions s' = targetPositions s /\
  targetColors s' = targetColors s.
Proof.
  intros Hflags. now apply update_no_flag.
Qed.

Lemma update_keeps_targets_witness :
  let s' := fst (update (constant 0.5) 0.016 None atRest) in
  currentTemplate s' = "galaxy" /\ targetPositions s' = origin /\
  targetColors s' = blue.
Proof.
  apply (update_keeps_targets (constant 0.5) 0.016 None atRest).
  reflexivity.
Defined.

(** * Further properties of the particle system *)

(** ** update: completion, clock, expansion *)

Lemma update_normal (rand : nat -> R) (dt : R) (gestures : option Gestures)
    (s : ParticleSystem) :
  snd (update rand dt gestures s) = Normal.
Proof.
  rewrite update_loop.
  apply (forLoop_inv _ (fun _ _ => True)); [| exact I].
  intros j t _ _. split; [reflexivity | exact I].
Qed.

Lemma update_uniforms (rand : nat -> R) (dt : R) (gestures : option Gestures)
    (s : ParticleSystem) :
  let s' := fst (update rand dt gestures s) in
  uTime s' = time s + dt /\
  uExpansion s' =
    uExpansion s +
    (targetExpansionOf (default noGestures gestures) - uExpansion s) * 0.03 /\
  colorPaletteIndex s' = colorPaletteIndex s.
Proof.
  cbv zeta. rewrite update_loop.
  destruct (updateLoop_frame dt
              (fst (pointerPosition (default noGestures gestures)))
              (snd (pointerPosition (default noGestures gestures)))
              (count (beforeLoop rand dt gestures s)) 0
              (beforeLoop rand dt gestures s))
    as (_ & _ & _ & F4 & _ & _ & F7 & F8 & _).
  rewrite F4, F7, F8. unfold beforeLoop.
  set (g := default noGestures gestures).
  set (s1 := set_uTime _ _).
  destruct (mapGesture_sameParticles rand g s1) as ((_ & _ & A3 & A4 & _) & A11).
  simpl. rewrite A3, A4, A11. repeat split; reflexivity.
Qed.

(** X1.  [update] never throws, whatever the gestures are; it keeps the
    particle count and the lengths of the buffers. *)
Theorem update_completes (rand : nat -> R) (dt : R) (gestures : option Gestures)
    (s : ParticleSystem) :
  snd (update rand dt gestures s) = Normal /\
  count (fst (update rand dt gestures s)) = count s /\
  (wellFormed s -> wellFormed (fst (update rand dt gestures s))).
Proof.
  split; [apply update_normal |]. split.
  - now destruct (update_frame rand dt gestures s) as (Hc & _).
  - intros Hwf. now destruct (update_particle rand dt gestures s Hwf) as (_ & H & _).
Qed.

Lemma update_completes_witness :
  snd (update (constant 0.5) 0.016 (Some (handAt 0 0)) atRest) = Normal /\
  count (fst (update (constant 0.5) 0.016 (Some (handAt 0 0)) atRest)) = 1%nat /\
  wellFormed (fst (update (constant 0.5) 0.016 (Some (handAt 0 0)) atRest)).
Proof.
  destruct (update_completes (constant 0.5) 0.016 (Some (handAt 0 0)) atRest)
    as (Hn & Hc & Hwf).
  split; [exact Hn |]. split; [exact Hc |].
  apply Hwf. apply wellFormed_single; reflexivity.
Defined.

(** X2.  A run of ticks advances the clock by the sum of its [dt], and the
    uniform [uTime] then carries the clock. *)
Theorem ticks_clock (rand : nat -> R) (inputs : list (R * option Gestures))
    (s : ParticleSystem) :
  time (ticks rand inputs s) = time s + elapsed inputs /\
  (inputs <> [] -> uTime (ticks rand inputs s) = time (ticks rand inputs s)).
Proof.
  revert s. induction inputs as [| [dt g] rest IH]; intros s.
  - simpl. split; [lra | congruence].
  - simpl ticks. destruct (IH (fst (update rand dt g s))) as [Ht Hu].
    destruct (update_frame rand dt g s) as (_ & _ & Htime & _).
    destruct (update_uniforms rand dt g s) as (Hut & _).
    split.
    + rewrite Ht, Htime. simpl. lra.
    + intros _. destruct rest as [| x rest']; [| apply Hu; discriminate].
      simpl. congruence.
Qed.

Lemma ticks_clock_witness :
  uTime (ticks (constant 0.5) [(0.016, None); (0.05, None)] atRest) =
  time (ticks (constant 0.5) [(0.016, None); (0.05, None)] atRest).
Proof.
  apply (ticks_clock (constant 0.5) [(0.016, None); (0.05, None)] atRest).
  discriminate.
Defined.

(** X3.  Each tick moves the expansion factor 3% of the way to its target:
    the distance to the target shrinks by the factor [0.97], and with a hand
    spread in [[0, 1]] the factor never leaves [[0.7, 1.5]]. *)
Theorem expansion_smoothing (rand : nat -> R) (dt : R) (gestures : option Gestures)
    (s : ParticleSystem) :
  let g := default noGestures gestures in
  let e' := uExpansion (fst (update rand dt gestures s)) in
  e' - targetExpansionOf g = 0.97 * (uExpansion s - targetExpansionOf g) /\
  (0 <= handSpread g <= 1 -> 0.7 <= uExpansion s <= 1.5 -> 0.7 <= e' <= 1.5).
Proof.
  cbv zeta. destruct (update_uniforms rand dt gestures s) as (_ & He & _).
  rewrite He. split; [lra |].
  intros Hspread He0. unfold targetExpansionOf.
  destruct (handDetected _); lra.
Qed.

Lemma expansion_smoothing_witness :
  0.7 <= uExpansion (fst (update (constant 0.5) 0.016 (Some (handAt 0 0)) atRest)) <= 1.5.
Proof.
  apply (expansion_smoothing (constant 0.5) 0.016 (Some (handAt 0 0)) atRest);
    simpl; lra.
Defined.

(** ** update: integration, rest, held gestures *)

(** X4.  The integrator is semi-implicit: the position after a tick is the
    position before it plus [dt] times the velocity after it. *)
Theorem euler_step (rand : nat -> R) (dt : R) (gestures : option Gestures)
    (s : ParticleSystem) (i : nat) :
  wellFormed s -> (i < count s)%nat ->
  let s' := fst (update rand dt gestures s) in
  read3 (positions s') (i * 3) =
    integrate dt (read3 (positions s) (i * 3)) (read3 (velocities s') (i * 3)).
Proof.
  intros Hwf Hi s'.
  destruct (update_step rand dt gestures s i Hwf Hi) as (Hv & Hp & _).
  fold s' in Hv, Hp. rewrite Hp, Hv. reflexivity.
Qed.

Lemma euler_step_witness :
  let s' := fst (update (constant 0.5) 0.016 None coasting) in
  read3 (positions s') (0 * 3) =
    integrate 0.016 (Fin 0, Fin 0, Fin 0) (read3 (velocities s') (0 * 3)).
Proof.
  apply (euler_step (constant 0.5) 0.016 None coasting 0).
  - apply wellFormed_single; reflexivity.
  - simpl. lia.
Defined.

(** X5.  Rest is a fixed point: a particle that sits on its target with zero
    velocity and its target color, and is not within reach of the pointer,
    is left exactly where and as it is by a tick that sets no gesture
    flag. *)
Theorem rest_is_fixed (rand : nat -> R) (dt : R) (gestures : option Gestures)
    (s : ParticleSystem) (i : nat) (px py pz c0 c1 c2 : R) :
  wellFormed s -> (i < count s)%nat ->
  flagSet gestures = false ->
  let b := pointerPosition (default noGestures gestures) in
  ~ 0.01 < (fst b - px) * (fst b - px) + (snd b - py) * (snd b - py) +
           (0 - pz) * (0 - pz) < 50 ->
  read3 (positions s) (i * 3) = (Fin px, Fin py, Fin pz) ->
  read3 (targetPositions s) (i * 3) = (Fin px, Fin py, Fin pz) ->
  read3 (velocities s) (i * 3) = (Fin 0, Fin 0, Fin 0) ->
  read3 (colors s) (i * 3) = (Fin c0, Fin c1, Fin c2) ->
  read3 (targetColors s) (i * 3) = (Fin c0, Fin c1, Fin c2) ->
  let s' := fst (update rand dt gestures s) in
  read3 (positions s') (i * 3) = (Fin px, Fin py, Fin pz) /\
  read3 (velocities s') (i * 3) = (Fin 0, Fin 0, Fin 0) /\
  read3 (colors s') (i * 3) = (Fin c0, Fin c1, Fin c2).
Proof.
  intros Hwf Hi Hflags b Hfar Hp Ht Hv Hc Htc s'.
  destruct (update_step rand dt gestures s i Hwf Hi) as (Hvel & Hpos & Hcol).
  destruct (update_no_flag rand dt gestures s Hflags) as (_ & Htp' & Htc').
  fold b in Hvel, Hpos, Hcol. subst s'.
  rewrite Htp', Ht, Hp, Hv in Hvel, Hpos. rewrite Htc', Hp, Hc, Htc in Hcol.
  rewrite forced_zero in Hvel, Hpos by (assumption || lra).
  unfold recolor in Hcol. rewrite distSqOf_Fin, nearHand_Fin_false in Hcol by exact Hfar.
  rewrite Hvel, Hpos, Hcol. unfold damp, integrate, lerpColor, damping, colorLerp.
  simpl. repeat split; repeat f_equal; lra.
Qed.

Lemma rest_is_fixed_witness :
  let s' := fst (update (constant 0.5) 0.016 None atRest) in
  read3 (positions s') (0 * 3) = (Fin 0, Fin 0, Fin 0) /\
  read3 (velocities s') (0 * 3) = (Fin 0, Fin 0, Fin 0) /\
  read3 (colors s') (0 * 3) = (Fin 0.2, Fin 0.5, Fin 1.0).
Proof.
  apply (rest_is_fixed (constant 0.5) 0.016 None atRest 0 0 0 0 0.2 0.5 1.0).
  - apply wellFormed_single; reflexivity.
  - simpl. lia.
  - reflexivity.
  - simpl. lra.
  - reflexivity.
  - reflexivity.
  - reflexivity.
  - reflexivity.
  - reflexivity.
Defined.

Lemma mapGesture_held (rand : nat -> R) (gestures : option Gestures)
    (s : ParticleSystem) :
  currentTemplate s = requested gestures s ->
  mapGesture rand (default noGestures gestures) s = (s, Normal).
Proof.
  unfold requested, mapGesture, switchTo. intros Hreq.
  repeat (match goal with
          | |- context [if ?b then _ else _] =>
              match b with
              | negb _ => fail 1
              | _ => destruct b
              end
          end;
          [rewrite Hreq; reflexivity |]).
  reflexivity.
Qed.

(** X6.  A held gesture does not reseed: when the template asked for by the
    snapshot is the current one (or no flag is set), a tick leaves the
    target buffers untouched and draws no random number. *)
Theorem held_gesture_keeps_targets (rand : nat -> R) (dt : R)
    (gestures : option Gestures) (s : ParticleSystem) :
  currentTemplate s = requested gestures s ->
  let s' := fst (update rand dt gestures s) in
  targetPositions s' = targetPositions s /\
  targetColors s' = targetColors s /\
  randomCalls s' = randomCalls s.
Proof.
  intros Hreq. cbv zeta.
  destruct (update_frame rand dt gestures s) as (_ & _ & _ & Htp & Htc).
  assert (Hrc : randomCalls (fst (update rand dt gestures s)) =
                randomCalls (beforeLoop rand dt gestures s)).
  { rewrite update_loop. apply updateLoop_frame. }
  rewrite Htp, Htc, Hrc. unfold beforeLoop.
  rewrite (mapGesture_held rand gestures
             (set_uTime (time s + dt) (set_time (time s + dt) s)) Hreq).
  repeat split; reflexivity.
Qed.

Lemma held_gesture_keeps_targets_witness :
  let g := Some {| isFist := false; isOpen := true; isPinching := false;
                   isPointing := false; isRock := false; isPeace := false;
                   pointer := Some (0, 0); handSpread := 1; handDetected := true |} in
  let s' := fst (update (constant 0.5) 0.016 g atRest) in
  targetPositions s' = origin /\ targetColors s' = blue /\ randomCalls s' = 0%nat.
Proof.
  cbv zeta.
  apply (held_gesture_keeps_targets (constant 0.5) 0.016 _ atRest).
  reflexivity.
Defined.

(** ** setTemplate and cycleColors: what they leave alone *)

(** X7.  [setTemplate] writes the template name and the two target buffers
    and nothing else: for every name, recognized or not, completed or
    thrown, the positions, velocities, colors, sizes, clock, expansion,
    particle count and palette index are as before, and the target buffers
    keep their lengths. *)
Theorem setTemplate_writes_targets_only (rand : nat -> R) (name : string)
    (s : ParticleSystem) :
  let s' := fst (setTemplate rand name s) in
  positions s' = positions s /\ velocities s' = velocities s /\
  colors s' = colors s /\ sizes s' = sizes s /\
  time s' = time s /\ uExpansion s' = uExpansion s /\ count s' = count s /\
  colorPaletteIndex s' = colorPaletteIndex s /\
  length (targetPositions s') = length (targetPositions s) /\
  length (targetColors s') = length (targetColors s).
Proof.
  cbv zeta.
  destruct (setTemplate_sameParticles rand name s)
    as ((A1 & A2 & A3 & A4 & A5 & A6 & A7 & A8 & A9 & A10) & A11).
  repeat split; assumption.
Qed.

Lemma own_palette_channels (name : string) (pal : list color) (k : nat) (r g b : R) :
  SHAPE_COLORS.own name = Some pal -> pal !! k = Some (r, g, b) ->
  0 <= r <= 1 /\ 0 <= g <= 1 /\ 0 <= b <= 1.
Proof.
  unfold SHAPE_COLORS.own.
  repeat (destruct (String.eqb name _);
          [intros [= <-];
           destruct k as [| [| [| [| m]]]]; intros Hk; inversion Hk; subst; lra |]).
  discriminate.
Qed.

(** X8.  The first palette cycle (cycle index [0]) removes the random
    variation: the target color of particle [i] becomes exactly
    [palette[i mod paletteLength]] of the active shape; the cycle index
    becomes [1] and the template and target positions are untouched. *)
Theorem first_cycle_exact_palette (s : ParticleSystem) (pal : list color) (i : nat)
    (r g b : R) :
  wellFormed s -> (i < count s)%nat ->
  SHAPE_COLORS.own (currentTemplate s) = Some pal ->
  colorPaletteIndex s = 0%nat ->
  pal !! (i mod length pal)%nat = Some (r, g, b) ->
  let s' := fst (cycleColors s) in
  snd (cycleColors s) = Normal /\
  read3 (targetColors s') (i * 3) = (Fin r, Fin g, Fin b) /\
  colorPaletteIndex s' = 1%nat /\
  currentTemplate s' = currentTemplate s /\
  targetPositions s' = targetPositions s.
Proof.
  intros Hwf Hi Hpal Hk Hc s'.
  destruct (cycleColors_spec s pal Hwf Hpal) as (Hn & Hidx & Hread).
  destruct (own_palette_channels _ _ _ _ _ _ Hpal Hc) as (Hr & _ & Hb).
  assert (Hc' : pal !! ((i + colorPaletteIndex s) mod length pal)%nat = Some (r, g, b))
    by (rewrite Hk, Nat.add_0_r; exact Hc).
  specialize (Hread i r g b Hi Hc').
  rewrite Hk in Hread, Hidx.
  simpl INR in Hread. rewrite Rmult_0_l, cos_0, sin_0 in Hread.
  split; [exact Hn |]. split; [| split; [exact Hidx |]].
  - subst s'. rewrite Hread. unfold Rmin.
    repeat f_equal; destruct (Rle_dec _ _); lra.
  - subst s'. unfold cycleColors.
    pose proof (forLoop_preserve (cycleParticle (paletteOf (currentTemplate s)))
                  (fun t => currentTemplate t = currentTemplate s /\
                            targetPositions t = targetPositions s)
                  (count s) 0 s) as H.
    destruct (forLoop _ _ _ _) as [t [| e]]; simpl in *; apply H; auto;
      intros j u [Hu1 Hu2];
      destruct (cycleParticle_sameParticles (paletteOf (currentTemplate s)) j u)
        as (_ & Hc1 & _ & Hc2); split; congruence.
Qed.

Lemma first_cycle_exact_palette_witness :
  let s' := fst (cycleColors atRest) in
  snd (cycleColors atRest) = Normal /\
  read3 (targetColors s') (0 * 3) = (Fin 0.1, Fin 0.7, Fin 1.0) /\
  colorPaletteIndex s' = 1%nat /\
  currentTemplate s' = "galaxy" /\
  targetPositions s' = origin.
Proof.
  apply (first_cycle_exact_palette atRest SHAPE_COLORS.galaxy 0 0.1 0.7 1.0).
  - apply wellFormed_single; reflexivity.
  - simpl. lia.
  - reflexivity.
  - reflexivity.
  - reflexivity.
Defined.

(** X9.  A template name inherited from [Object.prototype] poisons the
    palette cycle: while [currentTemplate] is such a name (as the failed
    [setTemplate('constructor')] leaves it) and there is a particle,
    [cycleColors] throws a [TypeError] and changes nothing, not even its
    cycle index. *)
Theorem cycleColors_inherited_template (s : ParticleSystem) (p : protoMember) :
  getMember SHAPE_COLORS.own (currentTemplate s) = Inherited p ->
  (0 < count s)%nat ->
  cycleColors s = (s, Throw TypeError).
Proof.
  intros Hp Hcount. unfold cycleColors, paletteOf. rewrite Hp.
  destruct (count s) as [| n]; [lia |]. reflexivity.
Qed.

Lemma cycleColors_inherited_template_witness :
  cycleColors (fst (setTemplate (constant 0.2) "constructor" atRest)) =
    (fst (setTemplate (constant 0.2) "constructor" atRest), Throw TypeError).
Proof.
  apply (cycleColors_inherited_template _ (ProtoFun 1 false)).
  - destruct (setTemplate_sameParticles (constant 0.2) "constructor" atRest) as (_ & _).
    assert (H : currentTemplate (fst (setTemplate (constant 0.2) "constructor" atRest))
                = "constructor") by reflexivity.
    rewrite H. reflexivity.
  - destruct (setTemplate_sameParticles (constant 0.2) "constructor" atRest)
      as ((Hc & _) & _).
    rewrite Hc. simpl. lia.
Defined.

(** ** No NaN in the buffers *)

Lemma read_fin (a : list num) (i : nat) :
  Forall isFin a -> (i < length a)%nat -> exists x, read a i = Fin x.
Proof.
  intros Ha Hi. unfold read.
  destruct (lookup_lt_is_Some_2 a i Hi) as [x Hx]. rewrite Hx. simpl.
  pose proof (Forall_lookup_1 _ _ _ _ Ha Hx) as Hb.
  destruct x as [| c]; [contradiction | eauto].
Qed.

Lemma read3_fin (a : list num) (i3 : nat) :
  Forall isFin a -> (i3 + 2 < length a)%nat ->
  exists x y z, read3 a i3 = (Fin x, Fin y, Fin z).
Proof.
  intros Ha Hi. unfold read3.
  destruct (read_fin a i3 Ha ltac:(lia)) as [x ->].
  destruct (read_fin a (i3 + 1) Ha ltac:(lia)) as [y ->].
  destruct (read_fin a (i3 + 2) Ha ltac:(lia)) as [z ->].
  eauto.
Qed.

Lemma write3_fin (a : list num) (i3 : nat) (v : nvec) :
  Forall isFin a ->
  ((i3 < length a)%nat -> exists x y z, v = (Fin x, Fin y, Fin z)) ->
  Forall isFin (write3 a i3 v).
Proof.
  intros Ha Hv. destruct v as [[x y] z]. unfold write3.
  repeat (apply Forall_write;
          [| rewrite ?length_write; intros Hi;
             destruct (Hv ltac:(lia)) as (x' & y' & z' & [= -> -> ->]); exact I]).
  exact Ha.
Qed.

(** Seeking and repulsion keep a finite velocity finite: in the repulsion
    branch the distance exceeds [0.1], so the division is safe. *)
Lemma forced_fin (dt bx by_ px py pz vx vy vz tx ty tz : R) :
  exists x y z,
    forced dt bx by_ (Fin px, Fin py, Fin pz) (Fin vx, Fin vy, Fin vz)
      (Fin tx, Fin ty, Fin tz) = (Fin x, Fin y, Fin z).
Proof.
  unfold forced, repulsed. rewrite seek_valid by reflexivity.
  rewrite distSqOf_Fin.
  destruct (nearHand (Fin _)) eqn:E.
  - apply nearHand_Fin in E. unfold offset. simpl nsub. simpl nadd. simpl nmul.
    rewrite repel_Fin by lra. simpl. eauto.
  - simpl. eauto.
Qed.

Lemma write_highlight_fin (a : list num) (j : nat) :
  Forall isFin a -> Forall isFin (write a j (highlight (read a j))).
Proof.
  intros Ha. apply Forall_write; [exact Ha |]. intros Hj.
  destruct (read_fin a j Ha Hj) as (c & ->). exact I.
Qed.

Lemma write_lerp_fin (a tc : list num) (j : nat) :
  Forall isFin a -> Forall isFin tc -> length a = length tc ->
  Forall isFin (write a j (lerpColor (read a j) (read tc j))).
Proof.
  intros Ha Htc Hlen. apply Forall_write; [exact Ha |]. intros Hj.
  destruct (read_fin a j Ha Hj) as (c & ->).
  destruct (read_fin tc j Htc ltac:(lia)) as (t & ->). exact I.
Qed.

Lemma updateParticle_finite (dt bx by_ : R) (i : nat) (s : ParticleSystem) :
  wellFormed s -> finite s -> finite (updateParticle dt bx by_ i s).
Proof.
  intros (Hlp & Hlv & Hlc & Hltp & Hltc & Hls) (Hp & Hv & Hc & Hs & Htp & Htc).
  assert (Hforced : (i * 3 < count s * 3)%nat ->
    exists x y z,
      forced dt bx by_ (read3 (positions s) (i * 3)) (read3 (velocities s) (i * 3))
        (read3 (targetPositions s) (i * 3)) = (Fin x, Fin y, Fin z) /\
      exists px py pz, read3 (positions s) (i * 3) = (Fin px, Fin py, Fin pz)).
  { intros Hi.
    destruct (read3_fin _ (i * 3) Hp ltac:(lia)) as (px & py & pz & Ep).
    destruct (read3_fin _ (i * 3) Hv ltac:(lia)) as (vx & vy & vz & Ev).
    destruct (read3_fin _ (i * 3) Htp ltac:(lia)) as (tx & ty & tz & Et).
    rewrite Ep, Ev, Et.
    destruct (forced_fin dt bx by_ px py pz vx vy vz tx ty tz) as (x & y & z & E).
    exists x, y, z. split; [exact E | eauto]. }
  unfold finite, updateParticle. fold (repulsed dt bx by_ (read3 (positions s) (i * 3))
    (seek dt (read3 (positions s) (i * 3)) (read3 (velocities s) (i * 3))
       (read3 (targetPositions s) (i * 3)))) in Hforced.
  assert (Hpos : Forall isFin
            (write3 (positions s) (i * 3)
               (integrate dt (read3 (positions s) (i * 3))
                  (damp (forced dt bx by_ (read3 (positions s) (i * 3))
                           (read3 (velocities s) (i * 3))
                           (read3 (targetPositions s) (i * 3))))))).
  { apply write3_fin; [exact Hp |]. intros Hi.
    destruct (Hforced ltac:(lia)) as (x & y & z & -> & px & py & pz & ->).
    simpl. eauto. }
  assert (Hvel : Forall isFin
            (write3 (velocities s) (i * 3)
               (damp (forced dt bx by_ (read3 (positions s) (i * 3))
                        (read3 (velocities s) (i * 3))
                        (read3 (targetPositions s) (i * 3)))))).
  { apply write3_fin; [exact Hv |]. intros Hi.
    destruct (Hforced ltac:(lia)) as (x & y & z & -> & _).
    simpl. eauto. }
  assert (Hsz : Forall isFin (write (sizes s) i (pulse (time s) i)))
    by (apply Forall_write; [exact Hs | intros _; exact I]).
  unfold forced, repulsed in Hpos, Hvel.
  destruct (nearHand _); simpl; repeat split; try assumption.
  - repeat apply write_highlight_fin. exact Hc.
  - repeat (apply write_lerp_fin; rewrite ?length_write; auto; try congruence).
Qed.

Lemma update_finite (rand : nat -> R) (dt : R) (gestures : option Gestures)
    (s : ParticleSystem) :
  (forall t, finite t -> finite (fst (mapGesture rand (default noGestures gestures) t))) ->
  wellFormed s -> finite s -> finite (fst (update rand dt gestures s)).
Proof.
  intros Hmap Hwf Hf. rewrite update_loop.
  destruct (beforeLoop_sameParticles rand dt gestures s) as (_ & _ & _ & _ & _ & _ & Hwf1).
  specialize (Hwf1 Hwf).
  assert (Hf1 : finite (beforeLoop rand dt gestures s)).
  { unfold beforeLoop.
    apply (Hmap (set_uTime (time s + dt) (set_time (time s + dt) s))). exact Hf. }
  apply (forLoop_preserve _ (fun t => wellFormed t /\ finite t)); [| auto].
  intros j t [Hwt Hft]. simpl.
  split; [now apply updateParticle_wellFormed | now apply updateParticle_finite].
Qed.

Lemma seedParticle_finite (rand : nat -> R)
    (gen : member (R -> R -> Rand vec3)) (palette : member (list color))
    (i : nat) (d : vec3) (s : ParticleSystem) :
  finite s -> finite (snd (fst (seedParticle rand gen palette i (d, s)))).
Proof.
  intros (Hp & Hv & Hc & Hs & Htp & Htc). destruct d as [[x0 y0] z0].
  unfold finite, seedParticle, callGenerator, nextRandom; simpl.
  destruct gen as [| f | [a [|] |]]; simpl;
    try destruct (f _ _ _) as [[[x y] z] k]; simpl;
    try destruct (paletteAt palette i) as [[[c0 c1] c2] |]; simpl;
    repeat split; try assumption;
    repeat (apply Forall_write; [| intros _; exact I]); assumption.
Qed.

Lemma setTemplate_finite (rand : nat -> R) (name : string) (s : ParticleSystem) :
  finite s -> finite (fst (setTemplate rand name s)).
Proof.
  intros Hf. unfold setTemplate. destruct (negb _); [exact Hf |].
  match goal with
  | |- context [forLoop ?b ?i ?n ?st] =>
      pose proof (forLoop_preserve b (fun st' => finite (snd st')) n i st) as H
  end.
  simpl in H.
  match type of H with
  | _ -> _ -> ?C => assert (HC : C); [apply H |]
  end.
  - intros j [d t] Ht. now apply seedParticle_finite.
  - exact Hf.
  - destruct (forLoop _ _ _ _) as [[d t] c]. exact HC.
Qed.

Lemma mapGesture_finite (rand : nat -> R) (g : Gestures) (s : ParticleSystem) :
  finite s -> finite (fst (mapGesture rand g s)).
Proof.
  intros Hf. unfold mapGesture, switchTo.
  repeat (match goal with |- context [if ?b then _ else _] => destruct b end;
          try (now apply setTemplate_finite); try exact Hf).
Qed.

Lemma cycleColors_finite (s : ParticleSystem) :
  finite s -> finite (fst (cycleColors s)).
Proof.
  intros Hf. unfold cycleColors.
  pose proof (forLoop_preserve (cycleParticle (paletteOf (currentTemplate s)))
                finite (count s) 0 s) as H.
  assert (HC : finite (fst (forLoop (cycleParticle (paletteOf (currentTemplate s))) 0
                              (count s) s))).
  { apply H; [| exact Hf].
    intros j t (Hp & Hv & Hc & Hs & Htp & Htc). unfold finite, cycleParticle.
    destruct (paletteAt _ _) as [[[c0 c1] c2] |]; simpl;
      repeat split; try assumption;
      repeat (apply Forall_write; [| intros _; exact I]); assumption. }
  destruct (forLoop _ _ _ _) as [t [| e]]; exact HC.
Qed.

Lemma Forall_fin_zeros (n : nat) : Forall isFin (zeros n).
Proof. apply Forall_replicate. exact I. Qed.

Lemma construct_finite (rand : nat -> R) (n calls : nat) :
  finite (fst (construct rand n calls)).
Proof.
  unfold construct.
  match goal with
  | |- context [forLoop ?b ?i ?m ?st] =>
      pose proof (forLoop_preserve b finite m i st) as H;
      assert (HC : finite (fst (forLoop b i m st)))
  end.
  { apply H.
    - intros j t (Hp & Hv & Hc & Hs & Htp & Htc).
      unfold finite, initParticle, nextRandom; simpl.
      repeat split; try assumption;
        repeat (apply Forall_write; [| intros _; exact I]); assumption.
    - unfold finite; simpl. repeat split; apply Forall_fin_zeros. }
  destruct (forLoop _ _ _ _) as [t c]. now apply setTemplate_finite.
Qed.



(** ** The constructor *)

Lemma randomRange_bounds (rand : nat -> R) (min max : R) (k : nat) :
  0 <= rand k < 1 -> min < max ->
  min <= fst (randomRange rand min max k) < max /\
  snd (randomRange rand min max k) = S k.
Proof.
  intros Hr Hlt. unfold randomRange, bindR, parametric.random, retR. simpl.
  split; [nra | reflexivity].
Qed.

(** The size that the constructor gives is [randomRange(0.2, 1.0)]. *)
Lemma initParticle_size (rand : nat -> R) (i : nat) (s : ParticleSystem) :
  sizes (fst (initParticle rand i s)) =
    write (sizes s) i (Fin (fst (randomRange rand 0.2 1.0 (3 + randomCalls s)%nat))).
Proof. reflexivity. Qed.

Lemma initParticle_spec (rand : nat -> R) (i : nat) (s : ParticleSystem) :
  let s' := fst (initParticle rand i s) in
  let k := randomCalls s in
  snd (initParticle rand i s) = Normal /\
  positions s' =
    write3 (positions s) (i * 3)
      (Fin ((rand k - 0.5) * 80), Fin ((rand (S k) - 0.5) * 80),
       Fin ((rand (S (S k)) - 0.5) * 80)) /\
  colors s' = write3 (colors s) (i * 3) (Fin 0.2, Fin 0.5, Fin 1.0) /\
  sizes s' = write (sizes s) i (Fin (rand (S (S (S k))) * (1.0 - 0.2) + 0.2)) /\
  velocities s' = velocities s /\ count s' = count s /\
  currentTemplate s' = currentTemplate s /\ time s' = time s /\
  uExpansion s' = uExpansion s.
Proof. cbv zeta. unfold initParticle, nextRandom. simpl. repeat split; reflexivity. Qed.

(** X11.  The constructor completes and leaves [n] particles of the galaxy
    template at time [0] with expansion [1]; with [Math.random()] in
    [[0, 1)], every particle starts at rest in the cube [[-40, 40)^3] with the
    color [(0.2, 0.5, 1.0)] and a size in [[0.2, 1.0)]. *)
Theorem construct_initial (rand : nat -> R) (n calls i : nat) :
  (forall k, 0 <= rand k < 1) -> (i < n)%nat ->
  let s := fst (construct rand n calls) in
  snd (construct rand n calls) = Normal /\ count s = n /\
  currentTemplate s = "galaxy" /\ time s = 0 /\ uExpansion s = 1 /\
  read3 (velocities s) (i * 3) = (Fin 0, Fin 0, Fin 0) /\
  read3 (colors s) (i * 3) = (Fin 0.2, Fin 0.5, Fin 1.0) /\
  exists px py pz sz : R,
    read3 (positions s) (i * 3) = (Fin px, Fin py, Fin pz) /\
    read (sizes s) i = Fin sz /\
    -40 <= px < 40 /\ -40 <= py < 40 /\ -40 <= pz < 40 /\ 0.2 <= sz < 1.0.
Proof.
  intros Hrand Hi. cbv zeta. unfold construct.
  set (s0 := {| count := n; currentTemplate := "galaxy"; time := 0;
                colorPaletteIndex := 0; positions := zeros (n * 3);
                colors := zeros (n * 3); sizes := zeros n;
                velocities := zeros (n * 3); targetPositions := zeros (n * 3);
                targetColors := zeros (n * 3); uTime := 0; uExpansion := 1.0;
                randomCalls := calls |}).
  pose (Q := fun (t : ParticleSystem) (m : nat) =>
    read3 (colors t) (m * 3) = (Fin 0.2, Fin 0.5, Fin 1.0) /\
    exists px py pz sz : R,
      read3 (positions t) (m * 3) = (Fin px, Fin py, Fin pz) /\
      read (sizes t) m = Fin sz /\
      -40 <= px < 40 /\ -40 <= py < 40 /\ -40 <= pz < 40 /\ 0.2 <= sz < 1.0).
  pose (Inv := fun (j : nat) (t : ParticleSystem) =>
    (count t = n /\ currentTemplate t = "galaxy" /\ time t = 0 /\ uExpansion t = 1 /\
     velocities t = zeros (n * 3) /\ length (positions t) = (n * 3)%nat /\
     length (colors t) = (n * 3)%nat /\ length (sizes t) = n) /\
    forall m, (m < j)%nat -> Q t m).
  destruct (forLoop_inv (initParticle rand) Inv n 0 s0) as [_ HI].
  - intros j t Hj ((Hn & Hcur & Htime & He & Hv & Hlp & Hlc & Hls) & Hdone).
    destruct (initParticle_spec rand j t)
      as (Hc & Hp' & Hc' & Hs' & Hv' & Hn' & Hcur' & Htime' & He').
    split; [exact Hc |]. unfold Inv.
    rewrite Hn', Hcur', Htime', He', Hv', Hp', Hc', Hs', !length_write3, length_write.
    split; [tauto |].
    intros m Hm. unfold Q. rewrite Hp', Hc', Hs'.
    destruct (Nat.eq_dec m j) as [-> | Hne].
    + rewrite !read3_write3_eq, read_write_eq by lia.
      split; [reflexivity |]. do 4 eexists. split; [reflexivity |].
      split; [reflexivity |].
      pose proof (Hrand (randomCalls t)). pose proof (Hrand (S (randomCalls t))).
      pose proof (Hrand (S (S (randomCalls t)))).
      pose proof (Hrand (S (S (S (randomCalls t))))).
      repeat split; lra.
    + rewrite !read3_write3_other, read_write_ne by auto. apply Hdone. lia.
  - unfold Inv, s0, zeros. simpl. rewrite !length_replicate.
    split; [repeat split; try reflexivity; lra | intros m Hm; lia].
  - simpl in HI. destruct (forLoop (initParticle rand) 0 n s0) as [t c].
    simpl in HI. destruct HI as ((Hn & Hcur & Htime & He & Hv & _) & Hdone).
    destruct (setTemplate_own rand "galaxy" (parametric.galaxy rand) t eq_refl)
      as [Hnorm Hgal].
    destruct (setTemplate_sameParticles rand "galaxy" t)
      as ((A1 & A2 & A3 & A4 & A5 & A6 & A7 & A8 & _) & _).
    split; [exact Hnorm |]. rewrite A1, A2, A4, A5, A6, A7, A8, Hgal.
    split; [exact Hn |]. split; [reflexivity |]. split; [exact Htime |].
    split; [exact He |]. split.
    + rewrite Hv. unfold read3, read, zeros.
      rewrite !lookup_replicate_2 by lia. reflexivity.
    + apply (Hdone i Hi).
Qed.

Lemma construct_initial_witness :
  let s := fst (construct (constant 0.5) 2 0) in
  snd (construct (constant 0.5) 2 0) = Normal /\ count s = 2%nat /\
  currentTemplate s = "galaxy" /\ time s = 0 /\ uExpansion s = 1 /\
  read3 (velocities s) (1 * 3) = (Fin 0, Fin 0, Fin 0) /\
  read3 (colors s) (1 * 3) = (Fin 0.2, Fin 0.5, Fin 1.0) /\
  exists px py pz sz : R,
    read3 (positions s) (1 * 3) = (Fin px, Fin py, Fin pz) /\
    read (sizes s) 1 = Fin sz /\
    -40 <= px < 40 /\ -40 <= py < 40 /\ -40 <= pz < 40 /\ 0.2 <= sz < 1.0.
Proof.
  apply (construct_initial (constant 0.5) 2 0 1).
  - intros k. unfold constant. lra.
  - lia.
Defined.

(** * The shape generators *)

Lemma on_circle (a r : R) : cos a * r * (cos a * r) + sin a * r * (sin a * r) = r * r.
Proof. pose proof (sin2_cos2 a) as H. unfold Rsqr in H. nra. Qed.

Lemma unit_product (a b : R) : -1 <= a <= 1 -> -1 <= b <= 1 -> -1 <= a * b <= 1.
Proof. intros Ha Hb. nra. Qed.

Lemma scaled_unit (r a : R) : 0 <= r -> -1 <= a <= 1 -> - r <= r * a <= r.
Proof. intros Hr Ha. nra. Qed.

(** The geometry of each generator is proved once, as a lemma that the
    bounding box of all shapes uses as well. *)

Lemma tornado_geometry (u v : R) (k : nat) :
  0 <= v < 1 ->
  let p := fst (parametric.tornado u v k) in
  yOf p = 40 * v - 20 /\ -20 <= yOf p < 20 /\
  xOf p * xOf p + zOf p * zOf p = (2 + 18 * (v * v)) * (2 + 18 * (v * v)) /\
  2 <= 2 + 18 * (v * v) < 20 /\
  snd (parametric.tornado u v k) = k.
Proof.
  intros Hv. unfold parametric.tornado, retR, xOf, yOf, zOf. simpl.
  split; [lra |]. split; [lra |]. split; [| split; [nra | reflexivity]].
  rewrite on_circle. ring.
Qed.

(** X12.  The tornado is a surface of revolution around the [y] axis: for
    [v] in [[0, 1)] the height [y = 40 v - 20] lies in [[-20, 20)] and the
    point sits exactly at the horizontal radius [2 + 18 v^2], which lies in
    [[2, 20)]; the generator draws no random number. *)
Theorem tornado_funnel (u v : R) (k : nat) :
  0 <= v < 1 ->
  let p := fst (parametric.tornado u v k) in
  yOf p = 40 * v - 20 /\ -20 <= yOf p < 20 /\
  xOf p * xOf p + zOf p * zOf p = (2 + 18 * (v * v)) * (2 + 18 * (v * v)) /\
  2 <= 2 + 18 * (v * v) < 20 /\
  snd (parametric.tornado u v k) = k.
Proof. exact (tornado_geometry u v k). Qed.

Lemma tornado_funnel_witness :
  let p := fst (parametric.tornado 0.25 0.5 0%nat) in
  yOf p = 40 * 0.5 - 20 /\ -20 <= yOf p < 20 /\
  xOf p * xOf p + zOf p * zOf p = (2 + 18 * (0.5 * 0.5)) * (2 + 18 * (0.5 * 0.5)) /\
  2 <= 2 + 18 * (0.5 * 0.5) < 20 /\
  snd (parametric.tornado 0.25 0.5 0%nat) = 0%nat.
Proof.
  apply (tornado_funnel 0.25 0.5 0%nat). lra.
Defined.

Lemma dna_geometry (rand : nat -> R) (u v : R) (k : nat) :
  (forall n, 0 <= rand n < 1) -> 0 <= v < 1 ->
  let p := fst (parametric.dna rand u v k) in
  let h := v * 50 - 25 in
  (u < 0.8 -> xOf p * xOf p + zOf p * zOf p = 36 /\ yOf p = h /\ -25 <= yOf p < 25) /\
  (u < 0.4 -> forall u', 0.4 <= u' < 0.8 ->
     fst (parametric.dna rand u' v k) = (- xOf p, yOf p, - zOf p)) /\
  (0.8 <= u ->
     exists lerp : R, 0 <= lerp < 1 /\
       xOf p = cos (h * 0.5) * 6 * (1 - 2 * lerp) /\
       zOf p = sin (h * 0.5) * 6 * (1 - 2 * lerp) /\
       xOf p * xOf p + zOf p * zOf p <= 36 /\ Rabs (yOf p - h) <= 0.15).
Proof.
  intros Hrand Hv p h. subst p. unfold parametric.dna, xOf, yOf, zOf.
  destruct (Rlt_dec u 0.4) as [H4 | H4]; [| destruct (Rlt_dec u 0.8) as [H8 | H8]].
  - unfold retR. simpl.
    split; [intros _ | split; [intros _ | intros; lra]].
    + split; [| split; [reflexivity | lra]].
      pose proof (on_circle ((v * 50 - 25) * 0.5) 6). nra.
    + intros u' Hu'.
      destruct (Rlt_dec u' 0.4); [lra |]. destruct (Rlt_dec u' 0.8); [| lra].
      simpl. rewrite neg_cos, neg_sin.
      f_equal; [f_equal |]; ring.
  - unfold retR. simpl.
    split; [intros _ | split; [intros; lra | intros; lra]].
    split; [| split; [reflexivity | lra]].
    pose proof (on_circle ((v * 50 - 25) * 0.5 + PI) 6). nra.
  - unfold bindR, parametric.random, retR. simpl.
    split; [intros; lra | split; [intros; lra | intros _]].
    exists (rand k). pose proof (Hrand k) as Hk. pose proof (Hrand (S k)) as Hk'.
    rewrite neg_cos, neg_sin. fold h.
    split; [exact Hk |]. split; [ring |]. split; [ring |]. split.
    + pose proof (on_circle (h * 0.5) 6) as Hc.
      replace (cos (h * 0.5) * 6 * (1 - rand k) + - cos (h * 0.5) * 6 * rand k)
        with (cos (h * 0.5) * 6 * (1 - 2 * rand k)) by ring.
      replace (sin (h * 0.5) * 6 * (1 - rand k) + - sin (h * 0.5) * 6 * rand k)
        with (sin (h * 0.5) * 6 * (1 - 2 * rand k)) by ring.
      assert (Hl : (1 - 2 * rand k) * (1 - 2 * rand k) <= 1) by nra.
      nra.
    + apply Rabs_le. lra.
Qed.

(** X13.  The two strands of the DNA lie on the cylinder of radius [6]
    around the [y] axis, at the height [50 v - 25] in [[-25, 25)], and at
    equal [v] they are opposite each other; a cross-bar point lies on the
    segment that joins them, within [0.15] of that height. *)
Theorem dna_helix (rand : nat -> R) (u v : R) (k : nat) :
  (forall n, 0 <= rand n < 1) -> 0 <= v < 1 ->
  let p := fst (parametric.dna rand u v k) in
  let h := v * 50 - 25 in
  (u < 0.8 -> xOf p * xOf p + zOf p * zOf p = 36 /\ yOf p = h /\ -25 <= yOf p < 25) /\
  (u < 0.4 -> forall u', 0.4 <= u' < 0.8 ->
     fst (parametric.dna rand u' v k) = (- xOf p, yOf p, - zOf p)) /\
  (0.8 <= u ->
     exists lerp : R, 0 <= lerp < 1 /\
       xOf p = cos (h * 0.5) * 6 * (1 - 2 * lerp) /\
       zOf p = sin (h * 0.5) * 6 * (1 - 2 * lerp) /\
       xOf p * xOf p + zOf p * zOf p <= 36 /\ Rabs (yOf p - h) <= 0.15).
Proof. exact (dna_geometry rand u v k). Qed.

Lemma dna_helix_witness :
  let p := fst (parametric.dna (constant 0.5) 0.1 0.5 0%nat) in
  xOf p * xOf p + zOf p * zOf p = 36 /\ yOf p = 0.5 * 50 - 25 /\ -25 <= yOf p < 25.
Proof.
  apply (dna_helix (constant 0.5) 0.1 0.5 0%nat).
  - intros n. unfold constant. lra.
  - lra.
  - lra.
Defined.

Lemma flower_geometry (u v : R) (k : nat) :
  let p := fst (parametric.flower u v k) in
  let r := 10 * (1 + 0.6 * sin (5 * (u * PI * 2)) * sin (v * PI)) in
  norm (xOf p) (yOf p) (zOf p) = r /\ 4 <= r <= 16 /\
  snd (parametric.flower u v k) = k.
Proof.
  cbv zeta. unfold parametric.flower, retR, xOf, yOf, zOf. simpl.
  pose proof (SIN_bound (5 * (u * PI * 2))) as H1.
  pose proof (SIN_bound (v * PI)) as H2.
  pose proof (unit_product _ _ H1 H2) as H3.
  split; [| split; [lra | reflexivity]].
  apply norm_spherical. lra.
Qed.

(** X14.  A flower point lies at the distance
    [10 (1 + 0.6 sin (5 phi) sin theta)] from the origin, which is between
    [4] and [16]; the generator draws no random number. *)
Theorem flower_radius (u v : R) (k : nat) :
  let p := fst (parametric.flower u v k) in
  let r := 10 * (1 + 0.6 * sin (5 * (u * PI * 2)) * sin (v * PI)) in
  norm (xOf p) (yOf p) (zOf p) = r /\ 4 <= r <= 16 /\
  snd (parametric.flower u v k) = k.
Proof. exact (flower_geometry u v k). Qed.

Lemma sphere_geometry (rand : nat -> R) (u v : R) (k : nat) :
  0 <= rand k < 1 ->
  let p := fst (parametric.sphere rand u v k) in
  norm (xOf p) (yOf p) (zOf p) = 15 * cbrt (rand k) /\
  norm (xOf p) (yOf p) (zOf p) < 15 /\
  snd (parametric.sphere rand u v k) = S k.
Proof.
  intros Hr. cbv zeta.
  unfold parametric.sphere, bindR, parametric.random, retR, xOf, yOf, zOf. simpl.
  pose proof (cbrt_unit _ Hr) as Hc.
  rewrite norm_spherical by lra. split; [reflexivity | split; [lra | reflexivity]].
Qed.

(** X15.  A sphere point lies at the distance [15 cbrt(r)] from the origin
    for the random number [r] the generator draws: inside the ball of
    radius [15]. *)
Theorem sphere_radius (rand : nat -> R) (u v : R) (k : nat) :
  0 <= rand k < 1 ->
  let p := fst (parametric.sphere rand u v k) in
  norm (xOf p) (yOf p) (zOf p) = 15 * cbrt (rand k) /\
  norm (xOf p) (yOf p) (zOf p) < 15 /\
  snd (parametric.sphere rand u v k) = S k.
Proof. exact (sphere_geometry rand u v k). Qed.

Lemma sphere_radius_witness :
  let p := fst (parametric.sphere (constant 0.5) 0.25 0.5 0%nat) in
  norm (xOf p) (yOf p) (zOf p) < 15.
Proof.
  apply (sphere_radius (constant 0.5) 0.25 0.5 0%nat).
  unfold constant. lra.
Defined.

(** The burst of a firework, [Math.floor(u * 5)], is one of [0 .. 4]. *)
Lemma burst_range (u : R) : 0 <= u < 1 -> (0 <= floor (u * 5) <= 4)%Z.
Proof.
  intros Hu. unfold floor.
  pose proof (Zfloor_bound (u * 5)) as [Hlo Hhi].
  split.
  - apply Zfloor_lub. simpl. lra.
  - apply Z.lt_succ_r. change (Z.succ 4) with 5%Z. apply lt_IZR. lra.
Qed.

Lemma fireworks_geometry (rand : nat -> R) (u v : R) (k : nat) :
  0 <= rand k < 1 -> 0 <= u < 1 ->
  let p := fst (parametric.fireworks rand u v k) in
  let burst := floor (u * 5) in
  let cx := (IZR burst - 2) * 10 + sin (IZR burst * 7.3) * 4 in
  let cy := cos (IZR burst * 3.1) * 6 + 4 in
  let cz := sin (IZR burst * 5.7) * 3 in
  (0 <= burst <= 4)%Z /\
  norm (xOf p - cx) (yOf p - cy) (zOf p - cz) = rand k * 6 /\
  norm (xOf p - cx) (yOf p - cy) (zOf p - cz) < 6.
Proof.
  intros Hr Hu. cbv zeta.
  unfold parametric.fireworks, bindR, parametric.random, retR, xOf, yOf, zOf. simpl.
  split; [now apply burst_range |].
  match goal with
  | |- norm ?a ?b ?c = _ /\ _ =>
      replace a with (rand k * 6 * sin (acos (2 * v - 1)) * cos (u * PI * 2 * 12.5)) by ring;
      replace b with (rand k * 6 * sin (acos (2 * v - 1)) * sin (u * PI * 2 * 12.5)) by ring;
      replace c with (rand k * 6 * cos (acos (2 * v - 1))) by ring
  end.
  rewrite norm_spherical by lra. split; [reflexivity | lra].
Qed.

(** X16.  A firework point lies within [6] of the centre of its burst, and
    the burst [Math.floor(5 u)] is one of the five bursts [0 .. 4], whose
    centres are spread along [x]. *)
Theorem fireworks_burst (rand : nat -> R) (u v : R) (k : nat) :
  0 <= rand k < 1 -> 0 <= u < 1 ->
  let p := fst (parametric.fireworks rand u v k) in
  let burst := floor (u * 5) in
  let cx := (IZR burst - 2) * 10 + sin (IZR burst * 7.3) * 4 in
  let cy := cos (IZR burst * 3.1) * 6 + 4 in
  let cz := sin (IZR burst * 5.7) * 3 in
  (0 <= burst <= 4)%Z /\
  norm (xOf p - cx) (yOf p - cy) (zOf p - cz) = rand k * 6 /\
  norm (xOf p - cx) (yOf p - cy) (zOf p - cz) < 6.
Proof. exact (fireworks_geometry rand u v k). Qed.

Lemma fireworks_burst_witness :
  let p := fst (parametric.fireworks (constant 0.5) 0.5 0.5 0%nat) in
  let burst := floor (0.5 * 5) in
  (0 <= burst <= 4)%Z /\
  norm (xOf p - ((IZR burst - 2) * 10 + sin (IZR burst * 7.3) * 4))
       (yOf p - (cos (IZR burst * 3.1) * 6 + 4))
       (zOf p - sin (IZR burst * 5.7) * 3) = constant 0.5 0%nat * 6 /\
  norm (xOf p - ((IZR burst - 2) * 10 + sin (IZR burst * 7.3) * 4))
       (yOf p - (cos (IZR burst * 3.1) * 6 + 4))
       (zOf p - sin (IZR burst * 5.7) * 3) < 6.
Proof.
  apply (fireworks_burst (constant 0.5) 0.5 0.5 0%nat); unfold constant; lra.
Defined.

Lemma on_circle' (a r : R) : r * cos a * (r * cos a) + r * sin a * (r * sin a) = r * r.
Proof. pose proof (sin2_cos2 a) as H. unfold Rsqr in H. nra. Qed.

(** The outline radius of the star at the angle [u * 2 PI]: between the
    inner radius [6] and the outer radius [15]. *)
Lemma star_outline (segment : R) :
  let segFloor := floor segment in
  let segFrac := segment - IZR segFloor in
  let r1 := if Z.eqb (Z.rem segFloor 2) 0 then 15 else 6 in
  let r2 := if Z.eqb (Z.rem segFloor 2) 0 then 6 else 15 in
  6 <= r1 + (r2 - r1) * segFrac <= 15.
Proof.
  cbv zeta. unfold floor.
  pose proof (Zfloor_bound segment) as [Hlo Hhi].
  destruct (Z.eqb _ 0); lra.
Qed.

Lemma star_geometry (rand : nat -> R) (u v : R) (k : nat) :
  0 <= rand k < 1 -> 0 <= v < 1 ->
  let p := fst (parametric.star rand u v k) in
  exists maxR : R,
    6 <= maxR <= 15 /\
    xOf p = sqrt v * maxR * cos (u * PI * 2) /\
    yOf p = sqrt v * maxR * sin (u * PI * 2) /\
    xOf p * xOf p + yOf p * yOf p = v * (maxR * maxR) /\
    xOf p * xOf p + yOf p * yOf p < 225 /\
    -1 <= zOf p < 1.
Proof.
  intros Hr Hv. cbv zeta.
  unfold parametric.star, bindR, parametric.random, retR, xOf, yOf, zOf. simpl.
  pose proof (star_outline (u * PI * 2 / (PI / 5))) as Hout. cbv zeta in Hout.
  match type of Hout with
  | 6 <= ?m <= 15 => exists m
  end.
  split; [exact Hout |]. split; [reflexivity |]. split; [reflexivity |].
  match type of Hout with
  | 6 <= ?m <= 15 => set (maxR := m) in *
  end.
  assert (Hsq : sqrt v * sqrt v = v) by (apply sqrt_sqrt; lra).
  assert (Hxy : sqrt v * maxR * cos (u * PI * 2) * (sqrt v * maxR * cos (u * PI * 2)) +
                sqrt v * maxR * sin (u * PI * 2) * (sqrt v * maxR * sin (u * PI * 2))
                = v * (maxR * maxR)).
  { rewrite on_circle'. rewrite <- Hsq at 3. ring. }
  split; [exact Hxy |]. split; [| lra].
  rewrite Hxy.
  assert (Hm1 : maxR * maxR <= 225) by nra.
  assert (Hm2 : 36 <= maxR * maxR) by nra.
  nra.
Qed.



Lemma saturn_geometry (rand : nat -> R) (u v : R) (k : nat) :
  0 <= rand k < 1 -> 0 <= v < 1 ->
  let p := fst (parametric.saturn rand u v k) in
  (v < 0.35 ->
     Rabs (xOf p) <= 8 /\ Rabs (yOf p) <= 6.8 /\ Rabs (zOf p) <= 3.2) /\
  (0.35 <= v ->
     let ringR := 13 + (v - 0.35) * 28 in
     let off := (rand k - 0.5) * 0.4 in
     13 <= ringR < 31.2 /\ Rabs off <= 0.2 /\
     xOf p * xOf p + (yOf p - off) * (yOf p - off) + zOf p * zOf p = ringR * ringR /\
     12.8 <= norm (xOf p) (yOf p) (zOf p)).
Proof.
  intros Hr Hv. cbv zeta. unfold parametric.saturn.
  destruct (Rlt_dec v 0.35) as [Hb | Hb];
    unfold bindR, parametric.random, retR, xOf, yOf, zOf; simpl.
  - split; [intros _ | intros; lra].
    pose proof (cbrt_unit _ Hr) as Hc.
    pose proof (SIN_bound (v / 0.35 * PI)) as H1.
    pose proof (COS_bound (u * PI * 2)) as H2.
    pose proof (SIN_bound (u * PI * 2)) as H3.
    pose proof (unit_product _ _ H1 H2) as H4.
    pose proof (unit_product _ _ H1 H3) as H5.
    assert (Hr8 : 0 <= 8 * cbrt (rand k) <= 8) by lra.
    pose proof (scaled_unit _ _ (proj1 Hr8) H4) as Hx.
    pose proof (scaled_unit _ _ (proj1 Hr8) H5) as Hy.
    pose proof (scaled_unit _ _ (proj1 Hr8) H2) as Hz.
    replace (8 * cbrt (rand k) * sin (v / 0.35 * PI) * cos (u * PI * 2))
      with (8 * cbrt (rand k) * (sin (v / 0.35 * PI) * cos (u * PI * 2))) by ring.
    replace (8 * cbrt (rand k) * sin (v / 0.35 * PI) * sin (u * PI * 2) * 0.85)
      with (8 * cbrt (rand k) * (sin (v / 0.35 * PI) * sin (u * PI * 2)) * 0.85) by ring.
    set (c := cbrt (rand k)) in *.
    set (a := sin (v / 0.35 * PI) * cos (u * PI * 2)) in *.
    set (b := sin (v / 0.35 * PI) * sin (u * PI * 2)) in *.
    set (d := cos (u * PI * 2)) in *.
    assert (Ha : -8 <= 8 * c * a <= 8) by lra.
    assert (Hb' : -8 <= 8 * c * b <= 8) by lra.
    assert (Hd : -8 <= 8 * c * d <= 8) by lra.
    clearbody c a b d.
    split; [apply Rabs_le; lra |]. split; apply Rabs_le; lra.
  - split; [intros; lra | intros _].
    set (ringR := 13 + (v - 0.35) * 28).
    set (off := (rand k - 0.5) * 0.4).
    assert (HR : 13 <= ringR < 31.2) by (unfold ringR; lra).
    assert (Hoff : Rabs off <= 0.2) by (apply Rabs_le; unfold off; lra).
    split; [exact HR |]. split; [exact Hoff |].
    assert (Hring : cos (u * PI * 2) * ringR * (cos (u * PI * 2) * ringR) +
                    (off + sin (u * PI * 2) * ringR * sin 0.44 - off) *
                    (off + sin (u * PI * 2) * ringR * sin 0.44 - off) +
                    sin (u * PI * 2) * ringR * cos 0.44 *
                    (sin (u * PI * 2) * ringR * cos 0.44) = ringR * ringR).
    { pose proof (sin2_cos2 (u * PI * 2)) as Ha.
      pose proof (sin2_cos2 0.44) as Hb'. unfold Rsqr in Ha, Hb'.
      replace (off + sin (u * PI * 2) * ringR * sin 0.44 - off)
        with (sin (u * PI * 2) * ringR * sin 0.44) by ring.
      transitivity (ringR * ringR *
                    (cos (u * PI * 2) * cos (u * PI * 2) +
                     sin (u * PI * 2) * sin (u * PI * 2) *
                     (sin 0.44 * sin 0.44 + cos 0.44 * cos 0.44))); [ring |].
      rewrite Hb', Rmult_1_r.
      replace (cos (u * PI * 2) * cos (u * PI * 2) + sin (u * PI * 2) * sin (u * PI * 2))
        with 1 by lra.
      ring. }
    split; [exact Hring |].
    (* the point is the ring point moved by [off] along [y] *)
    pose proof (norm_triangle
                  (cos (u * PI * 2) * ringR)
                  (off + sin (u * PI * 2) * ringR * sin 0.44)
                  (sin (u * PI * 2) * ringR * cos 0.44)
                  0 (- off) 0) as Htri.
    replace (norm 0 (- off) 0) with (Rabs off) in Htri.
    2:{ unfold norm. replace (0 * 0 + - off * - off + 0 * 0) with (Rsqr off)
          by (unfold Rsqr; ring). now rewrite sqrt_Rsqr_abs. }
    replace (norm (cos (u * PI * 2) * ringR + 0)
               (off + sin (u * PI * 2) * ringR * sin 0.44 + - off)
               (sin (u * PI * 2) * ringR * cos 0.44 + 0)) with ringR in Htri.
    2:{ unfold norm. symmetry.
        replace ((cos (u * PI * 2) * ringR + 0) * (cos (u * PI * 2) * ringR + 0) +
                 (off + sin (u * PI * 2) * ringR * sin 0.44 + - off) *
                 (off + sin (u * PI * 2) * ringR * sin 0.44 + - off) +
                 (sin (u * PI * 2) * ringR * cos 0.44 + 0) *
                 (sin (u * PI * 2) * ringR * cos 0.44 + 0)) with (ringR * ringR).
        - apply sqrt_square. lra.
        - rewrite <- Hring. ring. }
    lra.
Qed.

(** X18.  Saturn: for [v < 0.35] the point belongs to the planet body,
    inside the box [|x| <= 8], [|y| <= 6.8], [|z| <= 3.2]; otherwise it
    belongs to the rings, a disc tilted by [0.44] rad around the [x] axis:
    up to a vertical offset of at most [0.2] it lies exactly at the ring
    radius [13 + 28 (v - 0.35)], which is in [[13, 31.2)].  So no ring point
    is closer than [12.8] to the centre. *)
Theorem saturn_body_and_rings (rand : nat -> R) (u v : R) (k : nat) :
  0 <= rand k < 1 -> 0 <= v < 1 ->
  let p := fst (parametric.saturn rand u v k) in
  (v < 0.35 ->
     Rabs (xOf p) <= 8 /\ Rabs (yOf p) <= 6.8 /\ Rabs (zOf p) <= 3.2) /\
  (0.35 <= v ->
     let ringR := 13 + (v - 0.35) * 28 in
     let off := (rand k - 0.5) * 0.4 in
     13 <= ringR < 31.2 /\ Rabs off <= 0.2 /\
     xOf p * xOf p + (yOf p - off) * (yOf p - off) + zOf p * zOf p = ringR * ringR /\
     12.8 <= norm (xOf p) (yOf p) (zOf p)).
Proof. exact (saturn_geometry rand u v k). Qed.

Lemma saturn_body_and_rings_witness :
  let p := fst (parametric.saturn (constant 0.5) 0.25 0.2 0%nat) in
  Rabs (xOf p) <= 8 /\ Rabs (yOf p) <= 6.8 /\ Rabs (zOf p) <= 3.2.
Proof.
  apply (saturn_body_and_rings (constant 0.5) 0.25 0.2 0%nat); unfold constant; lra.
Defined.

(** The arm of a galaxy point, [Math.floor(u * 300) % 3], is one of
    [0, 1, 2]. *)
Lemma arm_range (u : R) : 0 <= u < 1 -> (0 <= Z.rem (floor (u * IZR 3 * 100)) 3 <= 2)%Z.
Proof.
  intros Hu.
  assert (H0 : (0 <= floor (u * IZR 3 * 100))%Z)
    by (unfold floor; apply Zfloor_lub; simpl; lra).
  pose proof (Z.rem_bound_pos _ 3 H0 ltac:(lia)). lia.
Qed.

Lemma galaxy_geometry (rand : nat -> R) (u v : R) (k : nat) :
  (forall n, 0 <= rand n < 1) -> 0 <= u < 1 -> 0 <= v < 1 ->
  let p := fst (parametric.galaxy rand u v k) in
  let arm := Z.rem (floor (u * IZR 3 * 100)) 3 in
  let t := v * 30 in
  let angle := IZR arm / IZR 3 * PI * 2 + t * 0.4 in
  (0 <= arm <= 2)%Z /\
  Rabs (xOf p - t * cos angle) <= 1.5 * (0.5 + 0.12 * t) /\
  Rabs (zOf p - t * sin angle) <= 1.5 * (0.5 + 0.12 * t) /\
  Rabs (yOf p) <= 0.75 + 0.025 * t /\ Rabs (yOf p) < 1.5.
Proof.
  intros Hrand Hu Hv. cbv zeta.
  unfold parametric.galaxy, bindR, parametric.random, retR, xOf, yOf, zOf.
  cbv beta iota zeta. simpl fst. simpl snd.
  pose proof (Hrand k) as H0. pose proof (Hrand (S k)) as H1.
  pose proof (Hrand (S (S k))) as H2.
  split; [now apply arm_range |].
  set (a := IZR (Z.rem (floor (u * IZR 3 * 100)) 3) / IZR 3 * PI * 2 + v * 30 * 0.4).
  assert (Hy : Rabs ((rand (S k) - 0.5) * (1.5 + v * 30 * 0.05)) <= 0.75 + 0.025 * (v * 30))
    by (apply Rabs_le; nra).
  split; [apply Rabs_le; nra |]. split; [apply Rabs_le; nra |].
  split; [exact Hy | lra].
Qed.

(** X19.  The galaxy is a thin disc of three spiral arms: a point lies on
    arm [0], [1] or [2], at most [1.5 (0.5 + 0.12 t)] away, along [x] and
    along [z], from the arm point of parameter [t = 30 v], and at a height of
    at most [0.75 + 0.025 t < 1.5]. *)
Theorem galaxy_disc (rand : nat -> R) (u v : R) (k : nat) :
  (forall n, 0 <= rand n < 1) -> 0 <= u < 1 -> 0 <= v < 1 ->
  let p := fst (parametric.galaxy rand u v k) in
  let arm := Z.rem (floor (u * IZR 3 * 100)) 3 in
  let t := v * 30 in
  let angle := IZR arm / IZR 3 * PI * 2 + t * 0.4 in
  (0 <= arm <= 2)%Z /\
  Rabs (xOf p - t * cos angle) <= 1.5 * (0.5 + 0.12 * t) /\
  Rabs (zOf p - t * sin angle) <= 1.5 * (0.5 + 0.12 * t) /\
  Rabs (yOf p) <= 0.75 + 0.025 * t /\ Rabs (yOf p) < 1.5.
Proof. exact (galaxy_geometry rand u v k). Qed.

Lemma galaxy_disc_witness :
  let p := fst (parametric.galaxy (constant 0.5) 0.5 0.5 0%nat) in
  let arm := Z.rem (floor (0.5 * IZR 3 * 100)) 3 in
  let t := 0.5 * 30 in
  let angle := IZR arm / IZR 3 * PI * 2 + t * 0.4 in
  (0 <= arm <= 2)%Z /\
  Rabs (xOf p - t * cos angle) <= 1.5 * (0.5 + 0.12 * t) /\
  Rabs (zOf p - t * sin angle) <= 1.5 * (0.5 + 0.12 * t) /\
  Rabs (yOf p) <= 0.75 + 0.025 * t /\ Rabs (yOf p) < 1.5.
Proof.
  apply (galaxy_disc (constant 0.5) 0.5 0.5 0%nat); try lra.
  intros n. unfold constant. lra.
Defined.

Lemma heart_geometry (rand : nat -> R) (u v : R) (k : nat) :
  0 <= rand k < 1 -> 0 <= v < 1 ->
  let p := fst (parametric.heart rand u v k) in
  Rabs (xOf p) <= 7.2 * cbrt v /\ Rabs (yOf p - 2) <= 9.45 * cbrt v /\
  Rabs (zOf p) <= 2 * cbrt v /\ cbrt v < 1 /\
  (cbrt v = 0 -> p = (0, 2, 0)).
Proof.
  intros Hr Hv. cbv zeta.
  unfold parametric.heart, bindR, parametric.random, retR, xOf, yOf, zOf.
  cbv beta iota zeta. simpl fst. simpl snd.
  pose proof (cbrt_unit _ Hv) as Hc.
  set (phi := u * PI * 2).
  pose proof (SIN_bound phi) as Hs.
  pose proof (COS_bound phi) as C1. pose proof (COS_bound (2 * phi)) as C2.
  pose proof (COS_bound (3 * phi)) as C3. pose proof (COS_bound (4 * phi)) as C4.
  assert (Hs3 : -1 <= sin phi * (sin phi * (sin phi * 1)) <= 1).
  { rewrite Rmult_1_r.
    pose proof (unit_product _ _ Hs Hs) as H2.
    apply (unit_product _ _ Hs H2). }
  set (s3 := sin phi * (sin phi * (sin phi * 1))) in *.
  set (c := cbrt v) in *.
  set (o := 13 * cos phi - 5 * cos (2 * phi) - 2 * cos (3 * phi) - cos (4 * phi)).
  assert (Ho : -21 <= o <= 21) by (unfold o; lra).
  set (r := rand k) in *.
  clearbody s3 o r. clearbody c.
  assert (Hx : - c <= c * s3 <= c) by (apply scaled_unit; lra).
  assert (Hy : - (21 * c) <= c * o <= 21 * c) by nra.
  assert (Hz : - (0.5 * c) <= c * (r - 0.5) <= 0.5 * c) by nra.
  split; [apply Rabs_le; nra |]. split; [apply Rabs_le; nra |].
  split; [apply Rabs_le; nra |]. split; [lra |].
  intros Hc0. rewrite Hc0. f_equal; [f_equal |]; ring.
Qed.

(** X20.  The heart is the outline curve scaled by [cbrt(v) < 1] toward the
    point [(0, 2, 0)]: it fits in the box [|x| <= 7.2], [|y - 2| <= 9.45],
    [|z| <= 2], and where [cbrt(v)] is [0] the point is [(0, 2, 0)]
    itself. *)
Theorem heart_box (rand : nat -> R) (u v : R) (k : nat) :
  0 <= rand k < 1 -> 0 <= v < 1 ->
  let p := fst (parametric.heart rand u v k) in
  Rabs (xOf p) <= 7.2 * cbrt v /\ Rabs (yOf p - 2) <= 9.45 * cbrt v /\
  Rabs (zOf p) <= 2 * cbrt v /\ cbrt v < 1 /\
  (cbrt v = 0 -> p = (0, 2, 0)).
Proof. exact (heart_geometry rand u v k). Qed.

Lemma heart_box_witness :
  let p := fst (parametric.heart (constant 0.5) 0.25 0.5 0%nat) in
  Rabs (xOf p) <= 7.2 * cbrt 0.5 /\ Rabs (yOf p - 2) <= 9.45 * cbrt 0.5 /\
  Rabs (zOf p) <= 2 * cbrt 0.5.
Proof.
  destruct (heart_box (constant 0.5) 0.25 0.5 0%nat) as (Hx & Hy & Hz & _).
  - unfold constant. lra.
  - lra.
  - split; [exact Hx | split; [exact Hy | exact Hz]].
Defined.

(** ** Every shape fits in one box *)

Lemma abs_between (x a : R) : Rabs x <= a -> - a <= x <= a.
Proof. unfold Rabs. destruct (Rcase_abs x); lra. Qed.

Lemma sq_le_abs (a r : R) : a * a <= r * r -> 0 <= r -> Rabs a <= r.
Proof. intros H Hr. apply Rabs_le. nra. Qed.

Lemma sq_sum2_bound (a b q r : R) :
  a * a + b * b = q -> q <= r * r -> 0 <= r -> Rabs a <= r /\ Rabs b <= r.
Proof.
  intros H Hq Hr. pose proof (Rle_0_sqr a) as Ha. pose proof (Rle_0_sqr b) as Hb.
  unfold Rsqr in *. split; apply sq_le_abs; lra.
Qed.

Lemma sq_sum3_bound (a b c r : R) :
  a * a + b * b + c * c = r * r -> 0 <= r ->
  Rabs a <= r /\ Rabs b <= r /\ Rabs c <= r.
Proof.
  intros H Hr. pose proof (Rle_0_sqr a) as Ha. pose proof (Rle_0_sqr b) as Hb.
  pose proof (Rle_0_sqr c) as Hc.
  unfold Rsqr in *. repeat split; apply sq_le_abs; lra.
Qed.

Lemma coords_le_norm (x y z : R) :
  Rabs x <= norm x y z /\ Rabs y <= norm x y z /\ Rabs z <= norm x y z.
Proof.
  pose proof (norm_nonneg x y z) as Hn. pose proof (norm_sqr x y z) as Hs.
  repeat split; apply sq_le_abs; nra.
Qed.

Lemma generator_box (rand : nat -> R) (name : string) (f : R -> R -> Rand vec3)
    (u v : R) (k : nat) :
  parametric.own rand name = Some f ->
  (forall n, 0 <= rand n < 1) -> 0 <= u < 1 -> 0 <= v < 1 ->
  let p := fst (f u v k) in
  Rabs (xOf p) <= 36.15 /\ Rabs (yOf p) <= 36.15 /\ Rabs (zOf p) <= 36.15.
Proof.
  intros Hown Hrand Hu Hv. unfold parametric.own in Hown.
  repeat match type of Hown with
         | (if ?b then _ else _) = _ => destruct b
         end;
    try discriminate; injection Hown as <-; cbv zeta.
  - (* heart *)
    destruct (heart_geometry rand u v k (Hrand k) Hv) as (Hx & Hy & Hz & Hc & _).
    pose proof (cbrt_unit _ Hv) as Hc0.
    apply abs_between in Hy.
    repeat split; try (eapply Rle_trans; [eassumption |]; nra).
    apply Rabs_le. nra.
  - (* flower *)
    destruct (flower_geometry u v k) as (Hn & Hr & _).
    destruct (coords_le_norm (xOf (fst (parametric.flower u v k)))
                (yOf (fst (parametric.flower u v k)))
                (zOf (fst (parametric.flower u v k)))) as (Hx & Hy & Hz).
    rewrite Hn in Hx, Hy, Hz. repeat split; lra.
  - (* saturn *)
    destruct (saturn_geometry rand u v k (Hrand k) Hv) as [Hbody Hring].
    destruct (Rlt_dec v 0.35) as [Hb | Hb].
    + destruct (Hbody Hb) as (Hx & Hy & Hz). repeat split; lra.
    + destruct (Hring ltac:(lra)) as (HR & Hoff & Hsq & _).
      set (p := fst (parametric.saturn rand u v k)) in *.
      set (R0 := 13 + (v - 0.35) * 28) in *.
      set (off := (rand k - 0.5) * 0.4) in *.
      clearbody p R0 off.
      apply abs_between in Hoff.
      destruct (sq_sum3_bound _ _ _ _ Hsq ltac:(lra)) as (Hx & Hy & Hz).
      apply abs_between in Hy.
      split; [lra |]. split; [apply Rabs_le; lra | lra].
  - (* fireworks *)
    destruct (fireworks_geometry rand u v k (Hrand k) Hu) as (Hb & _ & Hn).
    set (p := fst (parametric.fireworks rand u v k)) in *.
    set (b := IZR (floor (u * 5))) in *.
    assert (Hb' : 0 <= b <= 4).
    { unfold b. destruct Hb as [H0 H4]. apply IZR_le in H0, H4. simpl in *. lra. }
    pose proof (SIN_bound (b * 7.3)). pose proof (COS_bound (b * 3.1)).
    pose proof (SIN_bound (b * 5.7)).
    match type of Hn with
    | norm ?a ?c ?d < 6 => destruct (coords_le_norm a c d) as (Hx & Hy & Hz)
    end.
    apply abs_between in Hx, Hy, Hz.
    repeat split; apply Rabs_le; lra.
  - (* galaxy *)
    destruct (galaxy_geometry rand u v k Hrand Hu Hv) as (_ & Hx & Hz & _ & Hy).
    set (p := fst (parametric.galaxy rand u v k)) in *.
    set (a := IZR (Z.rem (floor (u * IZR 3 * 100)) 3) / IZR 3 * PI * 2 + v * 30 * 0.4) in *.
    pose proof (COS_bound a) as Hc. pose proof (SIN_bound a) as Hs.
    assert (Htc : - (v * 30) <= v * 30 * cos a <= v * 30) by (apply scaled_unit; lra).
    assert (Hts : - (v * 30) <= v * 30 * sin a <= v * 30) by (apply scaled_unit; lra).
    apply abs_between in Hx, Hz.
    split; [apply Rabs_le; lra |]. split; [lra | apply Rabs_le; lra].
  - (* dna *)
    destruct (dna_geometry rand u v k Hrand Hv) as (Hstrand & _ & Hbar).
    set (p := fst (parametric.dna rand u v k)) in *.
    destruct (Rlt_dec u 0.8) as [H8 | H8].
    + destruct (Hstrand H8) as (Hc & _ & Hy).
      destruct (sq_sum2_bound _ _ 36 6 Hc ltac:(lra) ltac:(lra)) as (Hx & Hz).
      split; [lra |]. split; [apply Rabs_le; lra | lra].
    + destruct (Hbar ltac:(lra)) as (l & _ & _ & _ & Hc & Hy).
      destruct (sq_sum2_bound (xOf p) (zOf p) _ 6 eq_refl ltac:(lra) ltac:(lra))
        as (Hx & Hz).
      apply abs_between in Hy.
      split; [lra |]. split; [apply Rabs_le; lra | lra].
  - (* star *)
    destruct (star_geometry rand u v k (Hrand k) Hv)
      as (m & _ & _ & _ & _ & Hc & Hz).
    set (p := fst (parametric.star rand u v k)) in *.
    destruct (sq_sum2_bound (xOf p) (yOf p) _ 15 eq_refl ltac:(lra) ltac:(lra))
      as (Hx & Hy).
    split; [lra |]. split; [lra | apply Rabs_le; lra].
  - (* tornado *)
    destruct (tornado_geometry u v k Hv) as (_ & Hy & Hc & Hr & _).
    set (p := fst (parametric.tornado u v k)) in *.
    set (r := 2 + 18 * (v * v)) in *.
    destruct (sq_sum2_bound (xOf p) (zOf p) _ r Hc ltac:(lra) ltac:(lra))
      as (Hx & Hz).
    split; [lra |]. split; [apply Rabs_le; lra | lra].
  - (* sphere *)
    destruct (sphere_geometry rand u v k (Hrand k)) as (_ & Hn & _).
    match type of Hn with
    | norm ?a ?c ?d < 15 => destruct (coords_le_norm a c d) as (Hx & Hy & Hz)
    end.
    repeat split; lra.
Qed.

(** X21.  Every shape fits in one box: after [setTemplate] on any of the
    nine recognized names, with [Math.random()] in [[0, 1)], every
    coordinate of every target position lies in [[-36.3, 36.3]]. *)
Theorem targets_in_box (rand : nat -> R) (name : string) (f : R -> R -> Rand vec3)
    (s : ParticleSystem) (i : nat) :
  parametric.own rand name = Some f ->
  (forall n, 0 <= rand n < 1) ->
  wellFormed s -> (i < count s)%nat ->
  exists x y z : R,
    read3 (targetPositions (fst (setTemplate rand name s))) (i * 3) =
      (Fin x, Fin y, Fin z) /\
    Rabs x <= 36.3 /\ Rabs y <= 36.3 /\ Rabs z <= 36.3.
Proof.
  intros Hown Hrand Hwf Hi.
  destruct (own_palette rand name f Hown) as (pal & Hpal & _).
  destruct (setTemplate_own_particle rand name f pal s Hown Hpal Hwf i Hi)
    as (n & k & x & y & z & c0 & c1 & c2 & Hf & _ & Htp & _).
  destruct (generator_box rand name f (rand n) (rand (S n)) (S (S n)) Hown Hrand
              (Hrand n) (Hrand (S n))) as (Hx & Hy & Hz).
  rewrite Hf in Hx, Hy, Hz. unfold xOf, yOf, zOf in *. simpl in Hx, Hy, Hz.
  do 3 eexists. split; [exact Htp |].
  pose proof (Hrand k). pose proof (Hrand (S k)). pose proof (Hrand (S (S k))).
  apply abs_between in Hx, Hy, Hz.
  repeat split; apply Rabs_le; lra.
Qed.

Lemma targets_in_box_witness :
  exists x y z : R,
    read3 (targetPositions (fst (setTemplate (constant 0.5) "galaxy" atRest))) (0 * 3) =
      (Fin x, Fin y, Fin z) /\
    Rabs x <= 36.3 /\ Rabs y <= 36.3 /\ Rabs z <= 36.3.
Proof.
  apply (targets_in_box (constant 0.5) "galaxy" (parametric.galaxy (constant 0.5)) atRest 0).
  - reflexivity.
  - intros n. unfold constant. lra.
  - apply wellFormed_single; reflexivity.
  - simpl. lia.
Defined.

(** * HandInput: processResults *)

Lemma classify_keeps (fingers : Z) (i m r p : bool) (g : Gestures) :
  let g' := classify fingers i m r p g in
  isPinching g' = isPinching g /\ pointer g' = pointer g /\
  handSpread g' = handSpread g /\ handDetected g' = handDetected g.
Proof.
  cbv zeta. unfold classify.
  repeat match goal with |- context [if ?b then _ else _] => destruct b end;
    repeat split; reflexivity.
Qed.

(** From a record with none of the five flags set, the classification sets
    at most one, and the open hand only without a pinch. *)
Lemma classify_exclusive (fingers : Z) (i m r p : bool) (g : Gestures) :
  classified g = [false; false; false; false; false] ->
  let g' := classify fingers i m r p g in
  (length (filter (fun b : bool => b = true) (classified g')) <= 1)%nat /\
  (isOpen g' = true -> isPinching g' = false /\ (4 <= fingers)%Z) /\
  (isFist g' = true <-> fingers = 0%Z).
Proof.
  unfold classified. intros [= H1 H2 H3 H4 H5]. cbv zeta. unfold classify.
  destruct (Z.eqb_spec fingers 0) as [-> | Hne]; simpl; rewrite ?H1, ?H2, ?H3, ?H4, ?H5.
  - split; [simpl; lia |]. split; [discriminate | tauto].
  - destruct (Z.leb_spec 4 fingers) as [H4f | H4f]; simpl.
    + destruct (isPinching g) eqn:Ep; simpl.
      * destruct i, m, r, p; simpl;
          rewrite ?H1, ?H2, ?H3, ?H4, ?H5, ?Ep;
          (split; [simpl; lia |]); (split; [discriminate |]);
          (split; [discriminate | contradiction]).
      * rewrite ?H1, ?H2, ?H3, ?H4, ?H5, ?Ep.
        split; [simpl; lia |]. split; [auto |]. split; [discriminate | contradiction].
    + destruct i, m, r, p; simpl;
        rewrite ?H1, ?H2, ?H3, ?H4, ?H5;
        (split; [simpl; lia |]); (split; [discriminate |]);
        (split; [discriminate | contradiction]).
Qed.

Ltac eval_records :=
  cbv beta iota zeta delta
    [gestures fingerCount pointerZ palmCenter hands isReady isFist isOpen isPinching
     isPointing isRock isPeace pointer handSpread handDetected resetGestures
     setGestures fst snd].

(** A hand with fewer than 21 landmarks: the read of a coordinate of a
    missing one throws, after [handDetected] was set and before the finger
    count and the flags are written. *)
Lemma processResults_short (lm : list Landmark) (others : list (list Landmark))
    (h : HandInput) :
  (length lm < 21)%nat ->
  let r := processResults (Some (lm :: others)) h in
  snd r = Throw TypeError /\
  isFist (gestures (fst r)) = false /\ isOpen (gestures (fst r)) = false /\
  isPointing (gestures (fst r)) = false /\ isPeace (gestures (fst r)) = false /\
  isRock (gestures (fst r)) = false /\ isPinching (gestures (fst r)) = false /\
  handDetected (gestures (fst r)) = true /\ handSpread (gestures (fst r)) = 0 /\
  fingerCount (fst r) = (-1)%Z /\ hands (fst r) = lm :: others.
Proof.
  intros Hlen. cbv zeta.
  destruct (processResults (Some (lm :: others)) h) as [h' c] eqn:E.
  revert E. unfold processResults. eval_records.
  rewrite (lookup_ge_None_2 lm 20) by lia.
  repeat match goal with
         | |- context [lm !! ?k] =>
             destruct (lm !! k); cbv beta iota;
             [| intros [= <- <-]; repeat split; reflexivity]
         end.
  intros [= <- <-]; repeat split; reflexivity.
Qed.

Lemma full_lookup (lm : list Landmark) (k : nat) :
  (21 <= length lm)%nat -> (k < 21)%nat -> exists l, lm !! k = Some l.
Proof. intros Hlen Hk. apply lookup_lt_is_Some_2. lia. Qed.

(** A hand with its 21 landmarks: the state that [processResults] leaves. *)
Lemma processResults_full (lm : list Landmark) (others : list (list Landmark))
    (h : HandInput) :
  (21 <= length lm)%nat ->
  exists l0 l2 l4 l5 l6 l8 l10 l12 l14 l16 l17 l18 l20 : Landmark,
    lm !! 8%nat = Some l8 /\
    let isThumbOut := ltb 0.06 (Rabs (lmX l4 - lmX l2)) in
    let isIndexUp := ltb (lmY l8) (lmY l6) in
    let isMiddleUp := ltb (lmY l12) (lmY l10) in
    let isRingUp := ltb (lmY l16) (lmY l14) in
    let isPinkyUp := ltb (lmY l20) (lmY l18) in
    let fingers :=
      Z.of_nat (length (filter (fun b : bool => b = true)
        [isThumbOut; isIndexUp; isMiddleUp; isRingUp; isPinkyUp])) in
    let palm := {| lmX := (lmX l0 + lmX l5 + lmX l17) / 3;
                   lmY := (lmY l0 + lmY l5 + lmY l17) / 3;
                   lmZ := (lmZ l0 + lmZ l5 + lmZ l17) / 3 |} in
    let avgDist := fold_left (fun s t => s + dist t palm) [l4; l8; l12; l16; l20] 0 / 5 in
    processResults (Some (lm :: others)) h =
      ({| gestures :=
            classify fingers isIndexUp isMiddleUp isRingUp isPinkyUp
              {| isFist := false; isOpen := false;
                 isPinching := ltb (dist l4 l8) 0.05; isPointing := false;
                 isRock := false; isPeace := false;
                 pointer := Some ((lmX l8 - 0.5) * 2, - (lmY l8 - 0.5) * 2);
                 handSpread := Rmin (avgDist / 0.25) 1.0; handDetected := true |};
          fingerCount := fingers; pointerZ := lmZ l8;
          palmCenter := (lmX palm, lmY palm); hands := lm :: others;
          isReady := isReady h |}, Normal).
Proof.
  intros Hlen.
  destruct (full_lookup lm 0 Hlen ltac:(lia)) as [l0 E0].
  destruct (full_lookup lm 2 Hlen ltac:(lia)) as [l2 E2].
  destruct (full_lookup lm 4 Hlen ltac:(lia)) as [l4 E4].
  destruct (full_lookup lm 5 Hlen ltac:(lia)) as [l5 E5].
  destruct (full_lookup lm 6 Hlen ltac:(lia)) as [l6 E6].
  destruct (full_lookup lm 8 Hlen ltac:(lia)) as [l8 E8].
  destruct (full_lookup lm 10 Hlen ltac:(lia)) as [l10 E10].
  destruct (full_lookup lm 12 Hlen ltac:(lia)) as [l12 E12].
  destruct (full_lookup lm 14 Hlen ltac:(lia)) as [l14 E14].
  destruct (full_lookup lm 16 Hlen ltac:(lia)) as [l16 E16].
  destruct (full_lookup lm 17 Hlen ltac:(lia)) as [l17 E17].
  destruct (full_lookup lm 18 Hlen ltac:(lia)) as [l18 E18].
  destruct (full_lookup lm 20 Hlen ltac:(lia)) as [l20 E20].
  exists l0, l2, l4, l5, l6, l8, l10, l12, l14, l16, l17, l18, l20.
  split; [exact E8 |]. cbv zeta. unfold processResults. eval_records.
  rewrite E0, E5, E17, E8, E4, E2, E6, E12, E10, E16, E14, E20, E18.
  reflexivity.
Qed.

Lemma fold_dist_nonneg (palm : Landmark) (tips : list Landmark) (acc : R) :
  0 <= acc -> 0 <= fold_left (fun s t => s + dist t palm) tips acc.
Proof.
  revert acc. induction tips as [| t tips IH]; intros acc Hacc; simpl; [exact Hacc |].
  apply IH. pose proof (sqrt_pos ((lmX t - lmX palm) ^ 2 + (lmY t - lmY palm) ^ 2 +
                                  (lmZ t - lmZ palm) ^ 2)).
  unfold dist. lra.
Qed.

(** X22.  The classification is exclusive: whatever the detector reports
    (no hand, a hand, a hand with missing landmarks), after
    [processResults] at most one of the flags fist, open, pointing, peace
    and rock is set, an open hand is never a pinching one, and the fist
    flag is set exactly when the finger count is [0]. *)
Theorem classification_exclusive (results : option (list (list Landmark)))
    (h : HandInput) :
  let h' := fst (processResults results h) in
  (length (filter (fun b : bool => b = true) (classified (gestures h'))) <= 1)%nat /\
  (isOpen (gestures h') = true -> isPinching (gestures h') = false) /\
  (isFist (gestures h') = true <-> fingerCount h' = 0%Z).
Proof.
  cbv zeta.
  destruct results as [[| lm others] |];
    try (simpl; split; [lia | split; [discriminate | split; [discriminate | lia]]]).
  destruct (le_lt_dec 21 (length lm)) as [Hfull | Hshort].
  - destruct (processResults_full lm others h Hfull)
      as (l0 & l2 & l4 & l5 & l6 & l8 & l10 & l12 & l14 & l16 & l17 & l18 & l20 & _ & E).
    cbv zeta in E. rewrite E. cbn [gestures fingerCount fst snd].
    match goal with
    | |- context [classify ?f ?i ?m ?r ?p ?g] =>
        destruct (classify_exclusive f i m r p g eq_refl) as (H1 & H2 & H3)
    end.
    cbv zeta in H1, H2, H3.
    split; [exact H1 |]. split; [| exact H3]. intros Ho. now apply H2.
  - destruct (processResults_short lm others h Hshort)
      as (_ & H1 & H2 & H3 & H4 & H5 & _ & _ & _ & Hf & _).
    cbv zeta in H1, H2, H3, H4, H5, Hf. unfold classified.
    rewrite H1, H2, H3, H4, H5, Hf.
    simpl. split; [lia | split; [discriminate | split; [discriminate | lia]]].
Qed.

(** X23.  A hand with its 21 landmarks is processed without a throw: the
    hand is marked detected, the finger count is between [0] and [5], the
    hand spread is in [[0, 1]], and, when the index tip lies in the image
    ([0 <= x, y <= 1]), the pointer lies in [[-1, 1]^2], so that the
    repulsion point of the next tick lies in [[-40, 40] x [-20, 20]]. *)
Theorem full_hand_ranges (lm : list Landmark) (others : list (list Landmark))
    (h : HandInput) (tip : Landmark) :
  (21 <= length lm)%nat ->
  lm !! 8%nat = Some tip ->
  let h' := fst (processResults (Some (lm :: others)) h) in
  snd (processResults (Some (lm :: others)) h) = Normal /\
  handDetected (gestures h') = true /\
  (0 <= fingerCount h' <= 5)%Z /\
  0 <= handSpread (gestures h') <= 1 /\
  pointer (gestures h') = Some ((lmX tip - 0.5) * 2, - (lmY tip - 0.5) * 2) /\
  (0 <= lmX tip <= 1 -> 0 <= lmY tip <= 1 ->
     -40 <= fst (pointerPosition (gestures h')) <= 40 /\
     -20 <= snd (pointerPosition (gestures h')) <= 20).
Proof.
  intros Hlen Htip. cbv zeta.
  destruct (processResults_full lm others h Hlen)
    as (l0 & l2 & l4 & l5 & l6 & l8 & l10 & l12 & l14 & l16 & l17 & l18 & l20 & E8 & E).
  cbv zeta in E. rewrite E. clear E.
  assert (l8 = tip) as -> by congruence.
  cbn [gestures fingerCount fst snd].
  match goal with
  | |- context [classify ?f ?i ?m ?r ?p ?g] =>
      destruct (classify_keeps f i m r p g) as (_ & Hp & Hs & Hd);
      cbv zeta in Hp, Hs, Hd;
      set (g' := classify f i m r p g) in *
  end.
  cbn [pointer handSpread handDetected] in Hp, Hs, Hd.
  split; [reflexivity |]. split; [exact Hd |]. split.
  { split; [lia |].
    match goal with
    | |- (Z.of_nat (length (filter ?P ?l)) <= 5)%Z =>
        pose proof (length_filter P l) as Hf; simpl length in Hf at 2; lia
    end. }
  split.
  { rewrite Hs.
    match goal with
    | |- 0 <= Rmin (fold_left ?f ?tips 0 / 5 / 0.25) _ <= 1 =>
        pose proof (fold_dist_nonneg
                      {| lmX := (lmX l0 + lmX l5 + lmX l17) / 3;
                         lmY := (lmY l0 + lmY l5 + lmY l17) / 3;
                         lmZ := (lmZ l0 + lmZ l5 + lmZ l17) / 3 |} tips 0 (Rle_refl 0)) as Hn;
        set (total := fold_left f tips 0) in *
    end.
    split; [apply Rmin_glb; lra | eapply Rle_trans; [apply Rmin_r | lra]]. }
  split; [exact Hp |].
  intros Hx Hy. unfold pointerPosition. rewrite Hd, Hp. simpl. lra.
Qed.

Lemma full_hand_ranges_witness :
  let h' := fst (processResults (Some [closedHand]) newHandInput) in
  snd (processResults (Some [closedHand]) newHandInput) = Normal /\
  handDetected (gestures h') = true /\
  (0 <= fingerCount h' <= 5)%Z /\
  0 <= handSpread (gestures h') <= 1 /\
  pointer (gestures h') = Some ((0.5 - 0.5) * 2, - (0.5 - 0.5) * 2) /\
  -40 <= fst (pointerPosition (gestures h')) <= 40 /\
  -20 <= snd (pointerPosition (gestures h')) <= 20.
Proof.
  destruct (full_hand_ranges closedHand [] newHandInput
              {| lmX := 0.5; lmY := 0.5; lmZ := 0 |})
    as (H1 & H2 & H3 & H4 & H5 & H6).
  - simpl. lia.
  - reflexivity.
  - repeat (split; [assumption |]). apply H6; simpl; lra.
Defined.

Lemma update_requested (rand : nat -> R) (dt : R) (gestures : option Gestures)
    (s : ParticleSystem) :
  currentTemplate (fst (update rand dt gestures s)) = requested gestures s.
Proof.
  destruct (update_frame rand dt gestures s) as (_ & Hcur & _).
  cbv zeta in Hcur. rewrite Hcur. unfold beforeLoop, requested. simpl.
  match goal with
  | |- context [mapGesture rand ?g ?t] =>
      destruct (mapGesture_spec rand g t) as [_ Hmap]; rewrite Hmap
  end.
  reflexivity.
Qed.

(** X24.  A hand with fewer than 21 landmarks makes [processResults] throw a
    [TypeError] halfway: the hand is already marked detected, but no finger
    count, no gesture flag and no spread are written.  A tick that reads the
    gestures left behind keeps the template and draws the expansion toward
    [0.7]. *)
Theorem short_hand_throws (rand : nat -> R) (dt : R) (lm : list Landmark)
    (others : list (list Landmark)) (h : HandInput) (s : ParticleSystem) :
  (length lm < 21)%nat ->
  let r := processResults (Some (lm :: others)) h in
  let s' := fst (update rand dt (Some (gestures (fst r))) s) in
  snd r = Throw TypeError /\
  handDetected (gestures (fst r)) = true /\
  fingerCount (fst r) = (-1)%Z /\
  classified (gestures (fst r)) = [false; false; false; false; false] /\
  isPinching (gestures (fst r)) = false /\
  currentTemplate s' = currentTemplate s /\
  uExpansion s' = uExpansion s + (0.7 - uExpansion s) * 0.03.
Proof.
  intros Hlen. cbv zeta.
  destruct (processResults_short lm others h Hlen)
    as (Hc & H1 & H2 & H3 & H4 & H5 & H6 & Hd & Hs & Hf & _).
  cbv zeta in Hc, H1, H2, H3, H4, H5, H6, Hd, Hs, Hf.
  set (r := processResults (Some (lm :: others)) h) in *.
  split; [exact Hc |]. split; [exact Hd |]. split; [exact Hf |].
  split; [unfold classified; now rewrite H1, H2, H3, H4, H5 |].
  split; [exact H6 |]. split.
  - rewrite update_requested. unfold requested. simpl default.
    now rewrite H1, H2, H3, H4, H5, H6.
  - destruct (update_uniforms rand dt (Some (gestures (fst r))) s) as (_ & He & _).
    cbv zeta in He. rewrite He. simpl default. unfold targetExpansionOf.
    rewrite Hd, Hs. lra.
Qed.

Lemma short_hand_throws_witness :
  let r := processResults (Some [[{| lmX := 0.5; lmY := 0.5; lmZ := 0 |}]]) newHandInput in
  let s' := fst (update (constant 0.5) 0.016 (Some (gestures (fst r))) atRest) in
  snd r = Throw TypeError /\
  handDetected (gestures (fst r)) = true /\
  fingerCount (fst r) = (-1)%Z /\
  classified (gestures (fst r)) = [false; false; false; false; false] /\
  isPinching (gestures (fst r)) = false /\
  currentTemplate s' = currentTemplate atRest /\
  uExpansion s' = uExpansion atRest + (0.7 - uExpansion atRest) * 0.03.
Proof.
  apply (short_hand_throws (constant 0.5) 0.016
           [{| lmX := 0.5; lmY := 0.5; lmZ := 0 |}] [] newHandInput atRest).
  simpl. lia.
Defined.

(** X25.  Without a hand ([results.landmarks] absent or empty)
    [processResults] completes, clears every flag, the finger count and the
    spread, and keeps the last pointer and palm center; a tick that reads
    these gestures is the tick without gestures. *)
Theorem no_hand_is_idle (rand : nat -> R) (dt : R)
    (results : option (list (list Landmark))) (h : HandInput) (s : ParticleSystem) :
  results = None \/ results = Some [] ->
  let r := processResults results h in
  snd r = Normal /\
  handDetected (gestures (fst r)) = false /\
  fingerCount (fst r) = (-1)%Z /\
  pointer (gestures (fst r)) = pointer (gestures h) /\
  palmCenter (fst r) = palmCenter h /\
  update rand dt (Some (gestures (fst r))) s = update rand dt None s.
Proof.
  intros [-> | ->]; cbv zeta; simpl; repeat split; reflexivity.
Qed.

Lemma no_hand_is_idle_witness :
  let r := processResults (Some []) newHandInput in
  snd r = Normal /\
  handDetected (gestures (fst r)) = false /\
  fingerCount (fst r) = (-1)%Z /\
  pointer (gestures (fst r)) = pointer (gestures newHandInput) /\
  palmCenter (fst r) = palmCenter newHandInput /\
  update (constant 0.5) 0.016 (Some (gestures (fst r))) atRest =
    update (constant 0.5) 0.016 None atRest.
Proof.
  apply (no_hand_is_idle (constant 0.5) 0.016 (Some []) newHandInput atRest).
  right. reflexivity.
Defined.

(** X26.  Through the pipeline a pinch wins over pointing, peace and rock
    but not over a fist: when [processResults] leaves the pinch flag set,
    the next tick selects the heart if no finger is extended and the DNA
    helix otherwise; it never selects the galaxy. *)
Theorem pinch_overrides (rand : nat -> R) (dt : R)
    (results : option (list (list Landmark))) (h : HandInput) (s : ParticleSystem) :
  let h' := fst (processResults results h) in
  isPinching (gestures h') = true ->
  currentTemplate (fst (update rand dt (Some (gestures h')) s)) =
    (if (fingerCount h' =? 0)%Z then "heart" else "dna").
Proof.
  cbv zeta. rewrite update_requested. unfold requested. simpl default.
  destruct results as [[| lm others] |]; try (simpl; discriminate).
  destruct (le_lt_dec 21 (length lm)) as [Hfull | Hshort].
  - destruct (processResults_full lm others h Hfull)
      as (l0 & l2 & l4 & l5 & l6 & l8 & l10 & l12 & l14 & l16 & l17 & l18 & l20 & _ & E).
    cbv zeta in E. rewrite E. cbn [gestures fingerCount fst snd].
    match goal with
    | |- context [classify ?f ?i ?m ?r ?p ?g] =>
        destruct (classify_exclusive f i m r p g eq_refl) as (_ & _ & H3);
        cbv zeta in H3;
        set (fingers := f) in *; set (g' := classify fingers i m r p g) in *
    end.
    intros Hp. rewrite Hp.
    destruct (Z.eqb_spec fingers 0) as [Hz | Hnz].
    + now rewrite (proj2 H3 Hz).
    + destruct (isFist g') eqn:Hfist; [| reflexivity].
      exfalso. apply Hnz. now apply H3.
  - destruct (processResults_short lm others h Hshort)
      as (_ & _ & _ & _ & _ & _ & H6 & _).
    cbv zeta in H6. rewrite H6. discriminate.
Qed.

Lemma pinch_overrides_witness :
  let h' := fst (processResults (Some [closedHand]) newHandInput) in
  isPinching (gestures h') = true /\
  currentTemplate (fst (update (constant 0.5) 0.016 (Some (gestures h')) atRest)) =
    (if (fingerCount h' =? 0)%Z then "heart" else "dna").
Proof.
  assert (isPinching (gestures (fst (processResults (Some [closedHand]) newHandInput)))
          = true) as Hp.
  { simpl.
    match goal with
    | |- isPinching (classify ?f ?i ?m ?r ?p ?g) = true =>
        destruct (classify_keeps f i m r p g) as (Hk & _); cbv zeta in Hk; rewrite Hk
    end.
    cbn [isPinching]. unfold ltb, dist. simpl.
    replace ((0.5 - 0.5) * ((0.5 - 0.5) * 1) + (0.5 - 0.5) * ((0.5 - 0.5) * 1) +
             (0 - 0) * ((0 - 0) * 1)) with 0 by ring.
    rewrite sqrt_0.
    destruct (Rlt_dec 0 0.05) as [_ | Hn]; [reflexivity | exfalso; apply Hn; lra]. }
  split; [exact Hp |].
  exact (pinch_overrides (constant 0.5) 0.016 (Some [closedHand]) newHandInput atRest Hp).
Defined.

Lemma dist_norm (p q : Landmark) :
  dist p q = norm (lmX p - lmX q) (lmY p - lmY q) (lmZ p - lmZ q).
Proof. unfold dist, norm. f_equal. ring. Qed.

(** X27.  [dist] is a metric on landmarks: it is never negative, symmetric,
    zero exactly between equal points, and satisfies the triangle
    inequality. *)
Theorem dist_metric (p q r : Landmark) :
  0 <= dist p q /\ dist p q = dist q p /\ (dist p q = 0 <-> p = q) /\
  dist p r <= dist p q + dist q r.
Proof.
  split; [rewrite dist_norm; apply norm_nonneg |].
  split; [unfold dist; f_equal; ring |].
  split.
  - split.
    + intros H0. pose proof (norm_sqr (lmX p - lmX q) (lmY p - lmY q) (lmZ p - lmZ q)) as Hs.
      rewrite <- dist_norm, H0 in Hs.
      pose proof (Rle_0_sqr (lmX p - lmX q)) as Hx.
      pose proof (Rle_0_sqr (lmY p - lmY q)) as Hy.
      pose proof (Rle_0_sqr (lmZ p - lmZ q)) as Hz.
      unfold Rsqr in Hx, Hy, Hz.
      assert ((lmX p - lmX q) * (lmX p - lmX q) = 0) as Hx0 by lra.
      assert ((lmY p - lmY q) * (lmY p - lmY q) = 0) as Hy0 by lra.
      assert ((lmZ p - lmZ q) * (lmZ p - lmZ q) = 0) as Hz0 by lra.
      apply Rmult_integral in Hx0, Hy0, Hz0.
      assert (lmX p = lmX q) by (destruct Hx0; lra).
      assert (lmY p = lmY q) by (destruct Hy0; lra).
      assert (lmZ p = lmZ q) by (destruct Hz0; lra).
      destruct p, q; simpl in *; congruence.
    + intros ->. rewrite dist_norm.
      replace (lmX q - lmX q) with 0 by ring. replace (lmY q - lmY q) with 0 by ring.
      replace (lmZ q - lmZ q) with 0 by ring. unfold norm.
      replace (0 * 0 + 0 * 0 + 0 * 0) with 0 by ring. apply sqrt_0.
  - rewrite !dist_norm.
    replace (lmX p - lmX r) with ((lmX p - lmX q) + (lmX q - lmX r)) by ring.
    replace (lmY p - lmY r) with ((lmY p - lmY q) + (lmY q - lmY r)) by ring.
    replace (lmZ p - lmZ r) with ((lmZ p - lmZ q) + (lmZ q - lmZ r)) by ring.
    apply norm_triangle.
Qed.

(** * main.js: the keyboard handler and the animation frame *)

Lemma shapes_own (rand : nat -> R) (name : string) :
  In name shapes -> exists f, parametric.own rand name = Some f.
Proof.
  unfold shapes. simpl.
  intros H. repeat (destruct H as [<- | H]; [eexists; reflexivity |]). contradiction.
Qed.

Lemma KEY_MAP_shapes (key name : string) :
  KEY_MAP.own key = Some name -> In name shapes.
Proof.
  unfold KEY_MAP.own, shapes.
  repeat (destruct (String.eqb key _); [intros [= <-]; simpl; tauto |]).
  discriminate.
Qed.

Lemma propertyKey_unknown (rand : nat -> R) (p : protoMember) :
  parametric.own rand (propertyKey p) = None /\ objectPrototype (propertyKey p) = None.
Proof. destruct p; split; reflexivity. Qed.

Lemma cycleColors_template (s : ParticleSystem) :
  currentTemplate (fst (cycleColors s)) = currentTemplate s.
Proof.
  unfold cycleColors.
  pose proof (forLoop_preserve (cycleParticle (paletteOf (currentTemplate s)))
                (fun t => currentTemplate t = currentTemplate s) (count s) 0 s) as H.
  destruct (forLoop _ _ _ _) as [t [| e]]; simpl in *; apply H; auto;
    intros j u Hu;
    destruct (cycleParticle_sameParticles (paletteOf (currentTemplate s)) j u)
      as (_ & Hcur & _); cbv zeta in Hcur; congruence.
Qed.

Lemma requested_shape (gestures : option Gestures) (s : ParticleSystem) :
  In (currentTemplate s) shapes -> In (requested gestures s) shapes.
Proof.
  intros Hs. unfold requested.
  repeat match goal with
         | |- context [if ?b then _ else _] => destruct b; [simpl; tauto |]
         end.
  exact Hs.
Qed.

Lemma keydown_invariant (rand : nat -> R) (key : string) (s : ParticleSystem) :
  In (currentTemplate s) shapes -> wellFormed s ->
  snd (keydown rand key s) = Normal /\
  In (currentTemplate (fst (keydown rand key s))) shapes /\
  wellFormed (fst (keydown rand key s)).
Proof.
  intros Hs Hwf. unfold keydown, getMember.
  destruct (KEY_MAP.own (toLowerCase key)) as [name |] eqn:Ekey; simpl.
  - pose proof (KEY_MAP_shapes _ _ Ekey) as Hname.
    destruct (shapes_own rand name Hname) as [f Hf].
    destruct (setTemplate_own rand name f s Hf) as [Hn Hcur].
    split; [exact Hn |]. split; [now rewrite Hcur |].
    now apply setTemplate_wellFormed.
  - destruct (objectPrototype (toLowerCase key)) as [p |]; simpl.
    + destruct (propertyKey_unknown rand p) as [Ho Hp].
      rewrite (setTemplate_unknown rand (propertyKey p) s Ho Hp). simpl. auto.
    + destruct (String.eqb (toLowerCase key) "c"); [| simpl; auto].
      destruct (shapes_own rand _ Hs) as [f Hf].
      destruct (own_palette rand _ f Hf) as (pal & Hpal & _).
      destruct (cycleColors_spec s pal Hwf Hpal) as (Hn & _).
      split; [exact Hn |]. split; [now rewrite cycleColors_template |].
      now apply cycleColors_wellFormed.
Qed.

Lemma animate_invariant (rand : nat -> R) (delta : R) (handInput : HandInput)
    (s : ParticleSystem) :
  In (currentTemplate s) shapes -> wellFormed s ->
  snd (animate rand delta handInput s) = Normal /\
  In (currentTemplate (fst (animate rand delta handInput s))) shapes /\
  wellFormed (fst (animate rand delta handInput s)).
Proof.
  intros Hs Hwf. unfold animate.
  split; [apply update_normal |]. split.
  - rewrite update_requested. now apply requested_shape.
  - now destruct (update_particle rand (Rmin delta 0.05)
                    (if isReady handInput then Some (gestures handInput) else None)
                    s Hwf) as (_ & H & _).
Qed.

Lemma construct_galaxy (rand : nat -> R) (n calls : nat) :
  currentTemplate (fst (construct rand n calls)) = "galaxy".
Proof.
  unfold construct. destruct (forLoop _ _ _ _) as [t c].
  now destruct (setTemplate_own rand "galaxy" (parametric.galaxy rand) t eq_refl).
Qed.

(** X28.  The page never breaks its particle system: in every state
    reached from the constructor by key presses and animation frames, the
    current template is one of the nine shapes, the buffers keep their
    lengths, and the next key press or frame completes without a throw,
    whatever the key, the frame time and the state of the hand tracker. *)
Theorem app_never_throws (rand : nat -> R) (s : ParticleSystem) :
  appReachable rand s ->
  In (currentTemplate s) shapes /\ wellFormed s /\
  (forall key, snd (keydown rand key s) = Normal) /\
  (forall delta handInput, snd (animate rand delta handInput s) = Normal).
Proof.
  intros Hreach.
  assert (In (currentTemplate s) shapes /\ wellFormed s) as [Hs Hwf].
  { induction Hreach as [n calls | key s _ [Hs Hwf] | delta h s _ [Hs Hwf]].
    - rewrite construct_galaxy. split; [simpl; tauto |].
      now destruct (construct_invariant rand n calls) as (_ & H & _).
    - now destruct (keydown_invariant rand key s Hs Hwf) as (_ & H1 & H2).
    - now destruct (animate_invariant rand delta h s Hs Hwf) as (_ & H1 & H2). }
  split; [exact Hs |]. split; [exact Hwf |]. split.
  - intros key. now destruct (keydown_invariant rand key s Hs Hwf).
  - intros delta h. now destruct (animate_invariant rand delta h s Hs Hwf).
Qed.

Lemma app_never_throws_witness :
  let s := fst (keydown (constant 0.5) "C" (fst (construct (constant 0.5) 1 0))) in
  In (currentTemplate s) shapes /\ wellFormed s /\
  (forall key, snd (keydown (constant 0.5) key s) = Normal) /\
  (forall delta handInput, snd (animate (constant 0.5) delta handInput s) = Normal).
Proof.
  apply (app_never_throws (constant 0.5)).
  apply app_keydown. apply app_construct.
Defined.

(** X29.  A key that is neither a shape key ([0] to [8]) nor [c], in either
    case, leaves the particle system as it is; this includes the names that
    [KEY_MAP] inherits, such as [constructor]. *)
Theorem unbound_keys_ignored (rand : nat -> R) (key : string) (s : ParticleSystem) :
  KEY_MAP.own (toLowerCase key) = None -> toLowerCase key <> "c" ->
  keydown rand key s = (s, Normal).
Proof.
  intros Hown Hc. unfold keydown, getMember. rewrite Hown.
  destruct (objectPrototype (toLowerCase key)) as [p |]; simpl.
  - destruct (propertyKey_unknown rand p) as [Ho Hp].
    apply (setTemplate_unknown rand (propertyKey p) s Ho Hp).
  - destruct (String.eqb_spec (toLowerCase key) "c") as [E | _]; [contradiction |].
    reflexivity.
Qed.

Lemma unbound_keys_ignored_witness :
  keydown (constant 0.5) "Constructor" atRest = (atRest, Normal).
Proof.
  apply (unbound_keys_ignored (constant 0.5) "Constructor" atRest).
  - reflexivity.
  - discriminate.
Defined.

(** X30.  A shape key, in either case, retargets without moving anything:
    the handler completes, the template becomes the shape that [KEY_MAP]
    gives, and the count, the clock, the expansion, the positions, the
    velocities, the colors, the sizes and the palette index are
    unchanged. *)
Theorem shape_key_selects (rand : nat -> R) (key name : string) (s : ParticleSystem) :
  KEY_MAP.own (toLowerCase key) = Some name ->
  let s' := fst (keydown rand key s) in
  snd (keydown rand key s) = Normal /\ In name shapes /\
  currentTemplate s' = name /\ sameParticles s s' /\
  colorPaletteIndex s' = colorPaletteIndex s.
Proof.
  intros Hown. cbv zeta. unfold keydown, getMember. rewrite Hown. simpl.
  pose proof (KEY_MAP_shapes _ _ Hown) as Hname.
  destruct (shapes_own rand name Hname) as [f Hf].
  destruct (setTemplate_own rand name f s Hf) as [Hn Hcur].
  destruct (setTemplate_sameParticles rand name s) as [Hsame Hk].
  split; [exact Hn |]. split; [exact Hname |]. split; [exact Hcur |].
  split; [exact Hsame | exact Hk].
Qed.

Lemma shape_key_selects_witness :
  let s' := fst (keydown (constant 0.5) "7" atRest) in
  snd (keydown (constant 0.5) "7" atRest) = Normal /\ In "star" shapes /\
  currentTemplate s' = "star" /\ sameParticles atRest s' /\
  colorPaletteIndex s' = colorPaletteIndex atRest.
Proof.
  apply (shape_key_selects (constant 0.5) "7" "star" atRest). reflexivity.
Defined.
